(** * Snapshots-MCP-Server: window matching, restore orchestration and diff

    A shallow embedding of
    - [internal/platform/matcher.go]   (package [platform]: the window matcher),
    - [internal/core/interfaces.go]    (package [snapshot]: [ManagerV2]),
    - [internal/snapshot/manager.go]   (package [snapshot]: [Manager.Diff]),
    - [internal/core/models.go]        (package [core]: the entity model),
    and, further on, of the sanitizer (package [sanitize]), of the captures
    and of [Manager.Restore] (package [snapshot]), of the adapters for
    Windows (package [platform], [windows_v2.go] and the first adapter) and
    of the SQLite repository ([internal/db/sqlite.go]),
    followed by the properties of these functions.

    Conventions.
    - Go's [int] is a 64-bit two's-complement integer: a [Z] on which every
      arithmetic operation is followed by [GoInt.wrap].
    - A Go run-time panic (integer division by zero) is the [Panic] outcome.
    - Go's [float64] is IEEE 754 binary64, given by the standard library's
      [spec_float] with precision 53 and maximal exponent 1024.
    - A Go [map[K]bool] that is only ever assigned [true] is a [gset K];
      [map[string]*MatchResult] is a [gmap string MatchResult].
    - A Go [(T, error)] result is a pair whose second component is
      [option error]; a nil slice is the empty list. *)

From Stdlib Require Import ZArith Lia Bool Ascii String List.
From Stdlib Require Import Floats.SpecFloat.
From stdpp Require Import base option list gmap strings fin_maps pretty.

Local Open Scope Z_scope.

(** ** Outcomes of Go code that may panic *)

Inductive outcome (A : Type) : Type :=
| Ok (a : A)
| Panic (msg : string).
Arguments Ok {A} a.
Arguments Panic {A} msg.

#[export] Instance outcome_ret : MRet outcome := fun _ a => Ok a.
#[export] Instance outcome_bind : MBind outcome := fun _ _ f x =>
  match x with
  | Ok a => f a
  | Panic msg => Panic msg
  end.

(** ** Go's [int] *)

Module GoInt.

Definition min_int : Z := - 2 ^ 63.
Definition max_int : Z := 2 ^ 63 - 1.

Definition in_range (z : Z) : Prop := min_int <= z <= max_int.

Definition wrap (z : Z) : Z := (z + 2 ^ 63) mod 2 ^ 64 - 2 ^ 63.

Definition add (a b : Z) : Z := wrap (a + b).
Definition sub (a b : Z) : Z := wrap (a - b).
Definition mul (a b : Z) : Z := wrap (a * b).

(** [a / b]: truncated division, a run-time panic when [b] is zero. *)
Definition div (a b : Z) : outcome Z :=
  if b =? 0 then Panic "runtime error: integer divide by zero"
  else Ok (wrap (Z.quot a b)).

(** [len(l)] of a slice. *)
Definition len {A : Type} (l : list A) : Z := Z.of_nat (length l).

End GoInt.

(** ** Go's [float64] *)

Module Float64.

Definition prec : Z := 53.
Definition emax : Z := 1024.

Definition t : Type := spec_float.

(** The conversion [float64(z)] of an [int]: round to nearest even. *)
Definition of_int (z : Z) : t := binary_normalize prec emax z 0 false.

Definition div : t -> t -> t := SFdiv prec emax.
Definition mul : t -> t -> t := SFmul prec emax.
Definition abs : t -> t := SFabs.
Definition leb : t -> t -> bool := SFleb.
Definition ltb : t -> t -> bool := SFltb.

Definition zero : t := S754_zero false.
Definition one : t := S754_finite false 4503599627370496 (-52).
(** The constants [0.1] and [0.7] converted to [float64]. *)
Definition lit_0_1 : t := S754_finite false 7205759403792794 (-56).
Definition lit_0_7 : t := S754_finite false 6305039478318694 (-53).

(** The integral part of a finite number. *)
Definition trunc (f : t) : option Z :=
  match f with
  | S754_zero _ => Some 0
  | S754_finite s m e =>
      let a := if 0 <=? e then Z.pos m * 2 ^ e else Z.pos m / 2 ^ (- e) in
      Some (if s then - a else a)
  | S754_infinity _ | S754_nan => None
  end.

(** The conversion [int(f)]: truncation toward zero. Go leaves the result
    unspecified when the value does not fit; the amd64 code that the
    compiler emits yields the most negative integer then. *)
Definition to_int (f : t) : Z :=
  match trunc f with
  | Some z =>
      if (GoInt.min_int <=? z) && (z <=? GoInt.max_int) then z
      else GoInt.min_int
  | None => GoInt.min_int
  end.

End Float64.

(** ** The functions of Go's [strings] package and rune iteration

    The matcher calls [strings.ToLower], [strings.Contains] and
    [strings.Fields] and ranges over the runes of a string. They belong to
    Go's library, so the matcher is embedded over any implementation of
    them. *)

Class GoStrings : Type := {
  ToLower : string -> string;
  Contains : string -> string -> bool;
  Fields : string -> list string;
  runes : string -> list Z;
}.

(** Their behaviour on ASCII text, on which the embedding can be run. *)
Module ascii.

Definition to_lower (c : Ascii.ascii) : Ascii.ascii :=
  let n := N_of_ascii c in
  if ((65 <=? n) && (n <=? 90))%N then ascii_of_N (n + 32) else c.

Fixpoint ToLower (s : string) : string :=
  match s with
  | EmptyString => EmptyString
  | String c s' => String (to_lower c) (ToLower s')
  end.

Fixpoint Contains (s substr : string) : bool :=
  if String.prefix substr s then true
  else match s with
       | EmptyString => false
       | String _ s' => Contains s' substr
       end.

(** '\t', '\n', '\v', '\f', '\r' and ' '. *)
Definition is_space (c : Ascii.ascii) : bool :=
  let n := N_of_ascii c in
  (((9 <=? n) && (n <=? 13)) || (n =? 32))%N.

(** [tok] is the field being read. *)
Fixpoint fields_from (s tok : string) : list string :=
  match s with
  | EmptyString => if String.eqb tok "" then [] else [tok]
  | String c s' =>
      if is_space c then
        if String.eqb tok "" then fields_from s' ""
        else tok :: fields_from s' ""
      else fields_from s' (tok +:+ String c "")
  end.

Definition Fields (s : string) : list string := fields_from s "".

Definition runes (s : string) : list Z :=
  map (fun c => Z.of_N (N_of_ascii c)) (list_ascii_of_string s).

End ascii.

Definition ascii_strings : GoStrings :=
  {| ToLower := ascii.ToLower;
     Contains := ascii.Contains;
     Fields := ascii.Fields;
     runes := ascii.runes |}.

(** ** Package [core]: the entity model *)

Module core.

(** [time.Time] and [time.Duration] in nanoseconds. *)
Definition Time : Type := Z.
Definition Duration : Type := Z.

Module Window.
Record t : Type := mk {
  ID : Z;
  SnapshotID : string;
  AppName : string;
  AppPath : string;
  WindowTitle : string;
  X : Z;
  Y : Z;
  Width : Z;
  Height : Z;
  State : string;
  Workspace : Z;
  ZIndex : Z;
  LaunchArgs : string;
}.
End Window.

(** The terminal, browser-tab, process and editor-file lists of a
    snapshot are not read by the functions embedded here. *)
Module Snapshot.
Record t : Type := mk {
  ID : string;
  Name : string;
  Description : string;
  CreatedAt : Time;
  UpdatedAt : Time;
  GitBranch : string;
  GitRepo : string;
  GitDirty : bool;
  GitHeadHash : string;
  Tags : list string;
  Windows : list Window.t;
}.

Definition set_Windows (s : t) (ws : list Window.t) : t :=
  mk (ID s) (Name s) (Description s) (CreatedAt s) (UpdatedAt s)
     (GitBranch s) (GitRepo s) (GitDirty s) (GitHeadHash s) (Tags s) ws.
End Snapshot.

End core.

(** ** Package [platform]: the window matcher *)

Module platform.
Import core.

Module WindowMatcher.
Record t : Type := mk {
  ExactTitleScore : Z;
  PartialTitleScore : Z;
  SameAppScore : Z;
  SameSizeScore : Z;
  MinimumScore : Z;
}.
End WindowMatcher.
Import WindowMatcher.

Definition DefaultMatcher : WindowMatcher.t :=
  {| ExactTitleScore := 100;
     PartialTitleScore := 50;
     SameAppScore := 50;
     SameSizeScore := 10;
     MinimumScore := 60 |}.

Module MatchResult.
Record t : Type := mk {
  Window : Window.t;
  Score : Z;
}.
End MatchResult.

Section Matcher.
Context {go : GoStrings}.
Variable m : WindowMatcher.t.

(** The character sets are [map[rune]bool]; the loop that counts the
    intersection visits every key of [set1] once, so its result does
    not depend on the iteration order. *)
Definition stringSimilarity (s1 s2 : string) : Float64.t :=
  if String.eqb s1 s2 then Float64.one
  else
    let set1 : gset Z := list_to_set (runes s1) in
    let set2 : gset Z := list_to_set (runes s2) in
    let intersection := GoInt.len (filter (fun c => c ∈ set2) (elements set1)) in
    let union :=
      GoInt.sub (GoInt.add (Z.of_nat (size set1)) (Z.of_nat (size set2)))
                intersection in
    if union =? 0 then Float64.zero
    else Float64.div (Float64.of_int intersection) (Float64.of_int union).

Fixpoint countCommonTokens_loop (set : gset string) (tokens2 : list string)
    (count : Z) : Z :=
  match tokens2 with
  | [] => count
  | t :: rest =>
      countCommonTokens_loop set rest
        (if bool_decide (ToLower t ∈ set) then GoInt.add count 1 else count)
  end.

Definition countCommonTokens (tokens1 tokens2 : list string) : Z :=
  let set : gset string := list_to_set (map ToLower tokens1) in
  countCommonTokens_loop set tokens2 0.

(** The token rule, which ends [scoreTitleMatch]. *)
Definition scoreTitleMatch_tokens (target candidate : string) : outcome Z :=
  let targetTokens := Fields target in
  let candidateTokens := Fields candidate in
  let commonTokens := countCommonTokens targetTokens candidateTokens in
  if 0 <? commonTokens then
    tokenScore ← GoInt.div (GoInt.mul commonTokens (PartialTitleScore m))
                           (GoInt.len targetTokens);
    Ok tokenScore
  else Ok 0.

Definition scoreTitleMatch (target candidate : string) : outcome Z :=
  if String.eqb target candidate then Ok (ExactTitleScore m)
  else
    let targetLower := ToLower target in
    let candidateLower := ToLower candidate in
    if String.eqb targetLower candidateLower then Ok (ExactTitleScore m)
    else if Contains candidateLower targetLower then Ok (PartialTitleScore m)
    else if Contains targetLower candidateLower then Ok (PartialTitleScore m)
    else
      let similarity := stringSimilarity targetLower candidateLower in
      if Float64.ltb Float64.lit_0_7 similarity then
        Ok (Float64.to_int
              (Float64.mul (Float64.of_int (PartialTitleScore m)) similarity))
      else scoreTitleMatch_tokens target candidate.

Definition isSimilarSize (w1 w2 : Window.t) : bool :=
  let tolerance := Float64.lit_0_1 in
  let widthDiff :=
    Float64.div
      (Float64.abs (Float64.of_int (GoInt.sub (Window.Width w1) (Window.Width w2))))
      (Float64.of_int (Window.Width w1)) in
  let heightDiff :=
    Float64.div
      (Float64.abs (Float64.of_int (GoInt.sub (Window.Height w1) (Window.Height w2))))
      (Float64.of_int (Window.Height w1)) in
  Float64.leb widthDiff tolerance && Float64.leb heightDiff tolerance.

Definition calculateScore (target candidate : Window.t) : outcome Z :=
  let score := 0 in
  title ← scoreTitleMatch (Window.WindowTitle target) (Window.WindowTitle candidate);
  let score := GoInt.add score title in
  let score :=
    if String.eqb (Window.AppName target) (Window.AppName candidate)
    then GoInt.add score (SameAppScore m) else score in
  let score :=
    if isSimilarSize target candidate
    then GoInt.add score (SameSizeScore m) else score in
  Ok score.

(** The body of the loop of [FindBestMatch], [bestMatch] being the
    pointer that the loop updates ([None] is nil). *)
Fixpoint FindBestMatch_loop (target : Window.t) (candidates : list Window.t)
    (bestMatch : option MatchResult.t) : outcome (option MatchResult.t) :=
  match candidates with
  | [] => Ok bestMatch
  | candidate :: rest =>
      score ← calculateScore target candidate;
      let bestMatch :=
        if MinimumScore m <=? score then
          match bestMatch with
          | None => Some (MatchResult.mk candidate score)
          | Some best =>
              if MatchResult.Score best <? score
              then Some (MatchResult.mk candidate score)
              else bestMatch
          end
        else bestMatch in
      FindBestMatch_loop target rest bestMatch
  end.

Definition FindBestMatch (target : Window.t) (candidates : list Window.t)
    : outcome (option MatchResult.t) :=
  FindBestMatch_loop target candidates None.

Definition removeWindow (windows : list Window.t) (toRemove : Window.t)
    : list Window.t :=
  filter (fun w =>
            Window.WindowTitle w ≠ Window.WindowTitle toRemove
            ∨ Window.AppName w ≠ Window.AppName toRemove)
         windows.

Fixpoint MatchWindows_loop (targets availableCandidates : list Window.t)
    (results : gmap string MatchResult.t)
    : outcome (gmap string MatchResult.t) :=
  match targets with
  | [] => Ok results
  | target :: rest =>
      match_ ← FindBestMatch target availableCandidates;
      match match_ with
      | Some r =>
          MatchWindows_loop rest
            (removeWindow availableCandidates (MatchResult.Window r))
            (<[Window.WindowTitle target := r]> results)
      | None => MatchWindows_loop rest availableCandidates results
      end
  end.

Definition MatchWindows (targets candidates : list Window.t)
    : outcome (gmap string MatchResult.t) :=
  MatchWindows_loop targets candidates ∅.

End Matcher.

End platform.

(** ** Package [time] *)

Module time.
Import core.

Definition minDuration : Duration := - 2 ^ 63.
Definition maxDuration : Duration := 2 ^ 63 - 1.

(** [t.Sub(u)]: the difference, saturated to the range of [Duration]. *)
Definition Sub (t u : Time) : Duration :=
  let d := t - u in
  if d <? minDuration then minDuration
  else if maxDuration <? d then maxDuration
  else d.

End time.

(** ** Package [snapshot]: the capture/restore/diff orchestrator *)

Module snapshot.
Import core.

(** A Go [error] is represented by its message. *)
Definition error : Type := string.

Module RestoreOptionsV2.
Record t : Type := mk {
  ValidateBeforeRestore : bool;
  SkipMissingApps : bool;
  DryRun : bool;
}.
End RestoreOptionsV2.

Module RestoreReport.
Record t : Type := mk {
  SnapshotID : string;
  TotalWindows : Z;
  RestoredWindows : Z;
  FailedWindows : list string;
  MissingApps : list string;
  Errors : list string;
  Success : bool;
  DryRun : bool;
  Error : string;
  Message : string;
  StartTime : Time;
  EndTime : Time;
  Duration : core.Duration;
}.

(** Assignments to the fields of a report. *)
Definition set_RestoredWindows (v : Z) (r : t) : t :=
  mk (SnapshotID r) (TotalWindows r) v (FailedWindows r) (MissingApps r)
     (Errors r) (Success r) (DryRun r) (Error r) (Message r)
     (StartTime r) (EndTime r) (Duration r).
Definition set_FailedWindows (v : list string) (r : t) : t :=
  mk (SnapshotID r) (TotalWindows r) (RestoredWindows r) v (MissingApps r)
     (Errors r) (Success r) (DryRun r) (Error r) (Message r)
     (StartTime r) (EndTime r) (Duration r).
Definition set_MissingApps (v : list string) (r : t) : t :=
  mk (SnapshotID r) (TotalWindows r) (RestoredWindows r) (FailedWindows r) v
     (Errors r) (Success r) (DryRun r) (Error r) (Message r)
     (StartTime r) (EndTime r) (Duration r).
Definition set_Errors (v : list string) (r : t) : t :=
  mk (SnapshotID r) (TotalWindows r) (RestoredWindows r) (FailedWindows r)
     (MissingApps r) v (Success r) (DryRun r) (Error r) (Message r)
     (StartTime r) (EndTime r) (Duration r).
Definition set_Success (v : bool) (r : t) : t :=
  mk (SnapshotID r) (TotalWindows r) (RestoredWindows r) (FailedWindows r)
     (MissingApps r) (Errors r) v (DryRun r) (Error r) (Message r)
     (StartTime r) (EndTime r) (Duration r).
Definition set_DryRun (v : bool) (r : t) : t :=
  mk (SnapshotID r) (TotalWindows r) (RestoredWindows r) (FailedWindows r)
     (MissingApps r) (Errors r) (Success r) v (Error r) (Message r)
     (StartTime r) (EndTime r) (Duration r).
Definition set_Error (v : string) (r : t) : t :=
  mk (SnapshotID r) (TotalWindows r) (RestoredWindows r) (FailedWindows r)
     (MissingApps r) (Errors r) (Success r) (DryRun r) v (Message r)
     (StartTime r) (EndTime r) (Duration r).
Definition set_Message (v : string) (r : t) : t :=
  mk (SnapshotID r) (TotalWindows r) (RestoredWindows r) (FailedWindows r)
     (MissingApps r) (Errors r) (Success r) (DryRun r) (Error r) v
     (StartTime r) (EndTime r) (Duration r).
Definition set_EndTime (v : Time) (r : t) : t :=
  mk (SnapshotID r) (TotalWindows r) (RestoredWindows r) (FailedWindows r)
     (MissingApps r) (Errors r) (Success r) (DryRun r) (Error r) (Message r)
     (StartTime r) v (Duration r).
Definition set_Duration (v : core.Duration) (r : t) : t :=
  mk (SnapshotID r) (TotalWindows r) (RestoredWindows r) (FailedWindows r)
     (MissingApps r) (Errors r) (Success r) (DryRun r) (Error r) (Message r)
     (StartTime r) (EndTime r) v.
End RestoreReport.

Module DiffResult.
Record t : Type := mk {
  SourceID : string;
  TargetID : string;
  GitChanged : bool;
  AddedWindows : list string;
  RemovedWindows : list string;
  CommonWindows : Z;
}.

Definition set_AddedWindows (v : list string) (d : t) : t :=
  mk (SourceID d) (TargetID d) (GitChanged d) v (RemovedWindows d)
     (CommonWindows d).
Definition set_RemovedWindows (v : list string) (d : t) : t :=
  mk (SourceID d) (TargetID d) (GitChanged d) (AddedWindows d) v
     (CommonWindows d).
Definition set_CommonWindows (v : Z) (d : t) : t :=
  mk (SourceID d) (TargetID d) (GitChanged d) (AddedWindows d)
     (RemovedWindows d) v.
End DiffResult.

(** The calls that the manager issues to its collaborators, in the order
    in which it issues them. *)
Inductive call : Type :=
| CallGetSnapshotByID (id : string)
| CallRepoGetWindows (id : string)
| CallPlatformGetWindows
| CallRestoreWindow (w : Window.t)
| CallNow.

Definition is_RestoreWindow (c : call) : bool :=
  match c with
  | CallRestoreWindow _ => true
  | _ => false
  end.

(** [fmt]'s rendering of a [[]string] under the verb [%v]. *)
Definition fmt_strings (l : list string) : string :=
  "[" +:+ String.concat " " l +:+ "]".

(** The order in which a [range] loop visits the keys of a map: Go leaves
    it unspecified, so each loop takes its order as an argument. *)
Definition map_range : Type := gset string -> list string.

Definition range_ok (r : map_range) : Prop :=
  forall s : gset string, r s ≡ₚ elements s.

Section Manager.
(** The state of everything outside the manager: the store behind the
    repository, the windows on screen, the clock. *)
Context {World : Type}.

(** The methods of [core.Repository] and [core.PlatformAdapter] that
    [Restore], [validateApps] and [Diff] call. *)
Record Repository : Type := {
  repo_GetSnapshotByID :
    string -> World -> (option Snapshot.t * option error) * World;
  repo_GetWindows :
    string -> World -> (list Window.t * option error) * World;
}.

Record PlatformAdapter : Type := {
  plat_GetWindows : World -> (list Window.t * option error) * World;
  plat_RestoreWindow : Window.t -> World -> option error * World;
}.

Record ManagerV2 : Type := {
  repo : Repository;
  platform_ : PlatformAdapter;
  time_Now : World -> Time * World;
}.

(** Computations of the manager: they transform the world and extend
    the list of calls issued so far. *)
Definition M (A : Type) : Type :=
  World * list call -> A * (World * list call).

#[global] Instance M_ret : MRet M := fun _ a s => (a, s).
#[global] Instance M_bind : MBind M := fun _ _ k c s =>
  let '(a, s') := c s in k a s'.

Definition ret {A : Type} (a : A) : M A := mret a.

(** A call to a collaborator is appended to the list of calls. *)
Definition invoke {A : Type} (c : call) (op : World -> A * World) : M A :=
  fun s => let '(a, σ') := op (fst s) in (a, (σ', snd s ++ [c])).

Variable m : ManagerV2.

(** The loop of [validateApps] over the stored windows. *)
Fixpoint validateApps_loop (availableApps : gset string)
    (windows : list Window.t) (checked : gset string)
    (missing : list string) : list string :=
  match windows with
  | [] => missing
  | w :: rest =>
      if bool_decide (Window.AppName w ∈ checked) then
        validateApps_loop availableApps rest checked missing
      else
        let checked := {[Window.AppName w]} ∪ checked in
        if bool_decide (Window.AppName w ∈ availableApps) then
          validateApps_loop availableApps rest checked missing
        else
          validateApps_loop availableApps rest checked
                            (missing ++ [Window.AppName w])
  end.

Definition validateApps (windows : list Window.t) : M (list string) :=
  '(currentWindows, err) ← invoke CallPlatformGetWindows
                                   (plat_GetWindows (platform_ m));
  match err with
  | Some _ => ret []
  | None =>
      let availableApps : gset string :=
        list_to_set (map Window.AppName currentWindows) in
      ret (validateApps_loop availableApps windows ∅ [])
  end.

(** The loop of [Restore] over the stored windows. *)
Fixpoint Restore_loop (windows : list Window.t) (report : RestoreReport.t)
    : M RestoreReport.t :=
  match windows with
  | [] => ret report
  | w :: rest =>
      err ← invoke (CallRestoreWindow w)
                    (plat_RestoreWindow (platform_ m) w);
      match err with
      | Some e =>
          let report :=
            RestoreReport.set_FailedWindows
              (RestoreReport.FailedWindows report ++ [Window.WindowTitle w])
              report in
          let report :=
            RestoreReport.set_Errors
              (RestoreReport.Errors report
                 ++ [Window.WindowTitle w +:+ ": " +:+ e])
              report in
          Restore_loop rest report
      | None =>
          Restore_loop rest
            (RestoreReport.set_RestoredWindows
               (GoInt.add (RestoreReport.RestoredWindows report) 1) report)
      end
  end.

(** The part of [Restore] after the validation gate. *)
Definition Restore_apply (opts : RestoreOptionsV2.t) (s : Snapshot.t)
    (report : RestoreReport.t) : M (option RestoreReport.t * option error) :=
  if RestoreOptionsV2.DryRun opts then
    let report := RestoreReport.set_Success true report in
    let report := RestoreReport.set_DryRun true report in
    let report :=
      RestoreReport.set_Message "Dry run completed - no changes made" report in
    ret (Some report, None)
  else
    report ← Restore_loop (Snapshot.Windows s) report;
    now ← invoke CallNow (time_Now m);
    let report := RestoreReport.set_EndTime now report in
    let report :=
      RestoreReport.set_Duration
        (time.Sub (RestoreReport.EndTime report) (RestoreReport.StartTime report))
        report in
    let report :=
      RestoreReport.set_Success (0 <? RestoreReport.RestoredWindows report)
                                report in
    let report :=
      if RestoreReport.RestoredWindows report =? RestoreReport.TotalWindows report
      then RestoreReport.set_Message "All windows restored successfully" report
      else RestoreReport.set_Message
             ("Restored " +:+ pretty (RestoreReport.RestoredWindows report)
              +:+ "/" +:+ pretty (RestoreReport.TotalWindows report)
              +:+ " windows")
             report in
    ret (Some report, None).

Definition Restore (snapshotID : string) (opts : RestoreOptionsV2.t)
    : M (option RestoreReport.t * option error) :=
  '(s, err) ← invoke (CallGetSnapshotByID snapshotID)
                      (repo_GetSnapshotByID (repo m) snapshotID);
  match err with
  | Some e => ret (None, Some ("failed to get snapshot: " +:+ e))
  | None =>
  match s with
  | None => ret (None, Some "snapshot not found")
  | Some s =>
  '(windows, err) ← invoke (CallRepoGetWindows snapshotID)
                            (repo_GetWindows (repo m) snapshotID);
  match err with
  | Some e => ret (None, Some ("failed to get windows: " +:+ e))
  | None =>
  let s := Snapshot.set_Windows s windows in
  now ← invoke CallNow (time_Now m);
  let report :=
    RestoreReport.mk snapshotID (GoInt.len (Snapshot.Windows s)) 0 [] [] []
                     false false "" "" now 0 0 in
  if RestoreOptionsV2.ValidateBeforeRestore opts then
    missing ← validateApps (Snapshot.Windows s);
    let report := RestoreReport.set_MissingApps missing report in
    if (0 <? GoInt.len missing) && negb (RestoreOptionsV2.SkipMissingApps opts)
    then
      let report := RestoreReport.set_Success false report in
      let report :=
        RestoreReport.set_Error
          ("missing applications: " +:+ fmt_strings missing) report in
      ret (Some report, Some "cannot restore: missing applications")
    else Restore_apply opts s report
  else Restore_apply opts s report
  end end end.

(** The loops of [Diff] over the keys of [titles2] and of [titles1]. *)
Fixpoint Diff_loop2 (titles1 : gset string) (keys : list string)
    (diff : DiffResult.t) : DiffResult.t :=
  match keys with
  | [] => diff
  | t :: rest =>
      Diff_loop2 titles1 rest
        (if bool_decide (t ∈ titles1) then
           DiffResult.set_CommonWindows
             (GoInt.add (DiffResult.CommonWindows diff) 1) diff
         else
           DiffResult.set_AddedWindows (DiffResult.AddedWindows diff ++ [t]) diff)
  end.

Fixpoint Diff_loop1 (titles2 : gset string) (keys : list string)
    (diff : DiffResult.t) : DiffResult.t :=
  match keys with
  | [] => diff
  | t :: rest =>
      Diff_loop1 titles2 rest
        (if bool_decide (t ∈ titles2) then diff
         else
           DiffResult.set_RemovedWindows
             (DiffResult.RemovedWindows diff ++ [t]) diff)
  end.

(** The part of [Diff] after the snapshots [s1], [s2] and their window
    lists [w1], [w2] have been fetched; [range2] and [range1] are the
    orders in which its two loops visit [titles2] and [titles1]. *)
Definition Diff_windows (range2 range1 : map_range) (id1 id2 : string)
    (s1 s2 : Snapshot.t) (w1 w2 : list Window.t) : DiffResult.t :=
  let diff :=
    DiffResult.mk id1 id2
      (negb (String.eqb (Snapshot.GitBranch s1) (Snapshot.GitBranch s2))
       || negb (String.eqb (Snapshot.GitRepo s1) (Snapshot.GitRepo s2)))
      [] [] 0 in
  let titles1 : gset string := list_to_set (map Window.WindowTitle w1) in
  let titles2 : gset string := list_to_set (map Window.WindowTitle w2) in
  let diff := Diff_loop2 titles1 (range2 titles2) diff in
  Diff_loop1 titles2 (range1 titles1) diff.

(** [Manager.Diff] and [ManagerV2.Diff] have the same body. *)
Definition Diff (range2 range1 : map_range) (id1 id2 : string)
    : M (option DiffResult.t * option error) :=
  '(s1, err) ← invoke (CallGetSnapshotByID id1)
                       (repo_GetSnapshotByID (repo m) id1);
  match err with
  | Some e => ret (None, Some e)
  | None =>
  '(s2, err) ← invoke (CallGetSnapshotByID id2)
                       (repo_GetSnapshotByID (repo m) id2);
  match err with
  | Some e => ret (None, Some e)
  | None =>
  match s1, s2 with
  | Some s1, Some s2 =>
      '(w1, _) ← invoke (CallRepoGetWindows id1)
                         (repo_GetWindows (repo m) id1);
      '(w2, _) ← invoke (CallRepoGetWindows id2)
                         (repo_GetWindows (repo m) id2);
      ret (Some (Diff_windows range2 range1 id1 id2 s1 s2 w1 w2), None)
  | _, _ => ret (None, Some "one or both snapshots not found")
  end end end.

End Manager.

Arguments Repository : clear implicits.
Arguments PlatformAdapter : clear implicits.
Arguments ManagerV2 : clear implicits.

End snapshot.

(** ** An in-memory world on which the manager can be run

    The repository is a table of stored snapshots, the platform a list of
    live windows; [unreachable] lists the titles of the windows that the
    platform fails to restore, and [enumeration_error] makes the
    enumeration of the live windows fail. *)

Module inmemory.
Import core snapshot.

Record world : Type := {
  stored : list (string * (Snapshot.t * list Window.t));
  live : list Window.t;
  enumeration_error : option error;
  unreachable : list string;
  clock : Time;
}.

Definition tick (σ : world) : world :=
  {| stored := stored σ; live := live σ;
     enumeration_error := enumeration_error σ;
     unreachable := unreachable σ; clock := clock σ + 1 |}.

Fixpoint find_stored (id : string)
    (l : list (string * (Snapshot.t * list Window.t)))
    : option (Snapshot.t * list Window.t) :=
  match l with
  | [] => None
  | (k, v) :: rest => if String.eqb k id then Some v else find_stored id rest
  end.

Definition repository : Repository world :=
  {| repo_GetSnapshotByID := fun id σ =>
       ((option_map fst (find_stored id (stored σ)), None), σ);
     repo_GetWindows := fun id σ =>
       (match find_stored id (stored σ) with
        | Some (_, ws) => (ws, None)
        | None => ([], None)
        end, σ) |}.

Definition adapter : PlatformAdapter world :=
  {| plat_GetWindows := fun σ =>
       (match enumeration_error σ with
        | Some e => ([], Some e)
        | None => (live σ, None)
        end, σ);
     plat_RestoreWindow := fun w σ =>
       (if existsb (String.eqb (Window.WindowTitle w)) (unreachable σ)
        then Some "no suitable window found"
        else None, σ) |}.

Definition manager : ManagerV2 world :=
  {| repo := repository;
     platform_ := adapter;
     time_Now := fun σ => (clock σ, tick σ) |}.

Definition window (title app : string) (width height : Z) : Window.t :=
  Window.mk 0 "" app "" title 0 0 width height "normal" 0 0 "".

Definition snapshot_of (id : string) : Snapshot.t :=
  Snapshot.mk id "layout" "" 0 0 "main" "/repo" false "" [] [].

End inmemory.

(** * Vocabulary of the properties *)

(** ** Best matches and assignments *)

Section MatcherVocabulary.
Import core platform WindowMatcher.
Context {go : GoStrings}.
Variable m : WindowMatcher.t.

Section BestMatchVocabulary.
Variable target : Window.t.

(** [best] is the first candidate of [l] with the maximal score, and this
    score reaches [MinimumScore]. *)
Definition first_maximum (l : list Window.t) (best : MatchResult.t) : Prop :=
  exists i : nat,
    l !! i = Some (MatchResult.Window best)
    /\ calculateScore m target (MatchResult.Window best) = Ok (MatchResult.Score best)
    /\ MinimumScore m <= MatchResult.Score best
    /\ (forall (j : nat) c s, l !! j = Some c -> calculateScore m target c = Ok s ->
          s <= MatchResult.Score best)
    /\ (forall (j : nat) c s, (j < i)%nat -> l !! j = Some c ->
          calculateScore m target c = Ok s -> s < MatchResult.Score best).

(** No candidate of [l] reaches [MinimumScore]. *)
Definition none_acceptable (l : list Window.t) : Prop :=
  forall (j : nat) c s, l !! j = Some c -> calculateScore m target c = Ok s ->
    s < MinimumScore m.

Definition best_of (l : list Window.t) (r : option MatchResult.t) : Prop :=
  match r with
  | Some best => first_maximum l best
  | None => none_acceptable l
  end.

End BestMatchVocabulary.

(** The update of [bestMatch] by one iteration of the loop. *)
Definition keep_best (bestMatch : option MatchResult.t) (candidate : Window.t)
    (score : Z) : option MatchResult.t :=
  if MinimumScore m <=? score then
    match bestMatch with
    | None => Some (MatchResult.mk candidate score)
    | Some best =>
        if MatchResult.Score best <? score
        then Some (MatchResult.mk candidate score)
        else bestMatch
    end
  else bestMatch.

(** Two windows that [removeWindow] does not tell apart. *)
Definition same_title_app (w1 w2 : Window.t) : Prop :=
  Window.WindowTitle w1 = Window.WindowTitle w2
  /\ Window.AppName w1 = Window.AppName w2.

(** The identity of a candidate in the words of the specification. *)
Definition title_app_width (w : Window.t) : string * string * Z :=
  (Window.WindowTitle w, Window.AppName w, Window.Width w).

(** The removal in the words of the specification: only the candidate with
    the title, the application and the width of [toRemove] leaves the pool. *)
Definition removeWindow_by_title_app_width (windows : list Window.t)
    (toRemove : Window.t) : list Window.t :=
  filter (fun w => title_app_width w ≠ title_app_width toRemove) windows.

(** [MatchWindows] with the removal of the specification. *)
Fixpoint MatchWindows_by_title_app_width_loop
    (targets availableCandidates : list Window.t)
    (results : gmap string MatchResult.t) : outcome (gmap string MatchResult.t) :=
  match targets with
  | [] => Ok results
  | target :: rest =>
      match_ ← FindBestMatch m target availableCandidates;
      match match_ with
      | Some r =>
          MatchWindows_by_title_app_width_loop rest
            (removeWindow_by_title_app_width availableCandidates
                                             (MatchResult.Window r))
            (<[Window.WindowTitle target := r]> results)
      | None =>
          MatchWindows_by_title_app_width_loop rest availableCandidates results
      end
  end.

Definition MatchWindows_by_title_app_width (targets candidates : list Window.t)
    : outcome (gmap string MatchResult.t) :=
  MatchWindows_by_title_app_width_loop targets candidates ∅.

(** The match recorded under a target title, [None] when there is none. *)
Definition recorded (results : outcome (gmap string MatchResult.t))
    (title : string) : outcome (option MatchResult.t) :=
  r ← results; Ok (r !! title).

(** What the loop of [MatchWindows] maintains about the pool [available]
    and the matches recorded so far. *)
Record assignment_invariant (candidates available : list Window.t)
    (results : gmap string MatchResult.t) : Prop := {
  pool_excludes_matched :
    forall k r w, results !! k = Some r -> w ∈ available ->
      ~ same_title_app w (MatchResult.Window r);
  matches_differ :
    forall k1 k2 r1 r2, k1 <> k2 -> results !! k1 = Some r1 ->
      results !! k2 = Some r2 ->
      ~ same_title_app (MatchResult.Window r1) (MatchResult.Window r2);
  matches_are_candidates :
    forall k r, results !! k = Some r -> MatchResult.Window r ∈ candidates;
  pool_of_candidates :
    forall w, w ∈ available -> w ∈ candidates;
}.

End MatcherVocabulary.

(** ** Numbers *)

(** A number other than zero: finite or infinite. *)
Definition is_number_not_zero (f : Float64.t) : Prop :=
  match f with
  | S754_finite _ _ _ | S754_infinity _ => True
  | S754_zero _ | S754_nan => False
  end.

(** ** Restores *)

Section RestoreVocabulary.
Import core snapshot.
Context {World : Type}.
Variable m : ManagerV2 World.

(** The answers of the platform to [RestoreWindow] on the windows [ws],
    called in this order from the world [σ], and the world they leave. *)
Fixpoint restore_answers (ws : list Window.t) (σ : World)
    : list (option error) * World :=
  match ws with
  | [] => ([], σ)
  | w :: rest =>
      let '(answer, σ') := plat_RestoreWindow (platform_ m) w σ in
      let '(answers, σ'') := restore_answers rest σ' in
      (answer :: answers, σ'')
  end.

(** The number of windows restored, the titles of those that failed and
    the error lines of the report, from the answers of the platform. *)
Fixpoint restored_count (answers : list (option error)) : Z :=
  match answers with
  | [] => 0
  | None :: rest => 1 + restored_count rest
  | Some _ :: rest => restored_count rest
  end.

Fixpoint failed_titles (ws : list Window.t) (answers : list (option error))
    : list string :=
  match ws, answers with
  | w :: ws', Some _ :: rest => Window.WindowTitle w :: failed_titles ws' rest
  | _ :: ws', None :: rest => failed_titles ws' rest
  | _, _ => []
  end.

Fixpoint error_lines (ws : list Window.t) (answers : list (option error))
    : list string :=
  match ws, answers with
  | w :: ws', Some e :: rest =>
      (Window.WindowTitle w +:+ ": " +:+ e) :: error_lines ws' rest
  | _ :: ws', None :: rest => error_lines ws' rest
  | _, _ => []
  end.

(** The list that [validateApps] returns when the platform answers
    [(currentWindows, err)] to [GetWindows]. *)
Definition missing_apps (currentWindows : list Window.t) (err : option error)
    (windows : list Window.t) : list string :=
  match err with
  | Some _ => []
  | None =>
      validateApps_loop (list_to_set (map Window.AppName currentWindows))
                        windows ∅ []
  end.

(** The validation step of [Restore] lets the restore go on, and takes the
    world from [σ] to [σ']: validation is off, or the platform is asked for
    the live windows and no application is missing or missing ones are
    skipped. *)
Definition validation_passes (opts : RestoreOptionsV2.t) (ws : list Window.t)
    (σ σ' : World) : Prop :=
  if RestoreOptionsV2.ValidateBeforeRestore opts then
    exists currentWindows err,
      plat_GetWindows (platform_ m) σ = ((currentWindows, err), σ')
      /\ (RestoreOptionsV2.SkipMissingApps opts = true
          \/ missing_apps currentWindows err ws = [])
  else σ' = σ.

(** The calls of the validation step. *)
Definition validation_calls (opts : RestoreOptionsV2.t) : list call :=
  if RestoreOptionsV2.ValidateBeforeRestore opts
  then [CallPlatformGetWindows] else [].

(** The report with which [Restore] starts. *)
Definition initial_report (snapshotID : string) (ws : list Window.t) (now : Time)
    : RestoreReport.t :=
  RestoreReport.mk snapshotID (GoInt.len ws) 0 [] [] [] false false "" "" now 0 0.

(** The report that the loop of [Restore] builds from the answers. *)
Fixpoint loop_report (ws : list Window.t) (answers : list (option error))
    (report : RestoreReport.t) : RestoreReport.t :=
  match ws, answers with
  | w :: ws', Some e :: rest =>
      loop_report ws' rest
        (RestoreReport.set_Errors
           (RestoreReport.Errors report ++ [Window.WindowTitle w +:+ ": " +:+ e])
           (RestoreReport.set_FailedWindows
              (RestoreReport.FailedWindows report ++ [Window.WindowTitle w])
              report))
  | _ :: ws', None :: rest =>
      loop_report ws' rest
        (RestoreReport.set_RestoredWindows
           (GoInt.add (RestoreReport.RestoredWindows report) 1) report)
  | _, _ => report
  end.

End RestoreVocabulary.

(** ** Diffs *)

(** The set of titles of a window list. *)
Definition titles (ws : list core.Window.t) : gset string :=
  list_to_set (map core.Window.WindowTitle ws).

(** ** Scenarios on the in-memory world *)

Module scenario.
Import core snapshot inmemory.

(** Three stored windows; the platform cannot restore the second one, and
    the application of the second one has no live window. *)
Definition windows : list Window.t :=
  [window "one" "code" 800 600; window "two" "term" 800 600;
   window "three" "code" 800 600].

Definition start : world :=
  {| stored := [("s1", (snapshot_of "s1", windows))];
     live := [window "editor" "code" 800 600];
     enumeration_error := None;
     unreachable := ["two"];
     clock := 5 |}.

(** The same world when the enumeration of the live windows fails. *)
Definition start_blind : world :=
  {| stored := stored start; live := live start;
     enumeration_error := Some "EnumWindows failed";
     unreachable := unreachable start; clock := clock start |}.

End scenario.

(** ** Facts about the matches that [MatchWindows] records *)

Section AssignmentFacts.
Import core platform WindowMatcher.
Context {go : GoStrings}.
Variable m : WindowMatcher.t.

(** What the loop of [MatchWindows] maintains about the scores and the
    number of the matches recorded after the targets [done]. *)
Record assignment_facts (done candidates available : list Window.t)
    (results : gmap string MatchResult.t) : Prop := {
  recorded_scores :
    forall k r, results !! k = Some r ->
      MinimumScore m <= MatchResult.Score r
      /\ exists target, target ∈ done /\ Window.WindowTitle target = k
           /\ calculateScore m target (MatchResult.Window r)
              = Ok (MatchResult.Score r);
  recorded_at_most_targets : (size results <= length done)%nat;
  recorded_at_most_pool :
    (size results + length available <= length candidates)%nat;
}.

End AssignmentFacts.

(** * More of the code: components, sanitizer, capture, adapters, store *)

(** ** Package [core]: the component records of a snapshot *)

Module components.
Import core.

Module Terminal.
Record t : Type := mk {
  ID : Z;
  SnapshotID : string;
  TerminalApp : string;
  WorkingDirectory : string;
  ActiveCommand : string;
  ShellType : string;
  (** A [map[string]string]; [None] is the nil map. *)
  EnvVars : option (gmap string string);
}.

Definition set_EnvVars (v : option (gmap string string)) (x : t) : t :=
  mk (ID x) (SnapshotID x) (TerminalApp x) (WorkingDirectory x)
     (ActiveCommand x) (ShellType x) v.
Definition set_WorkingDirectory (v : string) (x : t) : t :=
  mk (ID x) (SnapshotID x) (TerminalApp x) v (ActiveCommand x) (ShellType x)
     (EnvVars x).
End Terminal.

Module BrowserTab.
Record t : Type := mk {
  ID : Z;
  SnapshotID : string;
  BrowserName : string;
  URL : string;
  Title : string;
  TabIndex : Z;
  WindowIndex : Z;
  IsPinned : bool;
}.

Definition set_URL (v : string) (x : t) : t :=
  mk (ID x) (SnapshotID x) (BrowserName x) v (Title x) (TabIndex x)
     (WindowIndex x) (IsPinned x).
End BrowserTab.

Module Process.
Record t : Type := mk {
  ID : Z;
  SnapshotID : string;
  ProcessName : string;
  Command : string;
  WorkingDirectory : string;
  Pid : Z;
  AutoRestart : bool;
}.
End Process.

Module IDEFile.
Record t : Type := mk {
  ID : Z;
  SnapshotID : string;
  IDEName : string;
  FilePath : string;
  CursorLine : Z;
  CursorColumn : Z;
  IsActive : bool;
}.

Definition set_FilePath (v : string) (x : t) : t :=
  mk (ID x) (SnapshotID x) (IDEName x) v (CursorLine x) (CursorColumn x)
     (IsActive x).
End IDEFile.

(** [core.Snapshot] with all its lists: [base] holds the fields and the
    windows, the other fields the component lists. *)
Module FullSnapshot.
Record t : Type := mk {
  base : Snapshot.t;
  Terminals : list Terminal.t;
  BrowserTabs : list BrowserTab.t;
  Processes : list Process.t;
  IDEFiles : list IDEFile.t;
}.

Definition Windows (s : t) : list Window.t := Snapshot.Windows (base s).
Definition ID (s : t) : string := Snapshot.ID (base s).

Definition set_base (v : Snapshot.t) (s : t) : t :=
  mk v (Terminals s) (BrowserTabs s) (Processes s) (IDEFiles s).
Definition set_Windows (v : list Window.t) (s : t) : t :=
  set_base (Snapshot.set_Windows (base s) v) s.
Definition set_Terminals (v : list Terminal.t) (s : t) : t :=
  mk (base s) v (BrowserTabs s) (Processes s) (IDEFiles s).
Definition set_BrowserTabs (v : list BrowserTab.t) (s : t) : t :=
  mk (base s) (Terminals s) v (Processes s) (IDEFiles s).
Definition set_IDEFiles (v : list IDEFile.t) (s : t) : t :=
  mk (base s) (Terminals s) (BrowserTabs s) (Processes s) v.
Definition set_GitRepo (v : string) (s : t) : t :=
  let b := base s in
  set_base (Snapshot.mk (Snapshot.ID b) (Snapshot.Name b) (Snapshot.Description b)
              (Snapshot.CreatedAt b) (Snapshot.UpdatedAt b) (Snapshot.GitBranch b)
              v (Snapshot.GitDirty b) (Snapshot.GitHeadHash b) (Snapshot.Tags b)
              (Snapshot.Windows b)) s.
End FullSnapshot.

(** Assignments to the title and the path of a window. *)
Definition Window_set_WindowTitle (v : string) (w : Window.t) : Window.t :=
  Window.mk (Window.ID w) (Window.SnapshotID w) (Window.AppName w)
    (Window.AppPath w) v (Window.X w) (Window.Y w) (Window.Width w)
    (Window.Height w) (Window.State w) (Window.Workspace w) (Window.ZIndex w)
    (Window.LaunchArgs w).
Definition Window_set_AppPath (v : string) (w : Window.t) : Window.t :=
  Window.mk (Window.ID w) (Window.SnapshotID w) (Window.AppName w)
    v (Window.WindowTitle w) (Window.X w) (Window.Y w) (Window.Width w)
    (Window.Height w) (Window.State w) (Window.Workspace w) (Window.ZIndex w)
    (Window.LaunchArgs w).

End components.

(** ** Package [sanitize]

    The sanitizer calls [strings.EqualFold], [regexp]'s [ReplaceAllString]
    on compiled patterns and the parser of [net/url]. They belong to Go's
    library, so the sanitizer is embedded over any implementation of them;
    a pattern is represented by its source text. *)

Class GoText : Type := {
  EqualFold : string -> string -> bool;
  (** [regexp.MustCompile(pattern).ReplaceAllString(src, repl)] *)
  ReplaceAllString : string -> string -> string -> string;
  url_URL : Type;
  url_Values : Type;
  (** [url.Parse]; [None] when it returns an error. *)
  url_Parse : string -> option url_URL;
  url_Query : url_URL -> url_Values;
  url_Has : url_Values -> string -> bool;
  url_Set : url_Values -> string -> string -> url_Values;
  url_Encode : url_Values -> string;
  url_set_RawQuery : url_URL -> string -> url_URL;
  url_String : url_URL -> string;
}.

Module sanitize.
Import core components.

Module SanitizationOptions.
Record t : Type := mk {
  MaskURLTokens : bool;
  FilterEnvVars : list string;
  RedactWindowTitles : bool;
  MaskPaths : bool;
}.
End SanitizationOptions.
Import SanitizationOptions.

Definition DefaultOptions : SanitizationOptions.t :=
  {| MaskURLTokens := true;
     FilterEnvVars :=
       ["API_KEY"; "APIKEY"; "SECRET"; "PASSWORD"; "PASSWD";
        "TOKEN"; "AUTH"; "CREDENTIALS"; "AWS_SECRET_ACCESS_KEY";
        "GITHUB_TOKEN"; "SLACK_TOKEN"; "OPENAI_API_KEY"];
     RedactWindowTitles := false;
     MaskPaths := true |}.

(** The order in which a [range] loop visits the keys of an environment. *)
Definition env_range : Type := gmap string string -> list string.

Definition env_range_ok (r : env_range) : Prop :=
  forall env : gmap string string, r env ≡ₚ elements (dom env).

Record Sanitizer : Type := { opts : SanitizationOptions.t }.

Definition NewSanitizer (o : SanitizationOptions.t) : Sanitizer := {| opts := o |}.

Definition redacted : string := "***REDACTED***".

Section Sanitizer.
Context {go : GoStrings} {text : GoText}.
Variable range : env_range.
Variable s : Sanitizer.

Definition containsInsensitive (str substr : string) : bool :=
  Contains (ToLower str) (ToLower substr).

Definition maskURLRegex (rawURL : string) : string :=
  ReplaceAllString
    "([?&](token|key|secret|apikey|api_key|access_token|auth|password|passwd|session|jwt)=)[^&\s]+"
    rawURL "${1}***REDACTED***".

Definition sensitiveParams : list string :=
  ["token"; "key"; "secret"; "apikey"; "api_key"; "access_token"; "auth";
   "password"; "passwd"; "credentials"; "session"; "jwt"].

Definition maskSensitiveURL (rawURL : string) : string :=
  if String.eqb rawURL "" then rawURL
  else
    match url_Parse rawURL with
    | None => maskURLRegex rawURL
    | Some parsed =>
        let query :=
          fold_left (fun query param =>
                       if url_Has query param then url_Set query param redacted
                       else query)
                    sensitiveParams (url_Query parsed) in
        url_String (url_set_RawQuery parsed (url_Encode query))
    end.

Definition sanitizeBrowserTabs (tabs : list BrowserTab.t) : list BrowserTab.t :=
  map (fun tab => BrowserTab.set_URL (maskSensitiveURL (BrowserTab.URL tab)) tab)
      tabs.

(** The body of the innermost loop of [sanitizeTerminals]. *)
Definition redact_key (sensitiveKey : string) (env : gmap string string)
    (key : string) : gmap string string :=
  let env := if EqualFold key sensitiveKey then <[key := redacted]> env else env in
  if containsInsensitive key sensitiveKey then <[key := redacted]> env else env.

(** The two loops of [sanitizeTerminals] over the sensitive keys and over
    the keys of the environment of one terminal. *)
Definition sanitize_env (env : gmap string string) : gmap string string :=
  fold_left (fun env sensitiveKey =>
               fold_left (redact_key sensitiveKey) (range env) env)
            (FilterEnvVars (opts s)) env.

Definition sanitizeTerminals (terminals : list Terminal.t) : list Terminal.t :=
  map (fun t =>
         match Terminal.EnvVars t with
         | None => t
         | Some env => Terminal.set_EnvVars (Some (sanitize_env env)) t
         end)
      terminals.

Definition maskSensitiveTitle (title : string) : string :=
  let result := title in
  let result :=
    ReplaceAllString "[a-zA-Z0-9._%+-]+@[a-zA-Z0-9.-]+\.[a-zA-Z]{2,}"
                     result "***EMAIL***" in
  let result :=
    ReplaceAllString "\b\d{1,3}\.\d{1,3}\.\d{1,3}\.\d{1,3}\b" result "***IP***" in
  ReplaceAllString "\b[a-fA-F0-9]{32,}\b" result "***TOKEN***".

Definition sanitizeWindows (windows : list Window.t) : list Window.t :=
  map (fun w => Window_set_WindowTitle (maskSensitiveTitle (Window.WindowTitle w)) w)
      windows.

Definition userPattern : string := "(?i)(C:\\Users\\|/home/|/Users/)([^\\\/]+)".

Definition maskUser (path : string) : string :=
  ReplaceAllString userPattern path "${1}***USER***".

Definition sanitizePaths (snap : FullSnapshot.t) : FullSnapshot.t :=
  let snap :=
    FullSnapshot.set_Windows
      (map (fun w => Window_set_AppPath (maskUser (Window.AppPath w)) w)
           (FullSnapshot.Windows snap)) snap in
  let snap :=
    FullSnapshot.set_Terminals
      (map (fun t => Terminal.set_WorkingDirectory
                       (maskUser (Terminal.WorkingDirectory t)) t)
           (FullSnapshot.Terminals snap)) snap in
  let snap :=
    FullSnapshot.set_IDEFiles
      (map (fun f => IDEFile.set_FilePath (maskUser (IDEFile.FilePath f)) f)
           (FullSnapshot.IDEFiles snap)) snap in
  FullSnapshot.set_GitRepo (maskUser (Snapshot.GitRepo (FullSnapshot.base snap)))
                           snap.

Definition SanitizeSnapshot (snap : FullSnapshot.t) : FullSnapshot.t :=
  let snap :=
    if MaskURLTokens (opts s)
    then FullSnapshot.set_BrowserTabs
           (sanitizeBrowserTabs (FullSnapshot.BrowserTabs snap)) snap
    else snap in
  let snap :=
    if 0 <? GoInt.len (FilterEnvVars (opts s))
    then FullSnapshot.set_Terminals
           (sanitizeTerminals (FullSnapshot.Terminals snap)) snap
    else snap in
  let snap :=
    if RedactWindowTitles (opts s)
    then FullSnapshot.set_Windows
           (sanitizeWindows (FullSnapshot.Windows snap)) snap
    else snap in
  if MaskPaths (opts s) then sanitizePaths snap else snap.

End Sanitizer.

End sanitize.

(** ** Vocabulary of the sanitizer's properties *)

Section SanitizerVocabulary.
Import core components sanitize.
Context {go : GoStrings} {text : GoText}.
Variable s : Sanitizer.

(** The key of an environment variable matches a sensitive key. *)
Definition sensitive_key (key : string) : bool :=
  existsb (fun sensitiveKey =>
             EqualFold key sensitiveKey || containsInsensitive key sensitiveKey)
          (SanitizationOptions.FilterEnvVars (opts s)).

(** What [SanitizeSnapshot] makes of one window. *)
Definition sanitized_window (w : Window.t) : Window.t :=
  let w :=
    if SanitizationOptions.RedactWindowTitles (opts s)
    then Window_set_WindowTitle (maskSensitiveTitle (Window.WindowTitle w)) w
    else w in
  if SanitizationOptions.MaskPaths (opts s)
  then Window_set_AppPath (maskUser (Window.AppPath w)) w
  else w.

End SanitizerVocabulary.

(** ** Plain text

    Go's library on plain ASCII text, on which the sanitizer can be run:
    [strings.EqualFold] compares the lower-case forms, and the texts have
    no query part and nothing that a pattern of the sanitizer matches, so
    that parsing and printing a URL and replacing the matches of a pattern
    give the text back. *)

Definition plain_text : GoText :=
  {| EqualFold := fun a b => String.eqb (ascii.ToLower a) (ascii.ToLower b);
     ReplaceAllString := fun _ src _ => src;
     url_URL := string;
     url_Values := unit;
     url_Parse := fun raw => Some raw;
     url_Query := fun _ => tt;
     url_Has := fun _ _ => false;
     url_Set := fun q _ _ => q;
     url_Encode := fun _ => "";
     url_set_RawQuery := fun u _ => u;
     url_String := fun u => u |}.

(** The keys of an environment in the order of [elements]. *)
Definition keys_in_order : sanitize.env_range :=
  fun env => elements (dom env).

Module shells.
Import core components.

Definition environment : gmap string string :=
  <["GITHUB_TOKEN" := "ghp_1"]>
    (<["my_secret_path" := "/srv/key"]> (<["EDITOR" := "vi"]> ∅)).

(** A shell with an environment and one without. *)
Definition terminals : list Terminal.t :=
  [Terminal.mk 0 "" "pwsh.exe" "/srv/app" "make" "powershell" (Some environment);
   Terminal.mk 0 "" "cmd.exe" "" "dir" "cmd" None].

End shells.

(** ** Computations that record their calls

    A computation over a world of type [World] that appends to a list the
    calls it makes to its collaborators. *)

Module traced.
Section Traced.
Context {E World : Type}.

Definition T (A : Type) : Type :=
  World * list E -> A * (World * list E).

Definition T_ret : MRet T := fun _ a s => (a, s).
Definition T_bind : MBind T := fun _ _ k c s =>
  let '(a, s') := c s in k a s'.

Definition pure {A : Type} (a : A) : T A := T_ret A a.

(** A call that answers. *)
Definition call {A : Type} (e : E) (op : World -> A * World) : T A :=
  fun s => let '(a, σ') := op (fst s) in (a, (σ', snd s ++ [e])).

(** A call without answer. *)
Definition tell (e : E) (op : World -> World) : T unit :=
  fun s => (tt, (op (fst s), snd s ++ [e])).

End Traced.
Arguments T : clear implicits.
End traced.

(** ** Package [git] *)

Module git.

Record Context : Type := {
  RepoPath : string;
  Branch : string;
  IsDirty : bool;
  HeadHash : string;
}.

End git.

(** ** Package [snapshot]: capture, and the first manager

    The managers are embedded over the whole [core.Repository] and the
    methods of [core.PlatformAdapter] that they call; every call to a
    collaborator, to the clock, to the identifier generator and to the
    standard output is recorded with its arguments. *)

Module capture.
Import core components.

Definition error : Type := string.

Module SnapshotFilter.
Record t : Type := mk {
  Project : string;
  Branch : string;
  Tags : list string;
  Limit : Z;
  Offset : Z;
}.
End SnapshotFilter.

Inductive event : Type :=
| EvUUID
| EvNow
| EvGetWindows
| EvGetTerminals
| EvDetectContext (path : string)
| EvGetBrowserTabs
| EvGetIDEFiles
| EvCreateSnapshot (s : FullSnapshot.t)
| EvSaveWindows (snapshotID : string) (windows : list Window.t)
| EvSaveTerminals (snapshotID : string) (terminals : list Terminal.t)
| EvSaveBrowserTabs (snapshotID : string) (tabs : list BrowserTab.t)
| EvSaveIDEFiles (snapshotID : string) (files : list IDEFile.t)
| EvGetSnapshotByID (id : string)
| EvRepoGetWindows (snapshotID : string)
| EvListSnapshots (filter : SnapshotFilter.t)
| EvDeleteSnapshot (id : string)
| EvRestoreWindow (window : Window.t)
| EvPrintf (text : string).

(** A call that writes to the repository. *)
Definition is_write (e : event) : bool :=
  match e with
  | EvCreateSnapshot _ | EvSaveWindows _ _ | EvSaveTerminals _ _
  | EvSaveBrowserTabs _ _ | EvSaveIDEFiles _ _ | EvDeleteSnapshot _ => true
  | _ => false
  end.

Module Repository.
Record t (World : Type) : Type := mk {
  CreateSnapshot : FullSnapshot.t -> World -> option error * World;
  GetSnapshotByID : string -> World -> (option FullSnapshot.t * option error) * World;
  ListSnapshots :
    SnapshotFilter.t -> World -> (list FullSnapshot.t * option error) * World;
  DeleteSnapshot : string -> World -> option error * World;
  SaveWindows : string -> list Window.t -> World -> option error * World;
  SaveTerminals : string -> list Terminal.t -> World -> option error * World;
  SaveBrowserTabs : string -> list BrowserTab.t -> World -> option error * World;
  SaveIDEFiles : string -> list IDEFile.t -> World -> option error * World;
  GetWindows : string -> World -> (list Window.t * option error) * World;
}.
Arguments CreateSnapshot {World}.
Arguments GetSnapshotByID {World}.
Arguments ListSnapshots {World}.
Arguments DeleteSnapshot {World}.
Arguments SaveWindows {World}.
Arguments SaveTerminals {World}.
Arguments SaveBrowserTabs {World}.
Arguments SaveIDEFiles {World}.
Arguments GetWindows {World}.
End Repository.

Module PlatformAdapter.
Record t (World : Type) : Type := mk {
  GetWindows : World -> (list Window.t * option error) * World;
  RestoreWindow : Window.t -> World -> option error * World;
  GetTerminals : World -> (list Terminal.t * option error) * World;
  GetBrowserTabs : World -> (list BrowserTab.t * option error) * World;
  GetIDEFiles : World -> (list IDEFile.t * option error) * World;
}.
Arguments GetWindows {World}.
Arguments RestoreWindow {World}.
Arguments GetTerminals {World}.
Arguments GetBrowserTabs {World}.
Arguments GetIDEFiles {World}.
End PlatformAdapter.

(** What the managers use besides their collaborators: [uuid.New],
    [time.Now], the git detector and [fmt.Printf]. *)
Module Host.
Record t (World : Type) : Type := mk {
  uuid_New : World -> string * World;
  time_Now : World -> Time * World;
  DetectContext : string -> World -> (option git.Context * option error) * World;
  Printf : string -> World -> World;
}.
Arguments uuid_New {World}.
Arguments time_Now {World}.
Arguments DetectContext {World}.
Arguments Printf {World}.
End Host.

Module CaptureOptionsV2.
Record t : Type := mk {
  Name : string;
  Description : string;
  Tags : list string;
  IncludeBrowsable : bool;
  IncludeTerminals : bool;
  Sanitize : bool;
}.
End CaptureOptionsV2.

Module CaptureOptions.
Record t : Type := mk {
  Name : string;
  Description : string;
  Tags : list string;
  IncludeBrowsable : bool;
  IncludeTerminals : bool;
}.
End CaptureOptions.

Section Managers.
Context {go : GoStrings} {text : GoText}.
Context {World : Type}.
#[local] Existing Instances traced.T_ret traced.T_bind.

(** [Manager] and [ManagerV2]; [env_order] is the order in which the
    sanitizer visits the keys of an environment. *)
Record Manager : Type := {
  repo : Repository.t World;
  platform_ : PlatformAdapter.t World;
  host : Host.t World;
}.

Record ManagerV2 : Type := {
  v2 : Manager;
  sanitizer : sanitize.Sanitizer;
  env_order : sanitize.env_range;
}.

Definition C : Type -> Type := traced.T event World.

Definition pure {A : Type} (a : A) : C A := traced.pure a.
Definition call {A : Type} (e : event) (op : World -> A * World) : C A :=
  traced.call e op.
Definition print (line : string) (printf : string -> World -> World) : C unit :=
  traced.tell (EvPrintf line) (printf line).

(** The snapshot with which a capture starts. *)
Definition new_snapshot (id name description : string) (tags : list string)
    (created updated : Time) : FullSnapshot.t :=
  FullSnapshot.mk
    (Snapshot.mk id name description created updated "" "" false "" tags [])
    [] [] [] [].

Definition set_git (ctx : git.Context) (s : FullSnapshot.t) : FullSnapshot.t :=
  let b := FullSnapshot.base s in
  FullSnapshot.set_base
    (Snapshot.mk (Snapshot.ID b) (Snapshot.Name b) (Snapshot.Description b)
       (Snapshot.CreatedAt b) (Snapshot.UpdatedAt b) (git.Branch ctx)
       (git.RepoPath ctx) (git.IsDirty ctx) (git.HeadHash ctx) (Snapshot.Tags b)
       (Snapshot.Windows b)) s.

(** *** [ManagerV2.Capture] *)

(** Steps 1 to 5 of [ManagerV2.Capture]: the snapshot gathered from the
    platform, or the error that ends the capture. *)
Definition Capture_gather (m : ManagerV2) (opts : CaptureOptionsV2.t)
    : C (FullSnapshot.t + error) :=
  id ← call EvUUID (Host.uuid_New (host (v2 m)));
  created ← call EvNow (Host.time_Now (host (v2 m)));
  updated ← call EvNow (Host.time_Now (host (v2 m)));
  let s := new_snapshot id (CaptureOptionsV2.Name opts)
             (CaptureOptionsV2.Description opts) (CaptureOptionsV2.Tags opts)
             created updated in
  '(windows, err) ← call EvGetWindows (PlatformAdapter.GetWindows (platform_ (v2 m)));
  match err with
  | Some e => pure (inr ("failed to capture windows: " +:+ e))
  | None =>
  let s := FullSnapshot.set_Windows windows s in
  r ← (if CaptureOptionsV2.IncludeTerminals opts then
         '(terminals, err) ← call EvGetTerminals
                               (PlatformAdapter.GetTerminals (platform_ (v2 m)));
         match err with
         | Some e => pure (inr ("failed to capture terminals: " +:+ e))
         | None => pure (inl (FullSnapshot.set_Terminals terminals s))
         end
       else pure (inl s));
  match r with
  | inr e => pure (inr e)
  | inl s =>
  '(gitCtx, err) ← call (EvDetectContext "") (Host.DetectContext (host (v2 m)) "");
  let s :=
    match err, gitCtx with
    | None, Some ctx => set_git ctx s
    | _, _ => s
    end in
  s ← (if CaptureOptionsV2.IncludeBrowsable opts then
         '(browsers, err) ← call EvGetBrowserTabs
                              (PlatformAdapter.GetBrowserTabs (platform_ (v2 m)));
         match err with
         | None =>
             if 0 <? GoInt.len browsers
             then pure (FullSnapshot.set_BrowserTabs browsers s) else pure s
         | Some _ => pure s
         end
       else pure s);
  '(ideFiles, err) ← call EvGetIDEFiles
                       (PlatformAdapter.GetIDEFiles (platform_ (v2 m)));
  match err with
  | None =>
      if 0 <? GoInt.len ideFiles
      then pure (inl (FullSnapshot.set_IDEFiles ideFiles s)) else pure (inl s)
  | Some _ => pure (inl s)
  end
  end end.

(** One of the four conditional saves of step 7. *)
Definition save_step {A : Type} (items : list A) (wrap : string)
    (ev : event) (op : World -> option error * World)
    (next : C (option error)) : C (option error) :=
  if 0 <? GoInt.len items then
    err ← call ev op;
    match err with
    | Some e => pure (Some (wrap +:+ e))
    | None => next
    end
  else next.

(** Step 7 of [ManagerV2.Capture]: the writes to the repository. *)
Definition Capture_persist (r : Repository.t World) (s : FullSnapshot.t)
    : C (option error) :=
  err ← call (EvCreateSnapshot s) (Repository.CreateSnapshot r s);
  match err with
  | Some e => pure (Some ("failed to save snapshot metadata: " +:+ e))
  | None =>
      save_step (FullSnapshot.Windows s) "failed to save windows: "
        (EvSaveWindows (FullSnapshot.ID s) (FullSnapshot.Windows s))
        (Repository.SaveWindows r (FullSnapshot.ID s) (FullSnapshot.Windows s))
      (save_step (FullSnapshot.Terminals s) "failed to save terminals: "
        (EvSaveTerminals (FullSnapshot.ID s) (FullSnapshot.Terminals s))
        (Repository.SaveTerminals r (FullSnapshot.ID s) (FullSnapshot.Terminals s))
      (save_step (FullSnapshot.BrowserTabs s) "failed to save browser tabs: "
        (EvSaveBrowserTabs (FullSnapshot.ID s) (FullSnapshot.BrowserTabs s))
        (Repository.SaveBrowserTabs r (FullSnapshot.ID s)
           (FullSnapshot.BrowserTabs s))
      (save_step (FullSnapshot.IDEFiles s) "failed to save ide files: "
        (EvSaveIDEFiles (FullSnapshot.ID s) (FullSnapshot.IDEFiles s))
        (Repository.SaveIDEFiles r (FullSnapshot.ID s) (FullSnapshot.IDEFiles s))
      (pure None))))
  end.

Definition Capture (m : ManagerV2) (opts : CaptureOptionsV2.t)
    : C (option FullSnapshot.t * option error) :=
  gathered ← Capture_gather m opts;
  match gathered with
  | inr e => pure (None, Some e)
  | inl s =>
      let s :=
        if CaptureOptionsV2.Sanitize opts
        then sanitize.SanitizeSnapshot (env_order m) (sanitizer m) s
        else s in
      err ← Capture_persist (repo (v2 m)) s;
      match err with
      | Some e => pure (None, Some e)
      | None => pure (Some s, None)
      end
  end.

(** *** [Manager.Capture] *)

(** The part of [Manager.Capture] after the metadata are saved: windows
    and terminals are saved, then tabs and files are enumerated and
    saved. *)
Definition Capture_v1_files (m : Manager) (s : FullSnapshot.t)
    : C (option FullSnapshot.t * option error) :=
  '(ideFiles, err) ← call EvGetIDEFiles (PlatformAdapter.GetIDEFiles (platform_ m));
  match err with
  | None =>
      if 0 <? GoInt.len ideFiles then
        let s := FullSnapshot.set_IDEFiles ideFiles s in
        err ← call (EvSaveIDEFiles (FullSnapshot.ID s) (FullSnapshot.IDEFiles s))
                   (Repository.SaveIDEFiles (repo m) (FullSnapshot.ID s)
                      (FullSnapshot.IDEFiles s));
        match err with
        | Some e => pure (None, Some ("failed to save ide files: " +:+ e))
        | None => pure (Some s, None)
        end
      else pure (Some s, None)
  | Some _ => pure (Some s, None)
  end.

Definition Capture_v1_tabs (m : Manager) (opts : CaptureOptions.t)
    (s : FullSnapshot.t) : C (option FullSnapshot.t * option error) :=
  if CaptureOptions.IncludeBrowsable opts then
    '(browsers, err) ← call EvGetBrowserTabs
                         (PlatformAdapter.GetBrowserTabs (platform_ m));
    match err with
    | None =>
        if 0 <? GoInt.len browsers then
          let s := FullSnapshot.set_BrowserTabs browsers s in
          err ← call (EvSaveBrowserTabs (FullSnapshot.ID s)
                        (FullSnapshot.BrowserTabs s))
                     (Repository.SaveBrowserTabs (repo m) (FullSnapshot.ID s)
                        (FullSnapshot.BrowserTabs s));
          match err with
          | Some e => pure (None, Some ("failed to save browser tabs: " +:+ e))
          | None => Capture_v1_files m s
          end
        else Capture_v1_files m s
    | Some _ => Capture_v1_files m s
    end
  else Capture_v1_files m s.

Definition Capture_v1_save (m : Manager) (opts : CaptureOptions.t)
    (s : FullSnapshot.t) : C (option FullSnapshot.t * option error) :=
  err ← call (EvCreateSnapshot s) (Repository.CreateSnapshot (repo m) s);
  match err with
  | Some e => pure (None, Some ("failed to save snapshot metadata: " +:+ e))
  | None =>
  err ← (if 0 <? GoInt.len (FullSnapshot.Windows s) then
           err ← call (EvSaveWindows (FullSnapshot.ID s) (FullSnapshot.Windows s))
                      (Repository.SaveWindows (repo m) (FullSnapshot.ID s)
                         (FullSnapshot.Windows s));
           match err with
           | Some e => pure (Some ("failed to save windows: " +:+ e))
           | None => pure None
           end
         else pure None);
  match err with
  | Some e => pure (None, Some e)
  | None =>
  err ← (if 0 <? GoInt.len (FullSnapshot.Terminals s) then
           err ← call (EvSaveTerminals (FullSnapshot.ID s)
                         (FullSnapshot.Terminals s))
                      (Repository.SaveTerminals (repo m) (FullSnapshot.ID s)
                         (FullSnapshot.Terminals s));
           match err with
           | Some e => pure (Some ("failed to save terminals: " +:+ e))
           | None => pure None
           end
         else pure None);
  match err with
  | Some e => pure (None, Some e)
  | None => Capture_v1_tabs m opts s
  end end end.

Definition Capture_v1 (m : Manager) (opts : CaptureOptions.t)
    : C (option FullSnapshot.t * option error) :=
  id ← call EvUUID (Host.uuid_New (host m));
  created ← call EvNow (Host.time_Now (host m));
  updated ← call EvNow (Host.time_Now (host m));
  let s := new_snapshot id (CaptureOptions.Name opts)
             (CaptureOptions.Description opts) (CaptureOptions.Tags opts)
             created updated in
  '(windows, err) ← call EvGetWindows (PlatformAdapter.GetWindows (platform_ m));
  match err with
  | Some e => pure (None, Some ("failed to capture windows: " +:+ e))
  | None =>
  let s := FullSnapshot.set_Windows windows s in
  r ← (if CaptureOptions.IncludeTerminals opts then
         '(terminals, err) ← call EvGetTerminals
                               (PlatformAdapter.GetTerminals (platform_ m));
         match err with
         | Some e => pure (inr ("failed to capture terminals: " +:+ e))
         | None => pure (inl (FullSnapshot.set_Terminals terminals s))
         end
       else pure (inl s));
  match r with
  | inr e => pure (None, Some e)
  | inl s =>
  '(gitCtx, err) ← call (EvDetectContext "") (Host.DetectContext (host m) "");
  let s :=
    match err, gitCtx with
    | None, Some ctx => set_git ctx s
    | _, _ => s
    end in
  Capture_v1_save m opts s
  end end.

(** *** [Manager.Restore] *)

Fixpoint Restore_v1_loop (m : Manager) (windows : list Window.t) : C unit :=
  match windows with
  | [] => pure tt
  | w :: rest =>
      err ← call (EvRestoreWindow w)
                 (PlatformAdapter.RestoreWindow (platform_ m) w);
      match err with
      | Some e =>
          _ ← print ("Error restoring window " +:+ Window.AppName w +:+ ": " +:+ e
                     +:+ String (Ascii.ascii_of_nat 10) "")
                    (Host.Printf (host m));
          Restore_v1_loop m rest
      | None => Restore_v1_loop m rest
      end
  end.

Definition Restore_v1 (m : Manager) (snapshotID : string) : C (option error) :=
  '(s, err) ← call (EvGetSnapshotByID snapshotID)
                   (Repository.GetSnapshotByID (repo m) snapshotID);
  match err with
  | Some e => pure (Some ("failed to get snapshot: " +:+ e))
  | None =>
  match s with
  | None => pure (Some "snapshot not found")
  | Some s =>
      '(windows, err) ← call (EvRepoGetWindows snapshotID)
                             (Repository.GetWindows (repo m) snapshotID);
      let s :=
        match err with
        | None => FullSnapshot.set_Windows windows s
        | Some _ => s
        end in
      _ ← Restore_v1_loop m (FullSnapshot.Windows s);
      pure None
  end end.

(** *** [List] and [Delete] of both managers *)

Definition List (m : Manager) : C (list FullSnapshot.t * option error) :=
  let filter := SnapshotFilter.mk "" "" [] 50 0 in
  call (EvListSnapshots filter) (Repository.ListSnapshots (repo m) filter).

Definition Delete (m : Manager) (id : string) : C (option error) :=
  call (EvDeleteSnapshot id) (Repository.DeleteSnapshot (repo m) id).

End Managers.

Arguments Manager : clear implicits.
Arguments ManagerV2 : clear implicits.

End capture.

(** ** Vocabulary of the properties of the capture *)

Section CaptureVocabulary.
Import core components capture.

(** A save that [Capture] makes only for a list with elements. *)
Definition planned {A : Type} (items : list A) (e : event) : list event :=
  if 0 <? GoInt.len items then [e] else [].

(** The writes of a capture of the snapshot [s], in their order. *)
Definition persist_plan (s : FullSnapshot.t) : list event :=
  EvCreateSnapshot s
  :: planned (FullSnapshot.Windows s)
       (EvSaveWindows (FullSnapshot.ID s) (FullSnapshot.Windows s))
  ++ planned (FullSnapshot.Terminals s)
       (EvSaveTerminals (FullSnapshot.ID s) (FullSnapshot.Terminals s))
  ++ planned (FullSnapshot.BrowserTabs s)
       (EvSaveBrowserTabs (FullSnapshot.ID s) (FullSnapshot.BrowserTabs s))
  ++ planned (FullSnapshot.IDEFiles s)
       (EvSaveIDEFiles (FullSnapshot.ID s) (FullSnapshot.IDEFiles s)).

(** The error of a capture whose write [e] failed with [cause]. *)
Definition write_error (e : event) (cause : error) : error :=
  match e with
  | EvCreateSnapshot _ => "failed to save snapshot metadata: " +:+ cause
  | EvSaveWindows _ _ => "failed to save windows: " +:+ cause
  | EvSaveTerminals _ _ => "failed to save terminals: " +:+ cause
  | EvSaveBrowserTabs _ _ => "failed to save browser tabs: " +:+ cause
  | EvSaveIDEFiles _ _ => "failed to save ide files: " +:+ cause
  | _ => cause
  end.

(** The calls with which a capture reads its environment. *)
Definition is_read (e : event) : bool :=
  match e with
  | EvUUID | EvNow | EvGetWindows | EvGetTerminals | EvDetectContext _
  | EvGetBrowserTabs | EvGetIDEFiles => true
  | _ => false
  end.

Definition is_restore (e : event) : bool :=
  match e with EvRestoreWindow _ => true | _ => false end.

(** The reads that [Manager.Capture] makes before it writes. *)
Definition is_early_read (e : event) : bool :=
  match e with
  | EvUUID | EvNow | EvGetWindows | EvGetTerminals | EvDetectContext _ => true
  | _ => false
  end.

(** A snapshot as it is before its tabs and files are enumerated. *)
Definition without_tabs_and_files (s : FullSnapshot.t) : FullSnapshot.t :=
  FullSnapshot.set_IDEFiles [] (FullSnapshot.set_BrowserTabs [] s).

(** The windows that a list of calls asks the platform to restore. *)
Definition windows_restored (calls : list event) : list Window.t :=
  flat_map (fun e => match e with EvRestoreWindow w => [w] | _ => [] end) calls.

Context {World : Type}.
#[local] Existing Instances traced.T_ret traced.T_bind.

(** The method of the repository behind a write. *)
Definition write (r : Repository.t World) (e : event)
    : World -> option error * World :=
  match e with
  | EvCreateSnapshot s => Repository.CreateSnapshot r s
  | EvSaveWindows id ws => Repository.SaveWindows r id ws
  | EvSaveTerminals id ts => Repository.SaveTerminals r id ts
  | EvSaveBrowserTabs id tabs => Repository.SaveBrowserTabs r id tabs
  | EvSaveIDEFiles id files => Repository.SaveIDEFiles r id files
  | EvDeleteSnapshot id => Repository.DeleteSnapshot r id
  | _ => fun σ => (None, σ)
  end.

(** The writes of a list made in order up to the first that fails. *)
Fixpoint perform (r : Repository.t World) (plan : list event)
    : C (World := World) (option error) :=
  match plan with
  | [] => pure None
  | e :: rest =>
      err ← call e (write r e);
      match err with
      | Some cause => pure (Some (write_error e cause))
      | None => perform r rest
      end
  end.

(** The world in which a capture enumerates the windows: after the
    identifier is drawn and the clock read twice. *)
Definition capture_start (h : Host.t World) (σ : World) : World :=
  snd (Host.time_Now h (snd (Host.time_Now h (snd (Host.uuid_New h σ))))).

(** The line that [Manager.Restore] prints for a window that could not be
    restored. *)
Definition restore_error_line (w : Window.t) (cause : error) : string :=
  "Error restoring window " +:+ Window.AppName w +:+ ": " +:+ cause
  +:+ String (Ascii.ascii_of_nat 10) "".

(** A terminal none of whose sensitive variables shows its value. *)
Definition redacted_terminal {go : GoStrings} {text : GoText}
    (s : sanitize.Sanitizer) (t : Terminal.t) : Prop :=
  forall env key v,
    Terminal.EnvVars t = Some env -> env !! key = Some v ->
    sensitive_key s key = true -> v = sanitize.redacted.

(** The terminals that a call hands to the repository. *)
Definition terminals_written (e : event) : list Terminal.t :=
  match e with
  | EvCreateSnapshot s => FullSnapshot.Terminals s
  | EvSaveTerminals _ ts => ts
  | _ => []
  end.

(** The repository accepts the writes of a list, made in order from the
    world [σ]; and the world that these writes leave. *)
Fixpoint accepted (r : Repository.t World) (writes : list event) (σ : World)
    : Prop :=
  match writes with
  | [] => True
  | e :: rest => fst (write r e σ) = None /\ accepted r rest (snd (write r e σ))
  end.

Fixpoint world_after (r : Repository.t World) (writes : list event) (σ : World)
    : World :=
  match writes with
  | [] => σ
  | e :: rest => world_after r rest (snd (write r e σ))
  end.

(** The answers of the platform to [RestoreWindow] on the windows [ws],
    called in this order from the world [σ] by [Manager.Restore], which
    prints a line after each failure; and the world they leave. *)
Fixpoint restore_v1_answers (m : Manager World) (ws : list Window.t) (σ : World)
    : list (option error) * World :=
  match ws with
  | [] => ([], σ)
  | w :: rest =>
      let '(answer, σ1) := PlatformAdapter.RestoreWindow (platform_ m) w σ in
      let σ2 :=
        match answer with
        | Some cause => Host.Printf (host m) (restore_error_line w cause) σ1
        | None => σ1
        end in
      let '(answers, σ3) := restore_v1_answers m rest σ2 in
      (answer :: answers, σ3)
  end.

(** The calls of [Manager.Restore] for the windows [ws] when the platform
    answers [answers]: a request for each window, followed by a printed
    line when the answer is an error. *)
Fixpoint restore_v1_calls (ws : list Window.t) (answers : list (option error))
    : list event :=
  match ws, answers with
  | w :: ws', answer :: answers' =>
      EvRestoreWindow w
      :: match answer with
         | Some cause => [EvPrintf (restore_error_line w cause)]
         | None => []
         end
      ++ restore_v1_calls ws' answers'
  | _, _ => []
  end.

End CaptureVocabulary.

(** ** A workstation for running captures

    The platform, the git detector and the repository answer what a table
    of answers says; the world is the clock and the lines printed. *)

Module workstation.
Import core components capture.

Record answers : Type := {
  windows : list Window.t * option error;
  terminals : list Terminal.t * option error;
  context : option git.Context * option error;
  tabs : list BrowserTab.t * option error;
  files : list IDEFile.t * option error;
  (** the writes that the repository refuses *)
  refused : event -> option error;
  stored : option FullSnapshot.t * option error;
  stored_windows : list Window.t * option error;
  (** the titles of the windows that cannot be restored *)
  unreachable : list string;
}.

Record world : Type := { clock : Time; output : list string }.

Definition tick (σ : world) : world :=
  {| clock := clock σ + 1; output := output σ |}.

Definition repository (a : answers) : Repository.t world :=
  {| Repository.CreateSnapshot := fun s σ => (refused a (EvCreateSnapshot s), σ);
     Repository.GetSnapshotByID := fun _ σ => (stored a, σ);
     Repository.ListSnapshots := fun _ σ => (([], None), σ);
     Repository.DeleteSnapshot := fun id σ => (refused a (EvDeleteSnapshot id), σ);
     Repository.SaveWindows := fun id ws σ => (refused a (EvSaveWindows id ws), σ);
     Repository.SaveTerminals :=
       fun id ts σ => (refused a (EvSaveTerminals id ts), σ);
     Repository.SaveBrowserTabs :=
       fun id ts σ => (refused a (EvSaveBrowserTabs id ts), σ);
     Repository.SaveIDEFiles :=
       fun id fs σ => (refused a (EvSaveIDEFiles id fs), σ);
     Repository.GetWindows := fun _ σ => (stored_windows a, σ) |}.

Definition adapter (a : answers) : PlatformAdapter.t world :=
  {| PlatformAdapter.GetWindows := fun σ => (windows a, σ);
     PlatformAdapter.RestoreWindow := fun w σ =>
       (if existsb (String.eqb (Window.WindowTitle w)) (unreachable a)
        then Some "no suitable window found" else None, σ);
     PlatformAdapter.GetTerminals := fun σ => (terminals a, σ);
     PlatformAdapter.GetBrowserTabs := fun σ => (tabs a, σ);
     PlatformAdapter.GetIDEFiles := fun σ => (files a, σ) |}.

Definition host_ (a : answers) : Host.t world :=
  {| Host.uuid_New := fun σ => ("7f3c", σ);
     Host.time_Now := fun σ => (clock σ, tick σ);
     Host.DetectContext := fun _ σ => (context a, σ);
     Host.Printf := fun line σ =>
       {| clock := clock σ; output := output σ ++ [line] |} |}.

Definition manager (a : answers) : Manager world :=
  {| repo := repository a; platform_ := adapter a; host := host_ a |}.

Definition managerV2 (a : answers) : ManagerV2 world :=
  {| v2 := manager a;
     sanitizer := sanitize.NewSanitizer sanitize.DefaultOptions;
     env_order := keys_in_order |}.

Definition start : world := {| clock := 5; output := [] |}.

(** A desk with two windows and the shells of [shells]; the git detector
    and the enumerations of tabs and files fail. *)
Definition desk : answers :=
  {| windows := ([inmemory.window "one" "code" 800 600;
                  inmemory.window "two" "term" 800 600], None);
     terminals := (shells.terminals, None);
     context := (None, Some "not a git repository");
     tabs := ([], Some "no browser");
     files := ([], Some "no editor");
     refused := fun _ => None;
     stored :=
       (Some (FullSnapshot.set_Windows
                [inmemory.window "one" "code" 800 600;
                 inmemory.window "two" "term" 800 600]
                (new_snapshot "7f3c" "desk" "" [] 0 0)), None);
     stored_windows := ([], Some "database is locked");
     unreachable := ["two"] |}.

(** The same desk when the repository refuses to save terminals. *)
Definition desk_refusing_terminals : answers :=
  {| windows := windows desk; terminals := terminals desk;
     context := context desk; tabs := tabs desk; files := files desk;
     refused := fun e =>
       match e with
       | EvSaveTerminals _ _ => Some "disk full"
       | _ => None
       end;
     stored := stored desk; stored_windows := stored_windows desk;
     unreachable := unreachable desk |}.

(** The snapshot of the desk with its windows and shells. *)
Definition captured : FullSnapshot.t :=
  FullSnapshot.set_Terminals shells.terminals
    (FullSnapshot.set_Windows (fst (windows desk))
       (new_snapshot "7f3c" "desk" "" [] 5 6)).

End workstation.

(** ** Package [platform]: the adapters for Windows

    The adapters call [user32.dll]. [EnumWindows] is embedded as returning,
    in the order of the enumeration, what the calls of the callback on each
    window handle return at that time; [SetWindowPos], [ShowWindow] and
    [log.Printf] act on the world and are recorded. *)

Module adapters.
Import core components platform.

Definition error : Type := string.

(** Subtraction of [int32] and the conversion [uintptr(int)]. *)
Definition wrap32 (z : Z) : Z := (z + 2 ^ 31) mod 2 ^ 32 - 2 ^ 31.
Definition uintptr (z : Z) : Z := z mod 2 ^ 64.

Module rect.
Record t : Type := mk { Left : Z; Top : Z; Right : Z; Bottom : Z }.
End rect.

(** What the callback reads of one window. [Toolhelp32] is the process
    table that [getProcessName] walks: [None] when
    [CreateToolhelp32Snapshot] fails, the empty list when [Process32First]
    fails. *)
Module view.
Record t : Type := mk {
  hwnd : Z;
  IsWindowVisible : Z;
  GetWindowTextLengthW : Z;
  GetWindowTextW : string;
  GetWindowThreadProcessId : Z;
  Toolhelp32 : option (list (Z * string));
  GetWindowRect : rect.t;
  IsIconic : Z;
  IsZoomed : Z;
}.
End view.

Inductive os_call : Type :=
| OsEnumWindows
| OsSetWindowPos (hwnd hWndInsertAfter X Y cx cy uFlags : Z)
| OsShowWindow (hwnd nCmdShow : Z)
| OsLog (line : string).

Module User32.
Record t (World : Type) : Type := mk {
  EnumWindows : World -> list view.t * World;
  (** the return value and the text of the last error *)
  SetWindowPos : Z -> Z -> Z -> Z -> Z -> Z -> Z -> World -> (Z * string) * World;
  ShowWindow : Z -> Z -> World -> World;
  log_Printf : string -> World -> World;
}.
Arguments EnumWindows {World}.
Arguments SetWindowPos {World}.
Arguments ShowWindow {World}.
Arguments log_Printf {World}.
End User32.

(** *** Classification helpers *)

Definition isTerminal (app : string) : bool :=
  existsb (String.eqb app)
    ["WindowsTerminal.exe"; "cmd.exe"; "powershell.exe"; "pwsh.exe"; "mintty.exe"].

Definition isBrowser (app : string) : bool :=
  existsb (String.eqb app)
    ["chrome.exe"; "msedge.exe"; "firefox.exe"; "brave.exe"; "opera.exe"].

Definition isIDE (app : string) : bool :=
  existsb (String.eqb app) ["Code.exe"; "idea64.exe"; "goland64.exe"].

Definition guessShell (app : string) : string :=
  if String.eqb app "cmd.exe" then "cmd"
  else if String.eqb app "powershell.exe" || String.eqb app "pwsh.exe"
       then "powershell"
       else "unknown".

Definition extractProjectFromTitle (title : string) : string := title.

(** *** What both adapters share *)

Fixpoint find_process (pid : Z) (entries : list (Z * string)) : string :=
  match entries with
  | [] => ""
  | (id, exe) :: rest => if id =? pid then exe else find_process pid rest
  end.

Definition getProcessName (v : view.t) (pid : Z) : string :=
  match view.Toolhelp32 v with
  | None => ""
  | Some entries => find_process pid entries
  end.

(** The application name that the callbacks compute. *)
Definition appName_of (v : view.t) : string :=
  let pid := view.GetWindowThreadProcessId v in
  let appName := getProcessName v pid in
  if String.eqb appName "" then "PID_" +:+ pretty pid else appName.

(** The loops of [GetTerminals], [GetBrowserTabs] and [GetIDEFiles]. *)
Definition terminals_of (windowsList : list Window.t) : list Terminal.t :=
  flat_map (fun win =>
              if isTerminal (Window.AppName win)
              then [Terminal.mk 0 "" (Window.AppName win) ""
                      (Window.WindowTitle win) (guessShell (Window.AppName win))
                      None]
              else [])
           windowsList.

Definition tabs_of (windowsList : list Window.t) : list BrowserTab.t :=
  flat_map (fun win =>
              if isBrowser (Window.AppName win)
              then [BrowserTab.mk 0 "" (Window.AppName win) ""
                      (Window.WindowTitle win) 0 0 false]
              else [])
           windowsList.

Definition files_of (windowsList : list Window.t) : list IDEFile.t :=
  flat_map (fun win =>
              if isIDE (Window.AppName win)
              then [IDEFile.mk 0 "" (Window.AppName win)
                      (extractProjectFromTitle (Window.WindowTitle win)) 0 0 true]
              else [])
           windowsList.

Section Shared.
Context {World : Type}.
Variable user32 : User32.t World.
#[local] Existing Instances traced.T_ret traced.T_bind.

Definition W : Type -> Type := traced.T os_call World.

Definition enumerate : W (list view.t) :=
  traced.call OsEnumWindows (User32.EnumWindows user32).

(** [GetTerminals], [GetBrowserTabs] and [GetIDEFiles] of both adapters,
    over the [GetWindows] of the adapter. *)
Definition derived {A : Type} (GetWindows : W (list Window.t * option error))
    (select : list Window.t -> list A) : W (list A * option error) :=
  '(windowsList, err) ← GetWindows;
  match err with
  | Some e => traced.pure ([], Some e)
  | None => traced.pure (select windowsList, None)
  end.

End Shared.
Arguments W : clear implicits.

(** *** [WindowsAdapter] *)

Module WindowsAdapter.
Section Adapter.
Context {go : GoStrings}.
Context {World : Type}.
Variable user32 : User32.t World.
#[local] Existing Instances traced.T_ret traced.T_bind.

(** The callback of [GetWindows] on one window. *)
Definition window_of (v : view.t) : list Window.t :=
  if view.IsWindowVisible v =? 0 then []
  else if view.GetWindowTextLengthW v =? 0 then []
  else
    let r := view.GetWindowRect v in
    [Window.mk 0 "" (appName_of v) "" (view.GetWindowTextW v)
       (rect.Left r) (rect.Top r)
       (wrap32 (rect.Right r - rect.Left r))
       (wrap32 (rect.Bottom r - rect.Top r))
       "normal" 0 0 ""].

Definition GetWindows : W World (list Window.t * option error) :=
  views ← enumerate user32;
  traced.pure (flat_map window_of views, None).

(** The callback of [RestoreWindow] on one window: the candidate and its
    handle. *)
Definition candidate_of (v : view.t) : list (Window.t * Z) :=
  if view.IsWindowVisible v =? 0 then []
  else if view.GetWindowTextLengthW v =? 0 then []
  else
    let r := view.GetWindowRect v in
    [(Window.mk 0 "" (appName_of v) "" (view.GetWindowTextW v) 0 0
        (wrap32 (rect.Right r - rect.Left r))
        (wrap32 (rect.Bottom r - rect.Top r))
        "" 0 0 "",
      view.hwnd v)].

(** The loop that finds the handle of the best match. *)
Fixpoint resolve (matched : Window.t) (candidates : list (Window.t * Z)) : Z :=
  match candidates with
  | [] => 0
  | (c, h) :: rest =>
      if String.eqb (Window.WindowTitle c) (Window.WindowTitle matched)
         && String.eqb (Window.AppName c) (Window.AppName matched)
         && (Window.Width c =? Window.Width matched)
      then h
      else resolve matched rest
  end.

Definition RestoreWindow (window : Window.t) : W World (outcome (option error)) :=
  views ← enumerate user32;
  let candidates := flat_map candidate_of views in
  let matcher := DefaultMatcher in
  let candidateList := map fst candidates in
  match FindBestMatch matcher window candidateList with
  | Panic p => traced.pure (Panic p)
  | Ok None =>
      traced.pure (Ok (Some ("no suitable match found for window: "
                             +:+ Window.WindowTitle window)))
  | Ok (Some match_) =>
      let targetHwnd := resolve (MatchResult.Window match_) candidates in
      if negb (targetHwnd =? 0) then
        _ ← traced.call
              (OsSetWindowPos (uintptr targetHwnd) 0 (uintptr (Window.X window))
                 (uintptr (Window.Y window)) (uintptr (Window.Width window))
                 (uintptr (Window.Height window)) 4)
              (User32.SetWindowPos user32 (uintptr targetHwnd) 0
                 (uintptr (Window.X window)) (uintptr (Window.Y window))
                 (uintptr (Window.Width window)) (uintptr (Window.Height window))
                 4);
        _ ← traced.tell (OsShowWindow (uintptr targetHwnd) 5)
              (User32.ShowWindow user32 (uintptr targetHwnd) 5);
        traced.pure (Ok None)
      else
        traced.pure (Ok (Some "failed to resolve handle for matched window"))
  end.

Definition GetTerminals : W World (list Terminal.t * option error) :=
  derived GetWindows terminals_of.
Definition GetBrowserTabs : W World (list BrowserTab.t * option error) :=
  derived GetWindows tabs_of.
Definition GetIDEFiles : W World (list IDEFile.t * option error) :=
  derived GetWindows files_of.

End Adapter.
End WindowsAdapter.

(** *** [WindowsAdapterV2] *)

Module WindowsAdapterV2.

Record t : Type := mk { matcher : WindowMatcher.t }.

Definition NewWindowsAdapterV2 : t := {| matcher := DefaultMatcher |}.

Section Adapter.
Context {go : GoStrings}.
Context {World : Type}.
Variable user32 : User32.t World.
#[local] Existing Instances traced.T_ret traced.T_bind.

Definition getWindowState (v : view.t) : string :=
  if negb (view.IsIconic v =? 0) then "minimized"
  else if negb (view.IsZoomed v =? 0) then "maximized"
  else "normal".

Definition window_of (v : view.t) : list Window.t :=
  if view.IsWindowVisible v =? 0 then []
  else if view.GetWindowTextLengthW v =? 0 then []
  else
    let r := view.GetWindowRect v in
    [Window.mk 0 "" (appName_of v) "" (view.GetWindowTextW v)
       (rect.Left r) (rect.Top r)
       (wrap32 (rect.Right r - rect.Left r))
       (wrap32 (rect.Bottom r - rect.Top r))
       (getWindowState v) 0 0 ""].

Definition GetWindows : W World (list Window.t * option error) :=
  views ← enumerate user32;
  traced.pure (flat_map window_of views, None).

(** The callback of [findWindowHandle] over the enumeration: it stops at
    the first window with the title. *)
Fixpoint first_titled (title : string) (views : list view.t) : Z :=
  match views with
  | [] => 0
  | v :: rest =>
      if view.GetWindowTextLengthW v =? 0 then first_titled title rest
      else if String.eqb (view.GetWindowTextW v) title then view.hwnd v
           else first_titled title rest
  end.

Definition findWindowHandle (title : string) : W World Z :=
  views ← enumerate user32;
  traced.pure (first_titled title views).

Definition show_command (State : string) : Z :=
  if String.eqb State "maximized" then 3
  else if String.eqb State "minimized" then 6
  else 1.

Definition setWindowPosition (hwnd : Z) (window : Window.t) : W World (option error) :=
  let flags := Z.lor 4 16 in
  '(ret, err) ← traced.call
                  (OsSetWindowPos (uintptr hwnd) 0 (uintptr (Window.X window))
                     (uintptr (Window.Y window)) (uintptr (Window.Width window))
                     (uintptr (Window.Height window)) flags)
                  (User32.SetWindowPos user32 (uintptr hwnd) 0
                     (uintptr (Window.X window)) (uintptr (Window.Y window))
                     (uintptr (Window.Width window))
                     (uintptr (Window.Height window)) flags);
  if ret =? 0 then traced.pure (Some ("SetWindowPos failed: " +:+ err))
  else
    _ ← traced.tell
          (OsShowWindow (uintptr hwnd) (show_command (Window.State window)))
          (User32.ShowWindow user32 (uintptr hwnd)
             (show_command (Window.State window)));
    traced.pure None.

Definition matched_line (window : Window.t) (match_ : MatchResult.t) : string :=
  "[WindowRestore] Matched '" +:+ Window.WindowTitle window +:+ "' with '"
  +:+ Window.WindowTitle (MatchResult.Window match_) +:+ "' (score: "
  +:+ pretty (MatchResult.Score match_) +:+ ")".

Definition RestoreWindow (w : t) (window : Window.t)
    : W World (outcome (option error)) :=
  '(currentWindows, err) ← GetWindows;
  match err with
  | Some e => traced.pure (Ok (Some ("failed to get current windows: " +:+ e)))
  | None =>
      match FindBestMatch (matcher w) window currentWindows with
      | Panic p => traced.pure (Panic p)
      | Ok None =>
          traced.pure
            (Ok (Some ("no suitable window found for: "
                       +:+ Window.WindowTitle window +:+ " (app: "
                       +:+ Window.AppName window +:+ ")")))
      | Ok (Some match_) =>
          _ ← traced.tell (OsLog (matched_line window match_))
                (User32.log_Printf user32 (matched_line window match_));
          foundHwnd ← findWindowHandle
                        (Window.WindowTitle (MatchResult.Window match_));
          if foundHwnd =? 0 then
            traced.pure
              (Ok (Some ("window handle not found for: "
                         +:+ Window.WindowTitle (MatchResult.Window match_))))
          else
            err ← setWindowPosition foundHwnd window;
            traced.pure (Ok err)
      end
  end.

Definition GetTerminals : W World (list Terminal.t * option error) :=
  derived GetWindows terminals_of.
Definition GetBrowserTabs : W World (list BrowserTab.t * option error) :=
  derived GetWindows tabs_of.
Definition GetIDEFiles : W World (list IDEFile.t * option error) :=
  derived GetWindows files_of.

End Adapter.
End WindowsAdapterV2.

End adapters.

(** ** Vocabulary of the properties of the adapters *)

Section AdapterVocabulary.
Import core components platform adapters.
Context {go : GoStrings}.
Context {World : Type}.

(** A window that the enumeration of [GetWindows] does not skip. *)
Definition reported (v : view.t) : Prop :=
  view.IsWindowVisible v <> 0 /\ view.GetWindowTextLengthW v <> 0.

(** A window that [findWindowHandle] takes for the window titled
    [title]. *)
Definition titled (title : string) (v : view.t) : Prop :=
  view.GetWindowTextLengthW v <> 0 /\ view.GetWindowTextW v = title.

(** The call with which [setWindowPosition] moves the window [hwnd]. *)
Definition move_call (hwnd : Z) (window : Window.t) : os_call :=
  OsSetWindowPos (uintptr hwnd) 0 (uintptr (Window.X window))
    (uintptr (Window.Y window)) (uintptr (Window.Width window))
    (uintptr (Window.Height window)) 20.

(** [WindowsAdapterV2] as the platform of a manager: the world of the
    manager is the world of the adapter with the calls made to
    [user32.dll]. A panic of the matcher, which does not occur, is
    reported as an error. *)
Definition platform_of (user32 : User32.t World) (w : WindowsAdapterV2.t)
    : capture.PlatformAdapter.t (World * list os_call) :=
  {| capture.PlatformAdapter.GetWindows := WindowsAdapterV2.GetWindows user32;
     capture.PlatformAdapter.RestoreWindow := fun window st =>
       match WindowsAdapterV2.RestoreWindow user32 w window st with
       | (Ok err, st') => (err, st')
       | (Panic p, st') => (Some p, st')
       end;
     capture.PlatformAdapter.GetTerminals := WindowsAdapterV2.GetTerminals user32;
     capture.PlatformAdapter.GetBrowserTabs :=
       WindowsAdapterV2.GetBrowserTabs user32;
     capture.PlatformAdapter.GetIDEFiles := WindowsAdapterV2.GetIDEFiles user32 |}.

End AdapterVocabulary.

(** ** A desktop for running the adapters

    The world is the list of the windows that [EnumWindows] shows; the
    windows do not move. *)

Module desktop.
Import core adapters.

Definition user32 (moves : bool) : User32.t (list view.t) :=
  {| User32.EnumWindows := fun σ => (σ, σ);
     User32.SetWindowPos := fun _ _ _ _ _ _ _ σ =>
       (if moves then (1, "") else (0, "Access is denied."), σ);
     User32.ShowWindow := fun _ _ σ => σ;
     User32.log_Printf := fun _ σ => σ |}.

Definition processes : option (list (Z * string)) :=
  Some [(4, "System"); (812, "Code.exe"); (900, "pwsh.exe")].

(** A hidden window and a visible one with the same title, and a shell. *)
Definition hidden_editor : view.t :=
  view.mk 11 0 6 "Editor" 812 processes (rect.mk 0 0 0 0) 0 0.
Definition editor : view.t :=
  view.mk 12 1 6 "Editor" 812 processes (rect.mk 10 20 810 620) 0 1.
Definition shell : view.t :=
  view.mk 13 1 5 "build" 900 processes (rect.mk 0 0 640 480) 1 0.

Definition start : list view.t := [hidden_editor; editor; shell].

(** The editor window as a snapshot has it. *)
Definition saved_editor : Window.t :=
  Window.mk 1 "7f3c" "Code.exe" "" "Editor" 30 40 800 600 "maximized" 0 0 "".

(** A manager over the adapter whose repository answers [refusal] to
    [CreateSnapshot]. *)
Definition manager (refusal : option capture.error)
    : capture.ManagerV2 (list view.t * list os_call) :=
  {| capture.v2 :=
       {| capture.repo :=
            {| capture.Repository.CreateSnapshot := fun _ σ => (refusal, σ);
               capture.Repository.GetSnapshotByID := fun _ σ => ((None, None), σ);
               capture.Repository.ListSnapshots := fun _ σ => (([], None), σ);
               capture.Repository.DeleteSnapshot := fun _ σ => (None, σ);
               capture.Repository.SaveWindows := fun _ _ σ => (None, σ);
               capture.Repository.SaveTerminals := fun _ _ σ => (None, σ);
               capture.Repository.SaveBrowserTabs := fun _ _ σ => (None, σ);
               capture.Repository.SaveIDEFiles := fun _ _ σ => (None, σ);
               capture.Repository.GetWindows := fun _ σ => (([], None), σ) |};
          capture.platform_ :=
            platform_of (go := ascii_strings) (user32 true)
              WindowsAdapterV2.NewWindowsAdapterV2;
          capture.host :=
            {| capture.Host.uuid_New := fun σ => ("7f3c", σ);
               capture.Host.time_Now := fun σ => (0, σ);
               capture.Host.DetectContext :=
                 fun _ σ => ((None, Some "not a git repository"), σ);
               capture.Host.Printf := fun _ σ => σ |} |};
     capture.sanitizer := sanitize.NewSanitizer sanitize.DefaultOptions;
     capture.env_order := keys_in_order |}.

End desktop.

(** ** Package [db]: the SQLite repository

    The repository calls [database/sql] and [encoding/json]. The calls to
    the database are embedded over any driver and recorded with the text
    of the statement and its arguments; a row that is scanned is what
    [Scan] gives, or its error. *)

Module db.
Import core components.

Definition error : Type := string.

(** An argument of a statement. *)
Inductive arg : Type :=
| AString (s : string)
| AInt (z : Z)
| ABool (b : bool).

Inductive sql_call : Type :=
| SqlBeginTx
| SqlCommit
| SqlRollback
| SqlTxExec (query : string) (args : list arg)
| SqlPrepare (query : string)
| SqlStmtExec (args : list arg)
| SqlStmtClose
| SqlExec (query : string) (args : list arg)
| SqlQueryRow (query : string) (args : list arg)
| SqlQuery (query : string) (args : list arg)
| SqlRowsClose.

(** The columns that the queries on [snapshots] select. *)
Module snapshot_row.
Record t : Type := mk {
  id : string;
  name : string;
  description : string;
  created_at : Time;
  updated_at : Time;
  git_branch : string;
  git_repo : string;
  git_dirty : bool;
  tags : string;
}.
End snapshot_row.

(** The columns that [GetWindows] selects. *)
Module window_row.
Record t : Type := mk {
  id : Z;
  snapshot_id : string;
  app_name : string;
  app_path : string;
  window_title : string;
  x : Z;
  y : Z;
  width : Z;
  height : Z;
  state : string;
  workspace : Z;
  z_index : Z;
  launch_args : string;
}.
End window_row.

(** What [QueryRowContext] followed by [Scan] gives. *)
Inductive scanned (A : Type) : Type :=
| ErrNoRows
| ScanError (e : error)
| Row (r : A).
Arguments ErrNoRows {A}.
Arguments ScanError {A}.
Arguments Row {A}.

Module Driver.
Record t (World : Type) : Type := mk {
  BeginTx : World -> option error * World;
  Commit : World -> option error * World;
  Rollback : World -> World;
  TxExec : string -> list arg -> World -> option error * World;
  Prepare : string -> World -> option error * World;
  StmtExec : list arg -> World -> option error * World;
  StmtClose : World -> World;
  Exec : string -> list arg -> World -> option error * World;
  QueryRow : string -> list arg -> World -> scanned snapshot_row.t * World;
  (** the rows, each as [Scan] gives it, or the error of the query *)
  QuerySnapshots :
    string -> list arg -> World
    -> (list (snapshot_row.t + error) * option error) * World;
  QueryWindows :
    string -> list arg -> World
    -> (list (window_row.t + error) * option error) * World;
  RowsClose : World -> World;
}.
Arguments BeginTx {World}.
Arguments Commit {World}.
Arguments Rollback {World}.
Arguments TxExec {World}.
Arguments Prepare {World}.
Arguments StmtExec {World}.
Arguments StmtClose {World}.
Arguments Exec {World}.
Arguments QueryRow {World}.
Arguments QuerySnapshots {World}.
Arguments QueryWindows {World}.
Arguments RowsClose {World}.
End Driver.

(** [json.Marshal] and [json.Unmarshal] at the types at which the
    repository calls them. *)
Module Json.
Record t : Type := mk {
  Marshal_tags : list string -> string * option error;
  Marshal_raw : string -> string * option error;
  Marshal_env : option (gmap string string) -> string * option error;
  Unmarshal_tags : string -> list string * option error;
}.
End Json.

Definition nl : string := String (Ascii.ascii_of_nat 10) "".
Definition tab : string := String (Ascii.ascii_of_nat 9) "".

(** The text between the back quotes of an [INSERT] statement. *)
Definition insert_text (into values : string) : string :=
  nl +:+ tab +:+ tab +:+ tab +:+ into +:+ nl +:+ tab +:+ tab +:+ tab +:+ values
  +:+ nl +:+ tab +:+ tab.

Definition insert_snapshot : string :=
  insert_text
    "INSERT INTO snapshots (id, name, description, git_branch, git_repo, git_dirty, git_head_hash, tags)"
    "VALUES (?, ?, ?, ?, ?, ?, ?, ?)".

Definition insert_window : string :=
  insert_text
    "INSERT INTO windows (snapshot_id, app_name, app_path, window_title, x, y, width, height, state, workspace, z_index, launch_args)"
    "VALUES (?, ?, ?, ?, ?, ?, ?, ?, ?, ?, ?, ?)".

Definition insert_terminal : string :=
  insert_text
    "INSERT INTO terminals (snapshot_id, terminal_app, working_directory, active_command, shell_type, env_vars)"
    "VALUES (?, ?, ?, ?, ?, ?)".

Definition insert_browser_tab : string :=
  insert_text
    "INSERT INTO browser_tabs (snapshot_id, browser_name, url, title, tab_index, window_index, is_pinned)"
    "VALUES (?, ?, ?, ?, ?, ?, ?)".

Definition insert_ide_file : string :=
  insert_text
    "INSERT INTO ide_files (snapshot_id, ide_name, file_path, cursor_line, cursor_column, is_active)"
    "VALUES (?, ?, ?, ?, ?, ?)".

Definition select_snapshot : string :=
  "SELECT id, name, description, created_at, updated_at, git_branch, git_repo, git_dirty, tags FROM snapshots WHERE id = ?".

Definition select_snapshots : string :=
  "SELECT id, name, description, created_at, updated_at, git_branch, git_repo, git_dirty, tags FROM snapshots WHERE 1=1".

Definition select_windows : string :=
  "SELECT id, snapshot_id, app_name, app_path, window_title, x, y, width, height, state, workspace, z_index, launch_args FROM windows WHERE snapshot_id = ?".

Definition delete_snapshot : string := "DELETE FROM snapshots WHERE id = ?".

Section Repository.
Context {World : Type}.
Variable driver : Driver.t World.
Variable json : Json.t.
#[local] Existing Instances traced.T_ret traced.T_bind.

Definition D : Type -> Type := traced.T sql_call World.

Definition unmarshalJSON (unmarshal : string -> list string * option error)
    (data : string) (v : list string) : list string * option error :=
  if String.eqb data "" then (v, None) else unmarshal data.

Definition marshalJSON {A : Type} (marshal : A -> string * option error) (v : A)
    : string * option error :=
  match marshal v with
  | (_, Some e) => ("", Some e)
  | (b, None) => (b, None)
  end.

(** [DB.WithTx]: the deferred [Rollback] runs when the function returns,
    after [Commit] too. *)
Definition WithTx (fn : D (option error)) : D (option error) :=
  err ← traced.call SqlBeginTx (Driver.BeginTx driver);
  match err with
  | Some e => traced.pure (Some e)
  | None =>
      err ← fn;
      match err with
      | Some e =>
          _ ← traced.tell SqlRollback (Driver.Rollback driver);
          traced.pure (Some e)
      | None =>
          err ← traced.call SqlCommit (Driver.Commit driver);
          _ ← traced.tell SqlRollback (Driver.Rollback driver);
          traced.pure err
      end
  end.

Definition CreateSnapshot (s : FullSnapshot.t) : D (option error) :=
  let b := FullSnapshot.base s in
  match marshalJSON (Json.Marshal_tags json) (Snapshot.Tags b) with
  | (_, Some e) => traced.pure (Some e)
  | (tagsJSON, None) =>
      let args :=
        [AString (Snapshot.ID b); AString (Snapshot.Name b);
         AString (Snapshot.Description b); AString (Snapshot.GitBranch b);
         AString (Snapshot.GitRepo b); ABool (Snapshot.GitDirty b);
         AString (Snapshot.GitHeadHash b); AString tagsJSON] in
      WithTx (traced.call (SqlTxExec insert_snapshot args)
                (Driver.TxExec driver insert_snapshot args))
  end.

(** The snapshot into which a row is scanned. *)
Definition snapshot_of_row (r : snapshot_row.t) (tags : list string)
    : FullSnapshot.t :=
  FullSnapshot.mk
    (Snapshot.mk (snapshot_row.id r) (snapshot_row.name r)
       (snapshot_row.description r) (snapshot_row.created_at r)
       (snapshot_row.updated_at r) (snapshot_row.git_branch r)
       (snapshot_row.git_repo r) (snapshot_row.git_dirty r) "" tags [])
    [] [] [] [].

Definition GetSnapshotByID (id : string)
    : D (option FullSnapshot.t * option error) :=
  res ← traced.call (SqlQueryRow select_snapshot [AString id])
          (Driver.QueryRow driver select_snapshot [AString id]);
  match res with
  | ErrNoRows => traced.pure (None, None)
  | ScanError e => traced.pure (None, Some e)
  | Row r =>
      match unmarshalJSON (Json.Unmarshal_tags json) (snapshot_row.tags r) [] with
      | (_, Some e) => traced.pure (None, Some e)
      | (tags, None) => traced.pure (Some (snapshot_of_row r tags), None)
      end
  end.

(** The statement and the arguments that [ListSnapshots] builds. *)
Definition list_query (filter : capture.SnapshotFilter.t)
    : string * list arg :=
  let query := select_snapshots in
  let args := [] in
  let '(query, args) :=
    if negb (String.eqb (capture.SnapshotFilter.Project filter) "")
    then (query +:+ " AND git_repo LIKE ?",
          args ++ [AString ("%" +:+ capture.SnapshotFilter.Project filter
                            +:+ "%")])
    else (query, args) in
  let '(query, args) :=
    if negb (String.eqb (capture.SnapshotFilter.Branch filter) "")
    then (query +:+ " AND git_branch = ?",
          args ++ [AString (capture.SnapshotFilter.Branch filter)])
    else (query, args) in
  let query := query +:+ " ORDER BY created_at DESC" in
  if 0 <? capture.SnapshotFilter.Limit filter
  then (query +:+ " LIMIT ?",
        args ++ [AInt (capture.SnapshotFilter.Limit filter)])
  else (query, args).

(** The loop over [rows.Next()] of [ListSnapshots]: the error of
    [unmarshalJSON] is not looked at. *)
Fixpoint scan_snapshots (rows : list (snapshot_row.t + error))
    (snapshots : list FullSnapshot.t) : list FullSnapshot.t * option error :=
  match rows with
  | [] => (snapshots, None)
  | inr e :: _ => ([], Some e)
  | inl r :: rest =>
      let tags :=
        fst (unmarshalJSON (Json.Unmarshal_tags json) (snapshot_row.tags r) []) in
      scan_snapshots rest (snapshots ++ [snapshot_of_row r tags])
  end.

Definition ListSnapshots (filter : capture.SnapshotFilter.t)
    : D (list FullSnapshot.t * option error) :=
  let '(query, args) := list_query filter in
  '(rows, err) ← traced.call (SqlQuery query args)
                   (Driver.QuerySnapshots driver query args);
  match err with
  | Some e => traced.pure ([], Some e)
  | None =>
      _ ← traced.tell SqlRowsClose (Driver.RowsClose driver);
      traced.pure (scan_snapshots rows [])
  end.

Definition DeleteSnapshot (id : string) : D (option error) :=
  traced.call (SqlExec delete_snapshot [AString id])
    (Driver.Exec driver delete_snapshot [AString id]).

(** The loop of a [Save...] method over the prepared statement. *)
Fixpoint exec_all (rows : list (list arg)) : D (option error) :=
  match rows with
  | [] => traced.pure None
  | args :: rest =>
      err ← traced.call (SqlStmtExec args) (Driver.StmtExec driver args);
      match err with
      | Some e => traced.pure (Some e)
      | None => exec_all rest
      end
  end.

(** The transaction of a [Save...] method; the deferred [stmt.Close] runs
    when the function given to [WithTx] returns. *)
Definition save_rows (query : string) (rows : list (list arg))
    : D (option error) :=
  WithTx
    (err ← traced.call (SqlPrepare query) (Driver.Prepare driver query);
     match err with
     | Some e => traced.pure (Some e)
     | None =>
         err ← exec_all rows;
         _ ← traced.tell SqlStmtClose (Driver.StmtClose driver);
         traced.pure err
     end).

Definition window_args (snapshotID : string) (w : Window.t) : list arg :=
  let argsLabel := fst (marshalJSON (Json.Marshal_raw json) (Window.LaunchArgs w)) in
  [AString snapshotID; AString (Window.AppName w); AString (Window.AppPath w);
   AString (Window.WindowTitle w); AInt (Window.X w); AInt (Window.Y w);
   AInt (Window.Width w); AInt (Window.Height w); AString (Window.State w);
   AInt (Window.Workspace w); AInt (Window.ZIndex w); AString argsLabel].

Definition SaveWindows (snapshotID : string) (windows : list Window.t)
    : D (option error) :=
  save_rows insert_window (map (window_args snapshotID) windows).

Definition terminal_args (snapshotID : string) (t : Terminal.t) : list arg :=
  let envJSON := fst (marshalJSON (Json.Marshal_env json) (Terminal.EnvVars t)) in
  [AString snapshotID; AString (Terminal.TerminalApp t);
   AString (Terminal.WorkingDirectory t); AString (Terminal.ActiveCommand t);
   AString (Terminal.ShellType t); AString envJSON].

Definition SaveTerminals (snapshotID : string) (terminals : list Terminal.t)
    : D (option error) :=
  save_rows insert_terminal (map (terminal_args snapshotID) terminals).

Definition tab_args (snapshotID : string) (t : BrowserTab.t) : list arg :=
  [AString snapshotID; AString (BrowserTab.BrowserName t);
   AString (BrowserTab.URL t); AString (BrowserTab.Title t);
   AInt (BrowserTab.TabIndex t); AInt (BrowserTab.WindowIndex t);
   ABool (BrowserTab.IsPinned t)].

Definition SaveBrowserTabs (snapshotID : string) (tabs : list BrowserTab.t)
    : D (option error) :=
  save_rows insert_browser_tab (map (tab_args snapshotID) tabs).

Definition file_args (snapshotID : string) (f : IDEFile.t) : list arg :=
  [AString snapshotID; AString (IDEFile.IDEName f); AString (IDEFile.FilePath f);
   AInt (IDEFile.CursorLine f); AInt (IDEFile.CursorColumn f);
   ABool (IDEFile.IsActive f)].

Definition SaveIDEFiles (snapshotID : string) (files : list IDEFile.t)
    : D (option error) :=
  save_rows insert_ide_file (map (file_args snapshotID) files).

Definition window_of_row (r : window_row.t) : Window.t :=
  Window.mk (window_row.id r) (window_row.snapshot_id r) (window_row.app_name r)
    (window_row.app_path r) (window_row.window_title r) (window_row.x r)
    (window_row.y r) (window_row.width r) (window_row.height r)
    (window_row.state r) (window_row.workspace r) (window_row.z_index r)
    (if negb (String.eqb (window_row.launch_args r) "")
     then window_row.launch_args r else "").

Fixpoint scan_windows (rows : list (window_row.t + error))
    (windows : list Window.t) : list Window.t * option error :=
  match rows with
  | [] => (windows, None)
  | inr e :: _ => ([], Some e)
  | inl r :: rest => scan_windows rest (windows ++ [window_of_row r])
  end.

Definition GetWindows (snapshotID : string)
    : D (list Window.t * option error) :=
  '(rows, err) ← traced.call (SqlQuery select_windows [AString snapshotID])
                   (Driver.QueryWindows driver select_windows
                      [AString snapshotID]);
  match err with
  | Some e => traced.pure ([], Some e)
  | None =>
      _ ← traced.tell SqlRowsClose (Driver.RowsClose driver);
      traced.pure (scan_windows rows [])
  end.

(** [SQLiteRepository] as a [core.Repository]. *)
Definition SQLiteRepository
    : capture.Repository.t (World * list sql_call) :=
  {| capture.Repository.CreateSnapshot := CreateSnapshot;
     capture.Repository.GetSnapshotByID := GetSnapshotByID;
     capture.Repository.ListSnapshots := ListSnapshots;
     capture.Repository.DeleteSnapshot := DeleteSnapshot;
     capture.Repository.SaveWindows := SaveWindows;
     capture.Repository.SaveTerminals := SaveTerminals;
     capture.Repository.SaveBrowserTabs := SaveBrowserTabs;
     capture.Repository.SaveIDEFiles := SaveIDEFiles;
     capture.Repository.GetWindows := GetWindows |}.

End Repository.

End db.

(** ** Vocabulary of the properties of the repository *)

Section RepositoryVocabulary.
Import core components db.

(** The number of placeholders of a statement. *)
Fixpoint count_placeholders (query : string) : nat :=
  match query with
  | EmptyString => 0%nat
  | String c rest =>
      ((if Ascii.eqb c "?" then 1 else 0) + count_placeholders rest)%nat
  end.

(** A snapshot reduced to the eight columns of the table [snapshots] that
    are written. *)
Definition written_columns (s : FullSnapshot.t) : FullSnapshot.t :=
  let b := FullSnapshot.base s in
  FullSnapshot.mk
    (Snapshot.mk (Snapshot.ID b) (Snapshot.Name b) (Snapshot.Description b)
       0 0 (Snapshot.GitBranch b) (Snapshot.GitRepo b) (Snapshot.GitDirty b)
       (Snapshot.GitHeadHash b) (Snapshot.Tags b) [])
    [] [] [] [].

(** The calls of a [Save...] method that attempts the rows [attempted]
    and then ends with [ending]. *)
Definition save_calls (query : string) (attempted : list (list arg))
    (ending : list sql_call) : list sql_call :=
  [SqlBeginTx; SqlPrepare query] ++ map SqlStmtExec attempted
  ++ SqlStmtClose :: ending.

Context {World : Type}.

(** The driver accepts the insertions of the rows, made in order from the
    world [σ]; and the world that these insertions leave. *)
Fixpoint inserts_accepted (driver : Driver.t World) (rows : list (list arg))
    (σ : World) : Prop :=
  match rows with
  | [] => True
  | args :: rest =>
      fst (Driver.StmtExec driver args σ) = None
      /\ inserts_accepted driver rest (snd (Driver.StmtExec driver args σ))
  end.

Fixpoint after_inserts (driver : Driver.t World) (rows : list (list arg))
    (σ : World) : World :=
  match rows with
  | [] => σ
  | args :: rest => after_inserts driver rest (snd (Driver.StmtExec driver args σ))
  end.

End RepositoryVocabulary.

(** ** A database for running the repository

    The driver answers what a table of answers says; the world is
    empty. The codec is that of snapshots without tags, launch arguments
    and environments. *)

Module bench.
Import core components db.

Record answers : Type := {
  refused : sql_call -> option error;
  found : scanned snapshot_row.t;
  windows_found : list (window_row.t + error) * option error;
}.

Definition driver (a : answers) : Driver.t unit :=
  {| Driver.BeginTx := fun σ => (refused a SqlBeginTx, σ);
     Driver.Commit := fun σ => (refused a SqlCommit, σ);
     Driver.Rollback := fun σ => σ;
     Driver.TxExec := fun q args σ => (refused a (SqlTxExec q args), σ);
     Driver.Prepare := fun q σ => (refused a (SqlPrepare q), σ);
     Driver.StmtExec := fun args σ => (refused a (SqlStmtExec args), σ);
     Driver.StmtClose := fun σ => σ;
     Driver.Exec := fun q args σ => (refused a (SqlExec q args), σ);
     Driver.QueryRow := fun _ _ σ => (found a, σ);
     Driver.QuerySnapshots := fun _ _ σ => (([], None), σ);
     Driver.QueryWindows := fun _ _ σ => (windows_found a, σ);
     Driver.RowsClose := fun σ => σ |}.

Definition json : Json.t :=
  {| Json.Marshal_tags := fun _ => ("[]", None);
     Json.Marshal_raw := fun _ => ("null", None);
     Json.Marshal_env := fun _ => ("null", None);
     Json.Unmarshal_tags := fun _ => ([], None) |}.

(** The snapshot "7f3c" is stored; its windows cannot be read. *)
Definition locked : answers :=
  {| refused := fun _ => None;
     found := Row (snapshot_row.mk "7f3c" "desk" "" 5 5 "main" "/srv/app" false "");
     windows_found := ([], Some "database is locked") |}.

Definition manager (a : answers) : capture.Manager (unit * list sql_call) :=
  {| capture.repo := SQLiteRepository (driver a) json;
     capture.platform_ :=
       {| capture.PlatformAdapter.GetWindows := fun σ => (([], None), σ);
          capture.PlatformAdapter.RestoreWindow := fun _ σ => (None, σ);
          capture.PlatformAdapter.GetTerminals := fun σ => (([], None), σ);
          capture.PlatformAdapter.GetBrowserTabs := fun σ => (([], None), σ);
          capture.PlatformAdapter.GetIDEFiles := fun σ => (([], None), σ) |};
     capture.host :=
       {| capture.Host.uuid_New := fun σ => ("7f3c", σ);
          capture.Host.time_Now := fun σ => (0, σ);
          capture.Host.DetectContext := fun _ σ => ((None, None), σ);
          capture.Host.Printf := fun _ σ => σ |} |}.

(** Three windows, the second of which the database refuses to insert. *)
Definition three_windows : list Window.t :=
  [inmemory.window "one" "code" 800 600; inmemory.window "two" "term" 800 600;
   inmemory.window "three" "code" 800 600].

Definition second_refused : answers :=
  {| refused := fun call =>
       match call with
       | SqlStmtExec (_ :: _ :: _ :: AString title :: _) =>
           if String.eqb title "two" then Some "constraint failed" else None
       | _ => None
       end;
     found := ErrNoRows;
     windows_found := ([], None) |}.

End bench.

(** * Properties of the matcher *)

Section MatcherProperties.
Import core platform WindowMatcher.
Context {go : GoStrings}.
Variable m : WindowMatcher.t.

(** ** The token rule and the totality of scoring *)

Lemma countCommonTokens_loop_empty (tokens2 : list string) (count : Z) :
  countCommonTokens_loop ∅ tokens2 count = count.
Proof.
  revert count; induction tokens2 as [|t rest IH]; intros count; simpl.
  - reflexivity.
  - rewrite bool_decide_eq_false_2 by set_solver. apply IH.
Qed.

Lemma countCommonTokens_nil (tokens2 : list string) :
  countCommonTokens [] tokens2 = 0.
Proof. unfold countCommonTokens; simpl. apply countCommonTokens_loop_empty. Qed.

Lemma len_nil_inv {A : Type} (l : list A) : GoInt.len l = 0 -> l = [].
Proof. destruct l; [reflexivity|]. unfold GoInt.len; simpl; lia. Qed.

Lemma common_tokens_need_target_tokens (tokens1 tokens2 : list string) :
  0 < countCommonTokens tokens1 tokens2 -> GoInt.len tokens1 <> 0.
Proof.
  intros Hpos Hlen. apply len_nil_inv in Hlen; subst tokens1.
  rewrite countCommonTokens_nil in Hpos. lia.
Qed.

Lemma scoreTitleMatch_tokens_total (target candidate : string) :
  exists v, scoreTitleMatch_tokens m target candidate = Ok v.
Proof.
  unfold scoreTitleMatch_tokens.
  destruct (0 <? countCommonTokens (Fields target) (Fields candidate)) eqn:Hpos.
  - apply Z.ltb_lt in Hpos.
    pose proof (common_tokens_need_target_tokens _ _ Hpos) as Hlen.
    unfold GoInt.div. apply Z.eqb_neq in Hlen. rewrite Hlen.
    eexists; reflexivity.
  - eexists; reflexivity.
Qed.

Lemma scoreTitleMatch_total (target candidate : string) :
  exists v, scoreTitleMatch m target candidate = Ok v.
Proof.
  unfold scoreTitleMatch.
  repeat match goal with
         | |- context [if ?b then _ else _] =>
             destruct b; [eexists; reflexivity|]
         end.
  apply scoreTitleMatch_tokens_total.
Qed.

Lemma calculateScore_total (target candidate : Window.t) :
  exists v, calculateScore m target candidate = Ok v.
Proof.
  unfold calculateScore.
  destruct (scoreTitleMatch_total (Window.WindowTitle target)
                                  (Window.WindowTitle candidate)) as [v Hv].
  rewrite Hv. eexists; reflexivity.
Qed.

(** C8. The division of the token rule is evaluated only when the target
    has at least one token: a target that tokenizes to no token gets the
    token score 0, and the token rule, the whole title score and the
    score of a pair of windows always return a value, never a division
    fault. *)
Theorem token_rule_never_divides_by_zero (target candidate : string) :
  (let commonTokens := countCommonTokens (Fields target) (Fields candidate) in
   if 0 <? commonTokens then GoInt.len (Fields target) <> 0
   else scoreTitleMatch_tokens m target candidate = Ok 0)
  /\ (if GoInt.len (Fields target) =? 0
      then scoreTitleMatch_tokens m target candidate = Ok 0
      else True)
  /\ (exists v, scoreTitleMatch_tokens m target candidate = Ok v)
  /\ (exists v, scoreTitleMatch m target candidate = Ok v)
  /\ (forall w1 w2 : Window.t, exists v, calculateScore m w1 w2 = Ok v).
Proof.
  repeat split.
  - simpl.
    destruct (0 <? countCommonTokens (Fields target) (Fields candidate)) eqn:Hpos.
    + apply Z.ltb_lt in Hpos.
      exact (common_tokens_need_target_tokens _ _ Hpos).
    + unfold scoreTitleMatch_tokens. now rewrite Hpos.
  - destruct (GoInt.len (Fields target) =? 0) eqn:Hlen; [|exact I].
    apply Z.eqb_eq, len_nil_inv in Hlen.
    unfold scoreTitleMatch_tokens. rewrite Hlen, countCommonTokens_nil.
    reflexivity.
  - apply scoreTitleMatch_tokens_total.
  - apply scoreTitleMatch_total.
  - apply calculateScore_total.
Qed.

End MatcherProperties.

(** ** The best match *)

Section BestMatch.
Import core platform WindowMatcher.
Context {go : GoStrings}.
Variable m : WindowMatcher.t.
Variable target : Window.t.

Lemma FindBestMatch_loop_cons candidate rest bestMatch score :
  calculateScore m target candidate = Ok score ->
  FindBestMatch_loop m target (candidate :: rest) bestMatch
  = FindBestMatch_loop m target rest (keep_best m bestMatch candidate score).
Proof. intros Hs. simpl. rewrite Hs. reflexivity. Qed.

Lemma best_of_snoc pre bestMatch candidate score :
  best_of m target pre bestMatch ->
  calculateScore m target candidate = Ok score ->
  best_of m target (pre ++ [candidate]) (keep_best m bestMatch candidate score).
Proof.
  intros Hbest Hscore. unfold keep_best.
  assert (Hnew : MinimumScore m <= score ->
                 (forall (j : nat) c s, pre !! j = Some c ->
                    calculateScore m target c = Ok s -> s < score) ->
                 first_maximum m target (pre ++ [candidate]) (MatchResult.mk candidate score)).
  { intros Hmin Hlt. exists (length pre). simpl. repeat split.
    - apply list_lookup_middle; reflexivity.
    - exact Hscore.
    - exact Hmin.
    - intros j c s Hj Hc. apply lookup_snoc_Some in Hj as [[_ Hj]|[_ <-]].
      + specialize (Hlt j c s Hj Hc). lia.
      + rewrite Hscore in Hc. injection Hc as <-. lia.
    - intros j c s Hlen Hj Hc. apply lookup_snoc_Some in Hj as [[_ Hj]|[-> _]].
      + exact (Hlt j c s Hj Hc).
      + lia. }
  destruct (MinimumScore m <=? score) eqn:Hmin.
  - apply Z.leb_le in Hmin. destruct bestMatch as [best|]; simpl in Hbest.
    + destruct (MatchResult.Score best <? score) eqn:Hgt.
      * apply Z.ltb_lt in Hgt. apply Hnew; [exact Hmin|].
        destruct Hbest as (i & _ & _ & _ & Hmax & _).
        intros j c s Hj Hc. specialize (Hmax j c s Hj Hc). lia.
      * apply Z.ltb_ge in Hgt.
        destruct Hbest as (i & Hi & Hsc & Hge & Hmax & Hfirst).
        exists i. repeat split; try assumption.
        -- rewrite lookup_app_l; [exact Hi|]. eapply lookup_lt_Some; exact Hi.
        -- intros j c s Hj Hc. apply lookup_snoc_Some in Hj as [[_ Hj]|[_ <-]].
           ++ exact (Hmax j c s Hj Hc).
           ++ rewrite Hscore in Hc. injection Hc as <-. exact Hgt.
        -- intros j c s Hlt Hj Hc.
           apply lookup_snoc_Some in Hj as [[_ Hj]|[-> _]].
           ++ exact (Hfirst j c s Hlt Hj Hc).
           ++ apply lookup_lt_Some in Hi. lia.
    + apply Hnew; [exact Hmin|].
      intros j c s Hj Hc. specialize (Hbest j c s Hj Hc). lia.
  - apply Z.leb_gt in Hmin. destruct bestMatch as [best|]; simpl in *.
    + destruct Hbest as (i & Hi & Hsc & Hge & Hmax & Hfirst).
      exists i. repeat split; try assumption.
      * rewrite lookup_app_l; [exact Hi|]. eapply lookup_lt_Some; exact Hi.
      * intros j c s Hj Hc. apply lookup_snoc_Some in Hj as [[_ Hj]|[_ <-]].
        -- exact (Hmax j c s Hj Hc).
        -- rewrite Hscore in Hc. injection Hc as <-. lia.
      * intros j c s Hlt Hj Hc.
        apply lookup_snoc_Some in Hj as [[_ Hj]|[-> _]].
        -- exact (Hfirst j c s Hlt Hj Hc).
        -- apply lookup_lt_Some in Hi. lia.
    + intros j c s Hj Hc. apply lookup_snoc_Some in Hj as [[_ Hj]|[_ <-]].
      * exact (Hbest j c s Hj Hc).
      * rewrite Hscore in Hc. injection Hc as <-. exact Hmin.
Qed.

Lemma FindBestMatch_loop_best_of rest pre bestMatch :
  best_of m target pre bestMatch ->
  exists r, FindBestMatch_loop m target rest bestMatch = Ok r
            /\ best_of m target (pre ++ rest) r.
Proof.
  revert pre bestMatch. induction rest as [|c rest IH]; intros pre bestMatch Hbest.
  - exists bestMatch. rewrite app_nil_r. split; [reflexivity|exact Hbest].
  - destruct (calculateScore_total m target c) as [s Hs].
    rewrite (FindBestMatch_loop_cons _ _ _ _ Hs).
    destruct (IH (pre ++ [c]) (keep_best m bestMatch c s)) as (r & Hr & Hbr).
    { now apply best_of_snoc. }
    exists r. split; [exact Hr|]. now rewrite <- app_assoc in Hbr.
Qed.

Lemma FindBestMatch_best_of candidates :
  exists r, FindBestMatch m target candidates = Ok r /\ best_of m target candidates r.
Proof.
  apply (FindBestMatch_loop_best_of candidates [] None).
  intros j c s Hj. rewrite lookup_nil in Hj. discriminate.
Qed.

(** C1. [FindBestMatch] never fails. When it returns a match, the match is
    a candidate of the list together with its score, the score reaches
    [MinimumScore], no candidate scores more, and every candidate before it
    in the list scores strictly less (the first maximum is kept). When it
    returns no match, no candidate reaches [MinimumScore]; an empty list
    gives no match. *)
Theorem FindBestMatch_returns_first_maximum (candidates : list Window.t) :
  (exists r, FindBestMatch m target candidates = Ok r
     /\ match r with
        | Some best =>
            exists i : nat,
              candidates !! i = Some (MatchResult.Window best)
              /\ calculateScore m target (MatchResult.Window best)
                 = Ok (MatchResult.Score best)
              /\ MinimumScore m <= MatchResult.Score best
              /\ (forall (j : nat) c s, candidates !! j = Some c ->
                    calculateScore m target c = Ok s -> s <= MatchResult.Score best)
              /\ (forall (j : nat) c s, (j < i)%nat -> candidates !! j = Some c ->
                    calculateScore m target c = Ok s -> s < MatchResult.Score best)
        | None =>
            forall (j : nat) c s, candidates !! j = Some c ->
              calculateScore m target c = Ok s -> s < MinimumScore m
        end)
  /\ FindBestMatch m target [] = Ok None.
Proof.
  split; [|reflexivity].
  destruct (FindBestMatch_best_of candidates) as (r & Hr & Hbest).
  exists r. split; [exact Hr|]. destruct r; exact Hbest.
Qed.

End BestMatch.

(** ** The greedy assignment *)

Section Assignment.
Import core platform WindowMatcher.
Context {go : GoStrings}.
Variable m : WindowMatcher.t.

Lemma elem_of_removeWindow (windows : list Window.t) (toRemove w : Window.t) :
  w ∈ removeWindow windows toRemove
  <-> w ∈ windows /\ ~ same_title_app w toRemove.
Proof.
  unfold removeWindow, same_title_app. rewrite list_elem_of_filter.
  split; intros [H1 H2]; split; try assumption.
  - intros [Ht Ha]. destruct H1 as [H1|H1]; contradiction.
  - destruct (decide (Window.WindowTitle w = Window.WindowTitle toRemove)) as [Ht|Ht];
      [|left; exact Ht].
    right. intros Ha. apply H2. split; assumption.
Qed.

Lemma assignment_invariant_step candidates available results target r :
  assignment_invariant candidates available results ->
  MatchResult.Window r ∈ available ->
  assignment_invariant candidates
    (removeWindow available (MatchResult.Window r))
    (<[Window.WindowTitle target := r]> results).
Proof.
  intros [Hpool Hdiff Hcand Hsub] Hin. split.
  - intros k r' w Hk Hw. apply elem_of_removeWindow in Hw as [Hw Hne].
    apply lookup_insert_Some in Hk as [[_ <-]|[_ Hk]].
    + exact Hne.
    + exact (Hpool k r' w Hk Hw).
  - intros k1 k2 r1 r2 Hne H1 H2.
    apply lookup_insert_Some in H1 as [[<- <-]|[Hk1 H1]];
      apply lookup_insert_Some in H2 as [[<- <-]|[Hk2 H2]].
    + contradiction.
    + exact (Hpool k2 r2 _ H2 Hin).
    + intros [Ht Ha]. apply (Hpool k1 r1 _ H1 Hin). split; congruence.
    + exact (Hdiff k1 k2 r1 r2 Hne H1 H2).
  - intros k r' Hk. apply lookup_insert_Some in Hk as [[_ <-]|[_ Hk]].
    + apply Hsub, Hin.
    + exact (Hcand k r' Hk).
  - intros w Hw. apply elem_of_removeWindow in Hw as [Hw _]. apply Hsub, Hw.
Qed.

Lemma MatchWindows_loop_invariant candidates targets available results :
  assignment_invariant candidates available results ->
  exists results' available',
    MatchWindows_loop m targets available results = Ok results'
    /\ assignment_invariant candidates available' results'.
Proof.
  revert available results.
  induction targets as [|target rest IH]; intros available results Hinv.
  - exists results, available. split; [reflexivity|exact Hinv].
  - simpl.
    destruct (FindBestMatch_best_of m target available) as (r & Hr & Hbest).
    rewrite Hr. simpl. destruct r as [r|].
    + apply IH. apply assignment_invariant_step; [exact Hinv|].
      destruct Hbest as (i & Hi & _). eapply list_elem_of_lookup_2; exact Hi.
    + apply IH, Hinv.
Qed.

(** What does hold of the assignment. [removeWindow] keeps exactly the
    windows that differ from the removed one in title or application,
    whatever their width. [MatchWindows] never fails, records only
    candidates, and the matches recorded for two different targets differ
    in title or application, and so in the triple of title, application
    and width. *)
Theorem MatchWindows_never_reuses_a_candidate (targets candidates : list Window.t) :
  (forall windows toRemove w,
      w ∈ removeWindow windows toRemove
      <-> w ∈ windows
          /\ (Window.WindowTitle w <> Window.WindowTitle toRemove
              \/ Window.AppName w <> Window.AppName toRemove))
  /\ exists results,
       MatchWindows m targets candidates = Ok results
       /\ (forall k r, results !! k = Some r -> MatchResult.Window r ∈ candidates)
       /\ (forall k1 k2 r1 r2, k1 <> k2 -> results !! k1 = Some r1 ->
             results !! k2 = Some r2 ->
             ~ same_title_app (MatchResult.Window r1) (MatchResult.Window r2))
       /\ (forall k1 k2 r1 r2, k1 <> k2 -> results !! k1 = Some r1 ->
             results !! k2 = Some r2 ->
             title_app_width (MatchResult.Window r1)
             <> title_app_width (MatchResult.Window r2)).
Proof.
  split.
  - intros windows toRemove w. unfold removeWindow.
    rewrite list_elem_of_filter. tauto.
  - destruct (MatchWindows_loop_invariant candidates targets candidates ∅)
      as (results & available & Hres & Hinv).
    { split.
      - intros k r w Hk. rewrite lookup_empty in Hk. discriminate.
      - intros k1 k2 r1 r2 _ Hk. rewrite lookup_empty in Hk. discriminate.
      - intros k r Hk. rewrite lookup_empty in Hk. discriminate.
      - auto. }
    exists results. destruct Hinv as [_ Hdiff Hcand _].
    split; [exact Hres|]. split; [exact Hcand|]. split; [exact Hdiff|].
    intros k1 k2 r1 r2 Hne H1 H2 Heq.
    apply (Hdiff k1 k2 r1 r2 Hne H1 H2).
    unfold title_app_width in Heq. injection Heq as Ht Ha _. split; assumption.
Qed.

End Assignment.

(** C2. The removal after a match takes more than the candidate used.
    Two live windows share title and application and differ in width; the
    first target takes the first of them. Removing that exact candidate,
    identified by title, application and width, leaves the second one for
    the second target, which matches it with score 160. [removeWindow]
    compares title and application only: it removes both, and the second
    target finds no match although an unused window of score 160 is
    there. *)
Lemma MatchWindows_removes_same_title_and_app_of_any_width :
  let c1 := inmemory.window "Doc" "editor" 100 100 in
  let c2 := inmemory.window "Doc" "editor" 200 200 in
  let t1 := inmemory.window "Doc" "editor" 100 100 in
  let t2 := inmemory.window "doc" "editor" 200 200 in
  let m := platform.DefaultMatcher in
  platform.removeWindow [c1; c2] c1 = []
  /\ removeWindow_by_title_app_width [c1; c2] c1 = [c2]
  /\ recorded (platform.MatchWindows (go := ascii_strings) m [t1; t2] [c1; c2]) "doc"
     = Ok None
  /\ recorded (MatchWindows_by_title_app_width (go := ascii_strings) m
                 [t1; t2] [c1; c2]) "doc"
     = Ok (Some (platform.MatchResult.mk c2 160)).
Proof. vm_compute. repeat split. Qed.

(** ** Empty target titles *)

Section EmptyTitle.
Import core platform WindowMatcher.
Context {go : GoStrings}.
Variable m : WindowMatcher.t.

(** C7 (amended). A target with the empty title never reaches the token
    rule: when lower-casing leaves the empty string empty and the empty
    string is contained in every string, as in Go, its title score is
    [ExactTitleScore] against a candidate whose title is empty (or empty
    once lower-cased), and [PartialTitleScore], from the substring rule,
    against every other candidate. *)
Theorem empty_target_title_scores_exact_or_substring (candidate : string) :
  ToLower "" = "" ->
  (forall s, Contains s "" = true) ->
  scoreTitleMatch m "" candidate
  = Ok (if String.eqb "" candidate || String.eqb "" (ToLower candidate)
        then ExactTitleScore m else PartialTitleScore m).
Proof.
  intros Hlower Hcontains. unfold scoreTitleMatch.
  destruct (String.eqb "" candidate); [reflexivity|].
  rewrite Hlower. cbn [orb].
  destruct (String.eqb "" (ToLower candidate)); [reflexivity|].
  rewrite Hcontains. reflexivity.
Qed.

End EmptyTitle.

Lemma empty_target_title_against_Editor :
  platform.scoreTitleMatch (go := ascii_strings) platform.DefaultMatcher "" "Editor"
  = Ok (if String.eqb "" "Editor" || String.eqb "" (ascii.ToLower "Editor")
        then 100 else 50).
Proof.
  apply (empty_target_title_scores_exact_or_substring (go := ascii_strings)).
  - reflexivity.
  - intros s. destruct s; reflexivity.
Defined.

(** C7, as stated, fails: against the candidate title "Editor" an empty
    target title scores 50 by the substring rule, although the two titles
    share no token and the token rule gives 0. *)
Lemma empty_target_title_gets_substring_score :
  platform.scoreTitleMatch (go := ascii_strings) platform.DefaultMatcher "" "Editor"
  = Ok 50
  /\ platform.scoreTitleMatch_tokens (go := ascii_strings) platform.DefaultMatcher
       "" "Editor" = Ok 0
  /\ platform.countCommonTokens (go := ascii_strings)
       (ascii.Fields "") (ascii.Fields "Editor") = 0.
Proof. vm_compute. repeat split. Qed.

(** ** Conversions of integers to [float64] *)

Section Float64Facts.

Lemma digits2_pos_lower (p : positive) :
  2 ^ (Z.pos (digits2_pos p) - 1) <= Z.pos p.
Proof.
  induction p as [p IH|p IH|]; simpl digits2_pos.
  - rewrite Pos2Z.inj_succ. replace (Z.succ (Z.pos (digits2_pos p)) - 1)
      with (Z.succ (Z.pos (digits2_pos p) - 1)) by lia.
    rewrite Z.pow_succ_r by lia. lia.
  - rewrite Pos2Z.inj_succ. replace (Z.succ (Z.pos (digits2_pos p)) - 1)
      with (Z.succ (Z.pos (digits2_pos p) - 1)) by lia.
    rewrite Z.pow_succ_r by lia. lia.
  - simpl. lia.
Qed.

Lemma shr_1_m (mrs : shr_record) :
  0 <= shr_m mrs -> shr_m (shr_1 mrs) = Z.shiftr (shr_m mrs) 1.
Proof.
  destruct mrs as [mm r s]. simpl. intros Hm.
  rewrite <- Z.div2_spec.
  destruct mm as [|[p|p|]|p]; try reflexivity; lia.
Qed.

Lemma iter_pos_shr_1_m (p : positive) (mrs : shr_record) :
  0 <= shr_m mrs ->
  shr_m (SpecFloat.iter_pos shr_1 p mrs) = Z.shiftr (shr_m mrs) (Z.pos p).
Proof.
  revert mrs. induction p as [p IH|p IH|]; intros mrs Hm; simpl SpecFloat.iter_pos.
  - assert (H1 : 0 <= shr_m (shr_1 mrs)).
    { rewrite shr_1_m by exact Hm. apply Z.shiftr_nonneg, Hm. }
    assert (H2 : 0 <= shr_m (SpecFloat.iter_pos shr_1 p (shr_1 mrs))).
    { rewrite IH by exact H1. apply Z.shiftr_nonneg, H1. }
    rewrite IH by exact H2. rewrite IH by exact H1. rewrite shr_1_m by exact Hm.
    rewrite !Z.shiftr_shiftr by lia. f_equal. lia.
  - assert (H2 : 0 <= shr_m (SpecFloat.iter_pos shr_1 p mrs)).
    { rewrite IH by exact Hm. apply Z.shiftr_nonneg, Hm. }
    rewrite IH by exact H2. rewrite IH by exact Hm.
    rewrite !Z.shiftr_shiftr by lia. f_equal. lia.
  - apply shr_1_m, Hm.
Qed.

Lemma shr_m_record_of_loc (mm : Z) (l : location) :
  shr_m (shr_record_of_loc mm l) = mm.
Proof. destruct l as [|[]]; reflexivity. Qed.

Lemma shiftr_pos_digits (p : positive) (n : Z) :
  0 <= n < Z.pos (digits2_pos p) -> 0 < Z.shiftr (Z.pos p) n.
Proof.
  intros Hn. rewrite Z.shiftr_div_pow2 by lia.
  apply Z.div_str_pos. split; [apply Z.pow_pos_nonneg; lia|].
  transitivity (2 ^ (Z.pos (digits2_pos p) - 1)).
  - apply Z.pow_le_mono_r; lia.
  - apply digits2_pos_lower.
Qed.

Lemma shr_fexp_pos (p : positive) (e : Z) (l : location) :
  emin Float64.prec Float64.emax < e + Z.pos (digits2_pos p) ->
  0 < shr_m (fst (shr_fexp Float64.prec Float64.emax (Z.pos p) e l))
  /\ emin Float64.prec Float64.emax
     <= snd (shr_fexp Float64.prec Float64.emax (Z.pos p) e l).
Proof.
  intros He. unfold shr_fexp, shr. simpl Zdigits2.
  set (n := fexp Float64.prec Float64.emax (Z.pos (digits2_pos p) + e) - e).
  assert (Hn : n < Z.pos (digits2_pos p)
               /\ emin Float64.prec Float64.emax <= e + n).
  { subst n. unfold fexp in *. unfold emin, Float64.prec, Float64.emax in *. lia. }
  destruct n as [|q|q] eqn:Hq; simpl fst; simpl snd.
  - rewrite shr_m_record_of_loc. lia.
  - rewrite iter_pos_shr_1_m by (rewrite shr_m_record_of_loc; lia).
    rewrite shr_m_record_of_loc. split; [|lia].
    apply shiftr_pos_digits. lia.
  - rewrite shr_m_record_of_loc. lia.
Qed.

Lemma round_nearest_even_pos (mm : Z) (l : location) :
  0 < mm -> 0 < round_nearest_even mm l.
Proof.
  intros Hm. destruct l as [|[]]; simpl; try lia.
  destruct (Z.even mm); lia.
Qed.

Lemma binary_round_aux_not_zero (s : bool) (p : positive) (e : Z) (l : location) :
  emin Float64.prec Float64.emax < e + Z.pos (digits2_pos p) ->
  is_number_not_zero (binary_round_aux Float64.prec Float64.emax s (Z.pos p) e l).
Proof.
  intros He. unfold binary_round_aux.
  destruct (shr_fexp_pos p e l He) as [Hm1 He1].
  destruct (shr_fexp Float64.prec Float64.emax (Z.pos p) e l) as [mrs1 e1].
  simpl fst in Hm1; simpl snd in He1.
  pose proof (round_nearest_even_pos (shr_m mrs1) (loc_of_shr_record mrs1) Hm1) as Hm2.
  destruct (round_nearest_even (shr_m mrs1) (loc_of_shr_record mrs1)) as [|p2|p2];
    try lia.
  destruct (shr_fexp_pos p2 e1 loc_Exact) as [Hm3 _]; [lia|].
  destruct (shr_fexp Float64.prec Float64.emax (Z.pos p2) e1 loc_Exact) as [mrs3 e3].
  simpl fst in Hm3.
  destruct (shr_m mrs3) as [|p3|p3]; try lia.
  destruct (e3 <=? Float64.emax - Float64.prec)%Z; exact I.
Qed.

Lemma binary_round_not_zero (s : bool) (p : positive) :
  is_number_not_zero (binary_round Float64.prec Float64.emax s p 0).
Proof.
  unfold binary_round, shl_align.
  set (ex := fexp Float64.prec Float64.emax (Z.pos (digits2_pos p) + 0)).
  assert (Hex : emin Float64.prec Float64.emax <= ex).
  { subst ex. unfold fexp. lia. }
  destruct (ex - 0) as [|d|d] eqn:Hd; apply binary_round_aux_not_zero.
  - unfold emin, Float64.prec, Float64.emax. lia.
  - unfold emin, Float64.prec, Float64.emax. lia.
  - lia.
Qed.

Lemma of_int_not_zero (z : Z) : z <> 0 -> is_number_not_zero (Float64.of_int z).
Proof.
  intros Hz. unfold Float64.of_int, binary_normalize.
  destruct z as [|p|p]; [contradiction| |]; apply binary_round_not_zero.
Qed.

Lemma zero_difference_is_similar (z : Z) :
  z <> 0 ->
  Float64.leb
    (Float64.div (Float64.abs (Float64.of_int (GoInt.sub z z))) (Float64.of_int z))
    Float64.lit_0_1 = true.
Proof.
  intros Hz. unfold GoInt.sub. rewrite Z.sub_diag.
  change (Float64.abs (Float64.of_int (GoInt.wrap 0))) with (S754_zero false).
  pose proof (of_int_not_zero z Hz) as Hf.
  destruct (Float64.of_int z) as [s|s| |s mm e]; try contradiction.
  - destruct s; reflexivity.
  - destruct s; reflexivity.
Qed.

End Float64Facts.

(** ** The score of a window against itself *)

Section SelfScore.
Import core platform WindowMatcher.
Context {go : GoStrings}.
Variable m : WindowMatcher.t.

Lemma isSimilarSize_self (W : Window.t) :
  Window.Width W <> 0 -> Window.Height W <> 0 -> isSimilarSize W W = true.
Proof.
  intros Hw Hh. unfold isSimilarSize.
  rewrite (zero_difference_is_similar _ Hw), (zero_difference_is_similar _ Hh).
  reflexivity.
Qed.

(** A window of non-zero width and height gets the three scores against
    itself. *)
Lemma self_score_with_size (W : Window.t) :
  Window.Width W <> 0 -> Window.Height W <> 0 ->
  calculateScore m W W
  = Ok (GoInt.add (GoInt.add (GoInt.add 0 (ExactTitleScore m)) (SameAppScore m))
                  (SameSizeScore m)).
Proof.
  intros Hw Hh. unfold calculateScore, scoreTitleMatch.
  rewrite !String.eqb_refl. simpl. rewrite (isSimilarSize_self W Hw Hh).
  reflexivity.
Qed.

(** A window of width zero gets no size score against itself. *)
Lemma self_score_without_width (W : Window.t) :
  Window.Width W = 0 ->
  calculateScore m W W
  = Ok (GoInt.add (GoInt.add 0 (ExactTitleScore m)) (SameAppScore m)).
Proof.
  intros Hw. unfold calculateScore, scoreTitleMatch.
  rewrite !String.eqb_refl. simpl. unfold isSimilarSize. rewrite Hw.
  reflexivity.
Qed.

End SelfScore.

Lemma self_score_default_matcher (W : core.Window.t) :
  core.Window.Width W <> 0 -> core.Window.Height W <> 0 ->
  platform.calculateScore (go := ascii_strings) platform.DefaultMatcher W W = Ok 160.
Proof. intros Hw Hh. rewrite (self_score_with_size _ W Hw Hh). reflexivity. Qed.

(** C6 fails on the code for a window of width or height zero:
    [isSimilarSize] divides by [float64] of the target's width and height,
    the quotient of zero by zero is not a number, no comparison with it
    holds, and the window gets 150 against itself with the default
    configuration, not 160. *)
Theorem self_score_of_zero_size_window :
  let W := inmemory.window "A" "app" 0 0 in
  platform.calculateScore (go := ascii_strings) platform.DefaultMatcher W W = Ok 150
  /\ platform.isSimilarSize W W = false
  /\ Float64.div (Float64.abs (Float64.of_int (GoInt.sub 0 0))) (Float64.of_int 0)
     = S754_nan
  /\ Float64.leb S754_nan Float64.lit_0_1 = false.
Proof. vm_compute. repeat split. Qed.

(** * Properties of the restore orchestrator *)

Section RestoreProperties.
Import core snapshot.
Context {World : Type}.
Variable m : ManagerV2 World.

Lemma wrap_in_range (z : Z) : GoInt.in_range z -> GoInt.wrap z = z.
Proof.
  unfold GoInt.in_range, GoInt.wrap, GoInt.min_int, GoInt.max_int. intros Hz.
  rewrite Z.mod_small; lia.
Qed.

Lemma restore_answers_length (ws : list Window.t) (σ : World) :
  length (fst (restore_answers m ws σ)) = length ws.
Proof.
  revert σ. induction ws as [|w rest IH]; intros σ; simpl; [reflexivity|].
  destruct (plat_RestoreWindow (platform_ m) w σ) as [answer σ'].
  specialize (IH σ'). destruct (restore_answers m rest σ') as [answers σ''].
  simpl in *. now rewrite IH.
Qed.

Lemma Restore_loop_run (ws : list Window.t) (report : RestoreReport.t)
    (σ : World) (tr : list call) :
  Restore_loop m ws report (σ, tr)
  = (loop_report ws (fst (restore_answers m ws σ)) report,
     (snd (restore_answers m ws σ), tr ++ map CallRestoreWindow ws)).
Proof.
  revert report σ tr. induction ws as [|w rest IH]; intros report σ tr.
  - simpl. now rewrite app_nil_r.
  - simpl. unfold mbind, M_bind, invoke. simpl.
    destruct (plat_RestoreWindow (platform_ m) w σ) as [answer σ'].
    destruct answer as [e|]; rewrite IH;
      destruct (restore_answers m rest σ') as [answers σ'']; simpl;
      now rewrite <- app_assoc.
Qed.

(** The fields of the report that the loop builds. *)
Lemma loop_report_fields (ws : list Window.t) (answers : list (option error))
    (report : RestoreReport.t) :
  length answers = length ws ->
  GoInt.in_range (RestoreReport.RestoredWindows report) ->
  RestoreReport.RestoredWindows report + GoInt.len ws <= GoInt.max_int ->
  loop_report ws answers report
  = RestoreReport.mk
      (RestoreReport.SnapshotID report)
      (RestoreReport.TotalWindows report)
      (RestoreReport.RestoredWindows report + restored_count answers)
      (RestoreReport.FailedWindows report ++ failed_titles ws answers)
      (RestoreReport.MissingApps report)
      (RestoreReport.Errors report ++ error_lines ws answers)
      (RestoreReport.Success report)
      (RestoreReport.DryRun report)
      (RestoreReport.Error report)
      (RestoreReport.Message report)
      (RestoreReport.StartTime report)
      (RestoreReport.EndTime report)
      (RestoreReport.Duration report).
Proof.
  revert answers report. induction ws as [|w rest IH]; intros answers report Hlen Hr Hmax.
  - destruct answers; [|discriminate]. simpl.
    rewrite Z.add_0_r, !app_nil_r. now destruct report.
  - destruct answers as [|[e|] answers]; [discriminate| |]; simpl in Hlen;
      injection Hlen as Hlen; unfold GoInt.len in Hmax; simpl length in Hmax;
      rewrite Nat2Z.inj_succ in Hmax; simpl.
    + rewrite IH; simpl; try assumption.
      * now rewrite <- !app_assoc.
      * unfold GoInt.len. lia.
    + assert (Hadd : GoInt.add (RestoreReport.RestoredWindows report) 1
                     = RestoreReport.RestoredWindows report + 1).
      { unfold GoInt.add. apply wrap_in_range.
        unfold GoInt.in_range in *. lia. }
      rewrite IH; simpl; rewrite ?Hadd; try assumption.
      * f_equal. lia.
      * unfold GoInt.in_range in *. lia.
      * unfold GoInt.len. lia.
Qed.

Lemma restored_count_bounds (answers : list (option error)) :
  0 <= restored_count answers <= GoInt.len answers.
Proof.
  unfold GoInt.len. induction answers as [|[e|] rest IH]; simpl length;
    rewrite ?Nat2Z.inj_succ; simpl restored_count; lia.
Qed.

Lemma restored_and_failed (ws : list Window.t) (answers : list (option error)) :
  length answers = length ws ->
  restored_count answers + GoInt.len (failed_titles ws answers) = GoInt.len ws
  /\ length (error_lines ws answers) = length (failed_titles ws answers).
Proof.
  unfold GoInt.len. revert answers.
  induction ws as [|w rest IH]; intros [|[e|] answers] Hlen; try discriminate;
    simpl in *; try (split; [lia|reflexivity]);
    injection Hlen as Hlen; destruct (IH answers Hlen) as [H1 H2]; split; lia.
Qed.

Lemma restored_count_pos (answers : list (option error)) :
  0 < restored_count answers <-> exists i : nat, answers !! i = Some None.
Proof.
  induction answers as [|[e|] rest IH]; simpl restored_count.
  - split; [lia|]. intros [i Hi]. rewrite lookup_nil in Hi. discriminate.
  - rewrite IH. split.
    + intros [i Hi]. exists (S i). exact Hi.
    + intros [[|i] Hi]; [discriminate|]. exists i. exact Hi.
  - pose proof (restored_count_bounds rest). split; [|lia].
    intros _. exists 0%nat. reflexivity.
Qed.

End RestoreProperties.

Section RestoreTheorems.
Import core snapshot.
Context {World : Type}.
Variable m : ManagerV2 World.

Lemma validateApps_run (ws : list Window.t) (σ σ' : World) (tr : list call)
    (currentWindows : list Window.t) (err : option error) :
  plat_GetWindows (platform_ m) σ = ((currentWindows, err), σ') ->
  validateApps m ws (σ, tr)
  = (missing_apps currentWindows err ws, (σ', tr ++ [CallPlatformGetWindows])).
Proof.
  intros H. unfold validateApps, mbind, M_bind, invoke. simpl. rewrite H.
  destruct err; reflexivity.
Qed.

Lemma validateApps_loop_elem (availableApps : gset string) (ws : list Window.t)
    (checked : gset string) (missing : list string) (a : string) :
  a ∈ validateApps_loop availableApps ws checked missing
  <-> a ∈ missing
      \/ ((a ∉ checked) /\ (a ∉ availableApps)
          /\ exists w, w ∈ ws /\ Window.AppName w = a).
Proof.
  revert checked missing. induction ws as [|w0 rest IH]; intros checked missing; simpl.
  - split; [auto|]. intros [H|(_ & _ & w & Hw & _)]; [exact H|].
    apply elem_of_nil in Hw. contradiction.
  - case_bool_decide as Hchecked; [|case_bool_decide as Havail]; rewrite IH; clear IH.
    + split; (intros [H|(Hc & Ha & w & Hw & Happ)]; [left; exact H|right]).
      * repeat split; try assumption. exists w. split; [now right|assumption].
      * repeat split; try assumption. exists w. split; [|assumption].
        apply elem_of_cons in Hw as [->|Hw]; [|exact Hw]. congruence.
    + split; (intros [H|(Hc & Ha & w & Hw & Happ)]; [left; exact H|right]).
      * repeat split; try assumption; [set_solver|].
        exists w. split; [now right|assumption].
      * repeat split; try assumption.
        -- intros Hin. apply elem_of_union in Hin as [Hin|Hin]; [|contradiction].
           apply elem_of_singleton in Hin. congruence.
        -- exists w. split; [|assumption].
           apply elem_of_cons in Hw as [->|Hw]; [|exact Hw]. congruence.
    + split.
      * intros [H|(Hc & Ha & w & Hw & Happ)].
        -- apply elem_of_app in H as [H|H]; [left; exact H|right].
           apply list_elem_of_singleton in H. subst a.
           repeat split; try assumption. exists w0. split; [now left|reflexivity].
        -- right. repeat split; try assumption; [set_solver|].
           exists w. split; [now right|assumption].
      * intros [H|(Hc & Ha & w & Hw & Happ)].
        -- left. apply elem_of_app. now left.
        -- destruct (decide (a = Window.AppName w0)) as [->|Hne].
           ++ left. apply elem_of_app. right. now apply list_elem_of_singleton.
           ++ right. repeat split; try assumption.
              ** intros Hin. apply elem_of_union in Hin as [Hin|Hin];
                   [|contradiction].
                 apply elem_of_singleton in Hin. contradiction.
              ** exists w. split; [|assumption].
                 apply elem_of_cons in Hw as [->|Hw]; [|exact Hw]. congruence.
Qed.

Lemma missing_apps_elem (currentWindows ws : list Window.t) (a : string) :
  a ∈ missing_apps currentWindows None ws
  <-> (exists w, w ∈ ws /\ Window.AppName w = a)
      /\ (forall c, c ∈ currentWindows -> Window.AppName c <> a).
Proof.
  unfold missing_apps. rewrite validateApps_loop_elem. split.
  - intros [H|(_ & Ha & Hw)]; [apply elem_of_nil in H; contradiction|].
    split; [exact Hw|]. intros c Hc Heq. apply Ha.
    apply elem_of_list_to_set, list_elem_of_fmap. exists c. split; [now symmetry|exact Hc].
  - intros [Hw Hcur]. right. repeat split; [set_solver| |exact Hw].
    intros Hin. apply elem_of_list_to_set, list_elem_of_fmap in Hin as (c & Heq & Hc).
    apply (Hcur c Hc). now symmetry.
Qed.

(** The start of [Restore]: the snapshot and its windows are loaded and the
    report is created. *)
Lemma Restore_loaded (snapshotID : string) (opts : RestoreOptionsV2.t)
    (σ0 σ1 σ2 σ3 : World) (tr : list call) (s : Snapshot.t)
    (ws : list Window.t) (t0 : Time) :
  repo_GetSnapshotByID (repo m) snapshotID σ0 = ((Some s, None), σ1) ->
  repo_GetWindows (repo m) snapshotID σ1 = ((ws, None), σ2) ->
  time_Now m σ2 = (t0, σ3) ->
  Restore m snapshotID opts (σ0, tr)
  = (let report := initial_report snapshotID ws t0 in
     let s := Snapshot.set_Windows s ws in
     if RestoreOptionsV2.ValidateBeforeRestore opts then
       missing ← validateApps m ws;
       let report := RestoreReport.set_MissingApps missing report in
       if (0 <? GoInt.len missing) && negb (RestoreOptionsV2.SkipMissingApps opts)
       then
         ret (Some (RestoreReport.set_Error
                      ("missing applications: " +:+ fmt_strings missing)
                      (RestoreReport.set_Success false report)),
              Some "cannot restore: missing applications")
       else Restore_apply m opts s report
     else Restore_apply m opts s report)
      (σ3, tr ++ [CallGetSnapshotByID snapshotID; CallRepoGetWindows snapshotID;
                  CallNow]).
Proof.
  intros H1 H2 H3. unfold Restore, mbind, M_bind, invoke. simpl.
  rewrite H1. simpl. rewrite H2. simpl. rewrite H3. simpl.
  rewrite <- !app_assoc. reflexivity.
Qed.

Lemma len_pos_iff {A : Type} (l : list A) : (0 <? GoInt.len l) = false <-> l = [].
Proof.
  unfold GoInt.len. destruct l; simpl length.
  - split; reflexivity.
  - split; [|discriminate]. intros H. apply Z.ltb_ge in H. lia.
Qed.

(** Past the validation step. *)
Lemma Restore_validated (snapshotID : string) (opts : RestoreOptionsV2.t)
    (σ0 σ1 σ2 σ3 σ4 : World) (tr : list call) (s : Snapshot.t)
    (ws : list Window.t) (t0 : Time) :
  repo_GetSnapshotByID (repo m) snapshotID σ0 = ((Some s, None), σ1) ->
  repo_GetWindows (repo m) snapshotID σ1 = ((ws, None), σ2) ->
  time_Now m σ2 = (t0, σ3) ->
  validation_passes m opts ws σ3 σ4 ->
  exists missing,
    Restore m snapshotID opts (σ0, tr)
    = Restore_apply m opts (Snapshot.set_Windows s ws)
        (RestoreReport.set_MissingApps missing (initial_report snapshotID ws t0))
        (σ4, tr ++ [CallGetSnapshotByID snapshotID; CallRepoGetWindows snapshotID;
                    CallNow] ++ validation_calls opts).
Proof.
  intros H1 H2 H3 Hgate. rewrite (Restore_loaded _ _ _ _ _ _ _ _ _ _ H1 H2 H3).
  unfold validation_passes, validation_calls in *. cbv zeta.
  destruct (RestoreOptionsV2.ValidateBeforeRestore opts).
  - destruct Hgate as (cur & err & Hcur & Hpass).
    exists (missing_apps cur err ws).
    unfold mbind, M_bind. rewrite (validateApps_run _ _ _ _ _ _ Hcur).
    rewrite <- app_assoc.
    destruct Hpass as [Hskip|Hnone].
    + rewrite Hskip. rewrite andb_false_r. reflexivity.
    + rewrite Hnone. reflexivity.
  - subst σ4. exists []. rewrite app_nil_r. reflexivity.
Qed.

Lemma loop_report_frame (ws : list Window.t) (answers : list (option error))
    (report : RestoreReport.t) :
  RestoreReport.MissingApps (loop_report ws answers report)
  = RestoreReport.MissingApps report
  /\ RestoreReport.Error (loop_report ws answers report)
     = RestoreReport.Error report.
Proof.
  revert answers report. induction ws as [|w rest IH]; intros answers report.
  - destruct answers; split; reflexivity.
  - destruct answers as [|[e|] answers]; simpl; [split; reflexivity| |];
      match goal with
      | |- context [loop_report rest answers ?r] =>
          destruct (IH answers r) as [H1 H2]; rewrite H1, H2
      end; split; reflexivity.
Qed.

(** The report of a restore that is not a dry run, once the loop is over. *)
Lemma Restore_apply_run (opts : RestoreOptionsV2.t) (s : Snapshot.t)
    (report : RestoreReport.t) (σ : World) (tr : list call) :
  RestoreOptionsV2.DryRun opts = false ->
  exists final,
    Restore_apply m opts s report (σ, tr)
    = ((Some final, None),
       (snd (time_Now m (snd (restore_answers m (Snapshot.Windows s) σ))),
        tr ++ map CallRestoreWindow (Snapshot.Windows s) ++ [CallNow]))
    /\ (let looped :=
          loop_report (Snapshot.Windows s)
                      (fst (restore_answers m (Snapshot.Windows s) σ)) report in
        RestoreReport.TotalWindows final = RestoreReport.TotalWindows looped
        /\ RestoreReport.RestoredWindows final = RestoreReport.RestoredWindows looped
        /\ RestoreReport.FailedWindows final = RestoreReport.FailedWindows looped
        /\ RestoreReport.Errors final = RestoreReport.Errors looped
        /\ RestoreReport.MissingApps final = RestoreReport.MissingApps looped
        /\ RestoreReport.Error final = RestoreReport.Error looped
        /\ RestoreReport.DryRun final = RestoreReport.DryRun looped
        /\ RestoreReport.Success final
           = (0 <? RestoreReport.RestoredWindows looped)).
Proof.
  intros Hdry. unfold Restore_apply. rewrite Hdry.
  unfold mbind, M_bind. rewrite Restore_loop_run.
  unfold invoke. cbn [fst snd].
  destruct (time_Now m (snd (restore_answers m (Snapshot.Windows s) σ)))
    as [now σ'].
  set (looped := loop_report _ _ _).
  cbn [fst snd].
  match goal with
  | |- context [if ?c then _ else _] => destruct c
  end;
    (eexists; split; [unfold ret, mret, M_ret; rewrite <- app_assoc; reflexivity|];
     repeat split; reflexivity).
Qed.

(** C3. When the snapshot and its windows are loaded, validation lets the
    restore go on and it is not a dry run, [Restore] returns a report and
    no error. It calls [RestoreWindow] once for every stored window, in
    order, whatever the earlier calls answered. The report counts the
    successful calls in [RestoredWindows], lists the title of every failed
    window and one error line for it, and its [Success] flag is true
    exactly when some window was restored. *)
Theorem Restore_reports_failed_windows_and_continues
    (snapshotID : string) (opts : RestoreOptionsV2.t)
    (σ0 σ1 σ2 σ3 σ4 : World) (tr : list call) (s : Snapshot.t)
    (ws : list Window.t) (t0 : Time) :
  repo_GetSnapshotByID (repo m) snapshotID σ0 = ((Some s, None), σ1) ->
  repo_GetWindows (repo m) snapshotID σ1 = ((ws, None), σ2) ->
  time_Now m σ2 = (t0, σ3) ->
  validation_passes m opts ws σ3 σ4 ->
  RestoreOptionsV2.DryRun opts = false ->
  GoInt.len ws <= GoInt.max_int ->
  let answers := fst (restore_answers m ws σ4) in
  exists report,
    Restore m snapshotID opts (σ0, tr)
    = ((Some report, None),
       (snd (time_Now m (snd (restore_answers m ws σ4))),
        tr ++ [CallGetSnapshotByID snapshotID; CallRepoGetWindows snapshotID;
               CallNow]
           ++ validation_calls opts
           ++ map CallRestoreWindow ws ++ [CallNow]))
    /\ RestoreReport.TotalWindows report = GoInt.len ws
    /\ RestoreReport.RestoredWindows report = restored_count answers
    /\ RestoreReport.FailedWindows report = failed_titles ws answers
    /\ RestoreReport.Errors report = error_lines ws answers
    /\ RestoreReport.RestoredWindows report
       + GoInt.len (RestoreReport.FailedWindows report)
       = RestoreReport.TotalWindows report
    /\ length (RestoreReport.Errors report)
       = length (RestoreReport.FailedWindows report)
    /\ RestoreReport.Success report = (0 <? RestoreReport.RestoredWindows report)
    /\ (RestoreReport.Success report = true
        <-> exists i : nat, answers !! i = Some None).
Proof.
  intros H1 H2 H3 Hgate Hdry Hlen answers.
  destruct (Restore_validated _ opts _ _ _ _ _ tr _ _ _ H1 H2 H3 Hgate)
    as [missing Hrun].
  destruct (Restore_apply_run opts (Snapshot.set_Windows s ws)
              (RestoreReport.set_MissingApps missing
                 (initial_report snapshotID ws t0))
              σ4
              (tr ++ [CallGetSnapshotByID snapshotID;
                      CallRepoGetWindows snapshotID; CallNow]
                  ++ validation_calls opts) Hdry)
    as (final & Hfinal & Hfields).
  simpl Snapshot.Windows in Hfinal, Hfields.
  rewrite loop_report_fields in Hfields; cycle 1.
  { apply restore_answers_length. }
  { simpl. unfold GoInt.in_range, GoInt.min_int, GoInt.max_int. lia. }
  { simpl. lia. }
  simpl in Hfields.
  destruct Hfields as (Htotal & Hrestored & Hfailed & Herrors & _ & _ & _ & Hsuccess).
  fold answers in Hrestored, Hfailed, Herrors, Hsuccess.
  destruct (restored_and_failed ws answers) as [Hsum Hlines].
  { apply restore_answers_length. }
  exists final. rewrite Hrun, Hfinal, Htotal, Hrestored, Hfailed, Herrors, Hsuccess.
  repeat split.
  - rewrite <- !app_assoc. reflexivity.
  - exact Hsum.
  - exact Hlines.
  - intros Hpos. apply Z.ltb_lt in Hpos. now apply restored_count_pos.
  - intros Hex. apply Z.ltb_lt. now apply restored_count_pos.
Qed.

(** C4. With validation on and [skipMissingApps] off, when the platform
    returns the live windows and some stored window belongs to an
    application that none of them has, [Restore] returns at once: the only
    calls are the two loads, the clock and the enumeration of the live
    windows, none is [RestoreWindow]; it returns an error together with a
    report whose [Success] is false, whose [RestoredWindows] is 0 and whose
    [MissingApps] are the applications of the stored windows that have no
    live window. *)
Theorem Restore_fails_on_missing_application
    (snapshotID : string) (opts : RestoreOptionsV2.t)
    (σ0 σ1 σ2 σ3 σ4 : World) (tr : list call) (s : Snapshot.t)
    (ws currentWindows : list Window.t) (t0 : Time) (w : Window.t) :
  repo_GetSnapshotByID (repo m) snapshotID σ0 = ((Some s, None), σ1) ->
  repo_GetWindows (repo m) snapshotID σ1 = ((ws, None), σ2) ->
  time_Now m σ2 = (t0, σ3) ->
  RestoreOptionsV2.ValidateBeforeRestore opts = true ->
  RestoreOptionsV2.SkipMissingApps opts = false ->
  plat_GetWindows (platform_ m) σ3 = ((currentWindows, None), σ4) ->
  w ∈ ws ->
  (forall c, c ∈ currentWindows -> Window.AppName c <> Window.AppName w) ->
  exists report,
    Restore m snapshotID opts (σ0, tr)
    = ((Some report, Some "cannot restore: missing applications"),
       (σ4, tr ++ [CallGetSnapshotByID snapshotID; CallRepoGetWindows snapshotID;
                   CallNow; CallPlatformGetWindows]))
    /\ RestoreReport.Success report = false
    /\ RestoreReport.RestoredWindows report = 0
    /\ RestoreReport.FailedWindows report = []
    /\ RestoreReport.DryRun report = false
    /\ Window.AppName w ∈ RestoreReport.MissingApps report
    /\ (forall a, a ∈ RestoreReport.MissingApps report
                  <-> (exists w', w' ∈ ws /\ Window.AppName w' = a)
                      /\ (forall c, c ∈ currentWindows -> Window.AppName c <> a))
    /\ RestoreReport.Error report
       = "missing applications: " +:+ fmt_strings (RestoreReport.MissingApps report).
Proof.
  intros H1 H2 H3 Hvalidate Hskip Hcur Hw Hmissing.
  rewrite (Restore_loaded _ _ _ _ _ _ _ _ _ _ H1 H2 H3). cbv zeta.
  rewrite Hvalidate, Hskip. unfold mbind, M_bind.
  rewrite (validateApps_run _ _ _ _ _ _ Hcur).
  assert (Hin : Window.AppName w ∈ missing_apps currentWindows None ws).
  { apply missing_apps_elem. split; [exists w; split; [exact Hw|reflexivity]|].
    exact Hmissing. }
  assert (Hpos : (0 <? GoInt.len (missing_apps currentWindows None ws)) = true).
  { destruct (0 <? GoInt.len (missing_apps currentWindows None ws)) eqn:E;
      [reflexivity|].
    apply len_pos_iff in E. rewrite E in Hin. apply elem_of_nil in Hin.
    contradiction. }
  rewrite Hpos. simpl andb. cbv iota.
  eexists. split; [unfold ret, mret, M_ret; rewrite <- app_assoc; reflexivity|].
  split; [reflexivity|]. split; [reflexivity|]. split; [reflexivity|].
  split; [reflexivity|]. split; [exact Hin|].
  split; [|reflexivity].
  intros a. exact (missing_apps_elem currentWindows ws a).
Qed.

(** The calls of a dry run. *)
Lemma Restore_dry_run_calls (snapshotID : string) (opts : RestoreOptionsV2.t)
    (σ : World) (tr : list call) :
  RestoreOptionsV2.DryRun opts = true ->
  filter (fun c => is_RestoreWindow c = true)
         (snd (snd (Restore m snapshotID opts (σ, tr))))
  = filter (fun c => is_RestoreWindow c = true) tr.
Proof.
  intros Hdry.
  unfold Restore, Restore_apply, validateApps, ret, mret, M_ret, mbind, M_bind,
    invoke.
  rewrite Hdry. cbn [fst snd].
  destruct (repo_GetSnapshotByID (repo m) snapshotID σ) as [[s [e|]] σ1];
    cbn [fst snd]; [now rewrite filter_app, app_nil_r|].
  destruct s as [s|]; cbn [fst snd]; [|now rewrite filter_app, app_nil_r].
  destruct (repo_GetWindows (repo m) snapshotID σ1) as [[ws [e|]] σ2];
    cbn [fst snd]; [now rewrite !filter_app, !app_nil_r|].
  destruct (time_Now m σ2) as [t0 σ3]. cbn [fst snd].
  destruct (RestoreOptionsV2.ValidateBeforeRestore opts); cbn [fst snd];
    [|now rewrite !filter_app, !app_nil_r].
  destruct (plat_GetWindows (platform_ m) σ3) as [[cur [e|]] σ4]; cbn [fst snd];
    repeat match goal with
           | |- context [if ?c then _ else _] => destruct c
           end;
    cbn [fst snd]; now rewrite !filter_app, !app_nil_r.
Qed.

(** C5 (amended). A restore with [dryRun] never calls [RestoreWindow].
    When the snapshot and its windows are loaded and the validation step
    lets the restore go on, it returns no error and a report with [DryRun]
    and [Success] true and the message that no changes were made. *)
Theorem Restore_dry_run_repositions_nothing
    (snapshotID : string) (opts : RestoreOptionsV2.t) :
  RestoreOptionsV2.DryRun opts = true ->
  (forall (σ : World) (tr : list call),
      filter (fun c => is_RestoreWindow c = true)
             (snd (snd (Restore m snapshotID opts (σ, tr))))
      = filter (fun c => is_RestoreWindow c = true) tr)
  /\ (forall (σ0 σ1 σ2 σ3 σ4 : World) (tr : list call) (s : Snapshot.t)
             (ws : list Window.t) (t0 : Time),
        repo_GetSnapshotByID (repo m) snapshotID σ0 = ((Some s, None), σ1) ->
        repo_GetWindows (repo m) snapshotID σ1 = ((ws, None), σ2) ->
        time_Now m σ2 = (t0, σ3) ->
        validation_passes m opts ws σ3 σ4 ->
        exists report,
          Restore m snapshotID opts (σ0, tr)
          = ((Some report, None),
             (σ4, tr ++ [CallGetSnapshotByID snapshotID;
                         CallRepoGetWindows snapshotID; CallNow]
                     ++ validation_calls opts))
          /\ RestoreReport.DryRun report = true
          /\ RestoreReport.Success report = true
          /\ RestoreReport.Message report = "Dry run completed - no changes made"
          /\ RestoreReport.RestoredWindows report = 0
          /\ RestoreReport.TotalWindows report = GoInt.len ws).
Proof.
  intros Hdry. split.
  - intros σ tr. now apply Restore_dry_run_calls.
  - intros σ0 σ1 σ2 σ3 σ4 tr s ws t0 H1 H2 H3 Hgate.
    destruct (Restore_validated _ opts _ _ _ _ _ tr _ _ _ H1 H2 H3 Hgate)
      as [missing Hrun].
    rewrite Hrun. unfold Restore_apply. rewrite Hdry.
    eexists. split; [reflexivity|]. repeat split.
Qed.

Lemma Restore_apply_returns_report (opts : RestoreOptionsV2.t) (s : Snapshot.t)
    (report : RestoreReport.t) (σ : World) (tr : list call) :
  exists final rest,
    Restore_apply m opts s report (σ, tr) = ((Some final, None), rest)
    /\ RestoreReport.MissingApps final = RestoreReport.MissingApps report
    /\ RestoreReport.Error final = RestoreReport.Error report.
Proof.
  destruct (RestoreOptionsV2.DryRun opts) eqn:Hdry.
  - unfold Restore_apply. rewrite Hdry. eexists. eexists.
    split; [reflexivity|]. split; reflexivity.
  - destruct (Restore_apply_run opts s report σ tr Hdry)
      as (final & Hfinal & Hfields).
    exists final. eexists. split; [exact Hfinal|].
    cbv zeta in Hfields.
    destruct Hfields as (_ & _ & _ & _ & Hmissing & Herror & _).
    rewrite Hmissing, Herror. apply loop_report_frame.
Qed.

(** C10. When the enumeration of the live windows fails during validation,
    [validateApps] returns the empty list, which is its answer when every
    application is present; [Restore] goes on from the initial report as
    it does past a successful validation, for either value of
    [skipMissingApps], and returns a report and no error: the report has no
    missing application and an empty [Error], so that the failure [e] of
    the enumeration does not reach the caller. *)
Theorem Restore_ignores_enumeration_failure
    (snapshotID : string) (opts : RestoreOptionsV2.t)
    (σ0 σ1 σ2 σ3 σ4 : World) (tr : list call) (s : Snapshot.t)
    (ws currentWindows : list Window.t) (t0 : Time) (e : error) :
  repo_GetSnapshotByID (repo m) snapshotID σ0 = ((Some s, None), σ1) ->
  repo_GetWindows (repo m) snapshotID σ1 = ((ws, None), σ2) ->
  time_Now m σ2 = (t0, σ3) ->
  RestoreOptionsV2.ValidateBeforeRestore opts = true ->
  plat_GetWindows (platform_ m) σ3 = ((currentWindows, Some e), σ4) ->
  (forall tr', validateApps m ws (σ3, tr')
               = ([], (σ4, tr' ++ [CallPlatformGetWindows])))
  /\ (forall live : list Window.t,
        (forall w, w ∈ ws -> exists c, c ∈ live /\ Window.AppName c = Window.AppName w) ->
        missing_apps live None ws = [])
  /\ validation_passes m opts ws σ3 σ4
  /\ Restore m snapshotID opts (σ0, tr)
     = Restore_apply m opts (Snapshot.set_Windows s ws)
         (initial_report snapshotID ws t0)
         (σ4, tr ++ [CallGetSnapshotByID snapshotID; CallRepoGetWindows snapshotID;
                     CallNow; CallPlatformGetWindows])
  /\ exists report rest,
       Restore m snapshotID opts (σ0, tr) = ((Some report, None), rest)
       /\ RestoreReport.MissingApps report = []
       /\ RestoreReport.Error report = "".
Proof.
  intros H1 H2 H3 Hvalidate Hcur.
  assert (Hrun : Restore m snapshotID opts (σ0, tr)
                 = Restore_apply m opts (Snapshot.set_Windows s ws)
                     (initial_report snapshotID ws t0)
                     (σ4, tr ++ [CallGetSnapshotByID snapshotID;
                                 CallRepoGetWindows snapshotID;
                                 CallNow; CallPlatformGetWindows])).
  { rewrite (Restore_loaded _ _ _ _ _ _ _ _ _ _ H1 H2 H3). cbv zeta.
    rewrite Hvalidate. unfold mbind, M_bind.
    rewrite (validateApps_run _ _ _ _ _ _ Hcur). simpl missing_apps.
    rewrite <- app_assoc. reflexivity. }
  split; [|split; [|split; [|split]]].
  - intros tr'. exact (validateApps_run _ _ _ _ _ _ Hcur).
  - intros live Hall. destruct (missing_apps live None ws) as [|a rest] eqn:E;
      [reflexivity|].
    assert (Ha : a ∈ missing_apps live None ws) by (rewrite E; now left).
    apply missing_apps_elem in Ha as [(w & Hw & Happ) Hnone].
    destruct (Hall w Hw) as (c & Hc & Hcw). exfalso. apply (Hnone c Hc). congruence.
  - unfold validation_passes. rewrite Hvalidate.
    exists currentWindows, (Some e). split; [exact Hcur|]. right. reflexivity.
  - exact Hrun.
  - rewrite Hrun.
    destruct (Restore_apply_returns_report opts (Snapshot.set_Windows s ws)
                (initial_report snapshotID ws t0) σ4
                (tr ++ [CallGetSnapshotByID snapshotID;
                        CallRepoGetWindows snapshotID;
                        CallNow; CallPlatformGetWindows]))
      as (final & rest & Hfinal & Hmissing & Herror).
    exists final, rest. split; [exact Hfinal|]. split; assumption.
Qed.

End RestoreTheorems.

(** ** The restore scenarios on the in-memory world *)

(** Restoring three windows of which the second fails: two restored, one
    failure, success. *)
Lemma Restore_second_of_three_fails :
  exists report,
    fst (snapshot.Restore inmemory.manager "s1"
           (snapshot.RestoreOptionsV2.mk false false false) (scenario.start, []))
    = (Some report, None)
    /\ snapshot.RestoreReport.TotalWindows report = 3
    /\ snapshot.RestoreReport.RestoredWindows report = 2
    /\ snapshot.RestoreReport.FailedWindows report = ["two"]
    /\ length (snapshot.RestoreReport.Errors report) = 1%nat
    /\ snapshot.RestoreReport.Success report = true.
Proof.
  destruct (Restore_reports_failed_windows_and_continues inmemory.manager "s1"
              (snapshot.RestoreOptionsV2.mk false false false)
              scenario.start scenario.start scenario.start
              (inmemory.tick scenario.start) (inmemory.tick scenario.start)
              [] (inmemory.snapshot_of "s1") scenario.windows 5
              eq_refl eq_refl eq_refl eq_refl eq_refl
              ltac:(vm_compute; discriminate))
    as (report & Hrun & Htotal & Hrestored & Hfailed & Herrors & _ & _ & Hsuccess & _).
  exists report. rewrite Hrun, Htotal, Hsuccess, Hrestored, Hfailed, Herrors.
  vm_compute. repeat split.
Defined.

(** With validation on, the application "term" has no live window: the
    restore is refused before any window is repositioned. *)
Lemma Restore_refused_for_missing_term :
  exists report,
    fst (snapshot.Restore inmemory.manager "s1"
           (snapshot.RestoreOptionsV2.mk true false false) (scenario.start, []))
    = (Some report, Some "cannot restore: missing applications")
    /\ snapshot.RestoreReport.Success report = false
    /\ snapshot.RestoreReport.RestoredWindows report = 0
    /\ "term" ∈ snapshot.RestoreReport.MissingApps report.
Proof.
  destruct (Restore_fails_on_missing_application inmemory.manager "s1"
              (snapshot.RestoreOptionsV2.mk true false false)
              scenario.start scenario.start scenario.start
              (inmemory.tick scenario.start) (inmemory.tick scenario.start)
              [] (inmemory.snapshot_of "s1") scenario.windows
              (inmemory.live scenario.start) 5
              (inmemory.window "two" "term" 800 600)
              eq_refl eq_refl eq_refl eq_refl eq_refl eq_refl)
    as (report & Hrun & Hsuccess & Hrestored & _ & _ & Hin & _).
  - vm_compute. right. left.
  - intros c Hc. apply list_elem_of_singleton in Hc. subst c. discriminate.
  - exists report. rewrite Hrun. repeat split; assumption.
Defined.

(** A dry run with validation off. *)
Lemma Restore_dry_run_of_three :
  (forall (σ : inmemory.world) tr,
      filter (fun c => snapshot.is_RestoreWindow c = true)
             (snd (snd (snapshot.Restore inmemory.manager "s1"
                          (snapshot.RestoreOptionsV2.mk false false true) (σ, tr))))
      = filter (fun c => snapshot.is_RestoreWindow c = true) tr)
  /\ exists report,
       fst (snapshot.Restore inmemory.manager "s1"
              (snapshot.RestoreOptionsV2.mk false false true) (scenario.start, []))
       = (Some report, None)
       /\ snapshot.RestoreReport.DryRun report = true
       /\ snapshot.RestoreReport.Success report = true.
Proof.
  destruct (Restore_dry_run_repositions_nothing inmemory.manager "s1"
              (snapshot.RestoreOptionsV2.mk false false true) eq_refl)
    as [Hcalls Hreport].
  split; [exact Hcalls|].
  destruct (Hreport scenario.start scenario.start scenario.start
              (inmemory.tick scenario.start) (inmemory.tick scenario.start)
              [] (inmemory.snapshot_of "s1") scenario.windows 5
              eq_refl eq_refl eq_refl eq_refl)
    as (report & Hrun & Hdry & Hsuccess & _).
  exists report. rewrite Hrun. repeat split; assumption.
Defined.

(** C5, as stated, fails: with validation on and a missing application, a
    restore with [dryRun] returns an error and a report whose [Success] and
    [DryRun] are both false. *)
Lemma Restore_dry_run_refused_by_validation :
  let result :=
    fst (snapshot.Restore inmemory.manager "s1"
           (snapshot.RestoreOptionsV2.mk true false true) (scenario.start, [])) in
  option_map snapshot.RestoreReport.Success (fst result) = Some false
  /\ option_map snapshot.RestoreReport.DryRun (fst result) = Some false
  /\ option_map snapshot.RestoreReport.MissingApps (fst result) = Some ["term"]
  /\ snd result = Some "cannot restore: missing applications".
Proof. vm_compute. repeat split. Qed.

(** The enumeration of the live windows fails: the restore goes on and
    reports no missing application. *)
Lemma Restore_blind_validation_passes :
  exists report rest,
    snapshot.Restore inmemory.manager "s1"
      (snapshot.RestoreOptionsV2.mk true false false) (scenario.start_blind, [])
    = ((Some report, None), rest)
    /\ snapshot.RestoreReport.MissingApps report = []
    /\ snapshot.RestoreReport.Error report = "".
Proof.
  destruct (Restore_ignores_enumeration_failure inmemory.manager "s1"
              (snapshot.RestoreOptionsV2.mk true false false)
              scenario.start_blind scenario.start_blind scenario.start_blind
              (inmemory.tick scenario.start_blind)
              (inmemory.tick scenario.start_blind)
              [] (inmemory.snapshot_of "s1") scenario.windows [] 5
              "EnumWindows failed"
              eq_refl eq_refl eq_refl eq_refl eq_refl)
    as (_ & _ & _ & _ & Hreport).
  exact Hreport.
Defined.

(** * Properties of the diff *)

Section DiffProperties.
Import core snapshot.

Lemma Diff_loop2_fields (titles1 : gset string) (keys : list string)
    (diff : DiffResult.t) :
  DiffResult.AddedWindows (Diff_loop2 titles1 keys diff)
  = DiffResult.AddedWindows diff ++ filter (fun t => t ∉ titles1) keys
  /\ DiffResult.RemovedWindows (Diff_loop2 titles1 keys diff)
     = DiffResult.RemovedWindows diff.
Proof.
  revert diff. induction keys as [|t rest IH]; intros diff; simpl.
  - now rewrite app_nil_r.
  - destruct (IH (if bool_decide (t ∈ titles1)
                  then DiffResult.set_CommonWindows
                         (GoInt.add (DiffResult.CommonWindows diff) 1) diff
                  else DiffResult.set_AddedWindows
                         (DiffResult.AddedWindows diff ++ [t]) diff))
      as [Hadded Hremoved].
    rewrite Hadded, Hremoved. rewrite filter_cons.
    case_bool_decide as Hin.
    + rewrite decide_False by (intros Hn; contradiction). split; reflexivity.
    + rewrite decide_True by exact Hin. simpl. rewrite <- app_assoc.
      split; reflexivity.
Qed.

Lemma Diff_loop1_fields (titles2 : gset string) (keys : list string)
    (diff : DiffResult.t) :
  DiffResult.RemovedWindows (Diff_loop1 titles2 keys diff)
  = DiffResult.RemovedWindows diff ++ filter (fun t => t ∉ titles2) keys
  /\ DiffResult.AddedWindows (Diff_loop1 titles2 keys diff)
     = DiffResult.AddedWindows diff.
Proof.
  revert diff. induction keys as [|t rest IH]; intros diff; simpl.
  - now rewrite app_nil_r.
  - destruct (IH (if bool_decide (t ∈ titles2) then diff
                  else DiffResult.set_RemovedWindows
                         (DiffResult.RemovedWindows diff ++ [t]) diff))
      as [Hremoved Hadded].
    rewrite Hadded, Hremoved. rewrite filter_cons.
    case_bool_decide as Hin.
    + rewrite decide_False by (intros Hn; contradiction). split; reflexivity.
    + rewrite decide_True by exact Hin. simpl. rewrite <- app_assoc.
      split; reflexivity.
Qed.

(** The added and the removed titles of a diff, whatever the orders of its
    two loops. *)
Lemma Diff_windows_fields (range2 range1 : map_range) (id1 id2 : string)
    (s1 s2 : Snapshot.t) (w1 w2 : list Window.t) :
  DiffResult.AddedWindows (Diff_windows range2 range1 id1 id2 s1 s2 w1 w2)
  = filter (fun t => t ∉ titles w1) (range2 (titles w2))
  /\ DiffResult.RemovedWindows (Diff_windows range2 range1 id1 id2 s1 s2 w1 w2)
     = filter (fun t => t ∉ titles w2) (range1 (titles w1)).
Proof.
  unfold Diff_windows. cbv zeta. fold (titles w1) (titles w2).
  match goal with
  | |- context [Diff_loop1 _ _ (Diff_loop2 ?t1 ?k ?d)] =>
      destruct (Diff_loop2_fields t1 k d) as [Ha2 Hr2];
      destruct (Diff_loop1_fields (titles w2) (range1 (titles w1))
                  (Diff_loop2 t1 k d)) as [Hr1 Ha1]
  end.
  rewrite Ha1, Hr1, Ha2, Hr2. split; reflexivity.
Qed.

(** C9. For two window lists [A] and [B], whatever the orders in which the
    loops of the two calls visit the title sets, the titles that
    [diff(A, B)] reports as added are those that [diff(B, A)] reports as
    removed, and conversely: the lists are equal up to order and equal as
    sets. A title is added when it is a title of [B] and not of [A], and
    removed when it is a title of [A] and not of [B]. *)
Theorem Diff_added_is_removed_of_converse
    (range2 range1 range2' range1' : map_range) (id1 id2 : string)
    (s1 s2 : Snapshot.t) (A B : list Window.t) :
  range_ok range2 -> range_ok range1 -> range_ok range2' -> range_ok range1' ->
  let forward := Diff_windows range2 range1 id1 id2 s1 s2 A B in
  let backward := Diff_windows range2' range1' id2 id1 s2 s1 B A in
  DiffResult.AddedWindows forward ≡ₚ DiffResult.RemovedWindows backward
  /\ DiffResult.RemovedWindows forward ≡ₚ DiffResult.AddedWindows backward
  /\ (list_to_set (DiffResult.AddedWindows forward) : gset string)
     = list_to_set (DiffResult.RemovedWindows backward)
  /\ (list_to_set (DiffResult.RemovedWindows forward) : gset string)
     = list_to_set (DiffResult.AddedWindows backward)
  /\ (forall t, t ∈ DiffResult.AddedWindows forward
                <-> t ∈ titles B /\ t ∉ titles A)
  /\ (forall t, t ∈ DiffResult.RemovedWindows forward
                <-> t ∈ titles A /\ t ∉ titles B).
Proof.
  intros H2 H1 H2' H1' forward backward.
  destruct (Diff_windows_fields range2 range1 id1 id2 s1 s2 A B) as [Hfa Hfr].
  destruct (Diff_windows_fields range2' range1' id2 id1 s2 s1 B A) as [Hba Hbr].
  fold forward in Hfa, Hfr. fold backward in Hba, Hbr.
  assert (Hadded : DiffResult.AddedWindows forward
                   ≡ₚ DiffResult.RemovedWindows backward).
  { rewrite Hfa, Hbr. rewrite (H2 (titles B)), (H1' (titles B)). reflexivity. }
  assert (Hremoved : DiffResult.RemovedWindows forward
                     ≡ₚ DiffResult.AddedWindows backward).
  { rewrite Hfr, Hba. rewrite (H1 (titles A)), (H2' (titles A)). reflexivity. }
  split; [exact Hadded|]. split; [exact Hremoved|].
  split; [|split; [|split]].
  - apply set_eq. intros t. rewrite !elem_of_list_to_set. now rewrite Hadded.
  - apply set_eq. intros t. rewrite !elem_of_list_to_set. now rewrite Hremoved.
  - intros t. rewrite Hfa, list_elem_of_filter, (H2 (titles B)), elem_of_elements.
    tauto.
  - intros t. rewrite Hfr, list_elem_of_filter, (H1 (titles A)), elem_of_elements.
    tauto.
Qed.

(** [Diff] compares the window lists that the repository returns; an error
    of [GetWindows] is dropped and the list it comes with is compared. *)
Lemma Diff_run {World : Type} (m : ManagerV2 World) (range2 range1 : map_range)
    (id1 id2 : string) (σ0 σ1 σ2 σ3 σ4 : World) (tr : list call)
    (s1 s2 : Snapshot.t) (w1 w2 : list Window.t) (e1 e2 : option error) :
  repo_GetSnapshotByID (repo m) id1 σ0 = ((Some s1, None), σ1) ->
  repo_GetSnapshotByID (repo m) id2 σ1 = ((Some s2, None), σ2) ->
  repo_GetWindows (repo m) id1 σ2 = ((w1, e1), σ3) ->
  repo_GetWindows (repo m) id2 σ3 = ((w2, e2), σ4) ->
  Diff m range2 range1 id1 id2 (σ0, tr)
  = ((Some (Diff_windows range2 range1 id1 id2 s1 s2 w1 w2), None),
     (σ4, tr ++ [CallGetSnapshotByID id1; CallGetSnapshotByID id2;
                 CallRepoGetWindows id1; CallRepoGetWindows id2])).
Proof.
  intros H1 H2 H3 H4.
  unfold Diff, ret, mret, M_ret, mbind, M_bind, invoke. cbn [fst snd].
  rewrite H1. cbn [fst snd]. rewrite H2. cbn [fst snd].
  rewrite H3. cbn [fst snd]. rewrite H4. cbn [fst snd].
  rewrite <- !app_assoc. reflexivity.
Qed.

End DiffProperties.

Lemma range_ok_elements : snapshot.range_ok elements.
Proof. intros s. reflexivity. Qed.

(** The titles "A", "B" against the titles "B", "C": "C" is added and "A"
    is removed, and the other way round for the converse diff. *)
Lemma Diff_of_AB_and_BC :
  let A := [inmemory.window "A" "code" 800 600; inmemory.window "B" "code" 800 600] in
  let B := [inmemory.window "B" "code" 800 600; inmemory.window "C" "code" 800 600] in
  let s := inmemory.snapshot_of "s" in
  let forward := snapshot.Diff_windows elements elements "a" "b" s s A B in
  let backward := snapshot.Diff_windows elements elements "b" "a" s s B A in
  snapshot.DiffResult.AddedWindows forward
  ≡ₚ snapshot.DiffResult.RemovedWindows backward
  /\ snapshot.DiffResult.AddedWindows forward = ["C"]
  /\ snapshot.DiffResult.RemovedWindows forward = ["A"]
  /\ snapshot.DiffResult.CommonWindows forward = 1.
Proof.
  intros A B s forward backward.
  destruct (Diff_added_is_removed_of_converse elements elements elements elements
              "a" "b" s s A B
              range_ok_elements range_ok_elements range_ok_elements
              range_ok_elements)
    as (Hadded & _).
  split; [exact Hadded|]. vm_compute. repeat split.
Defined.

(** * Further properties of the matcher *)

Section MatcherExtras.
Import core platform WindowMatcher.
Context {go : GoStrings}.
Variable m : WindowMatcher.t.

Lemma common_runes_count (set1 set2 : gset Z) :
  length (filter (fun c => c ∈ set2) (elements set1))
  = length (filter (fun c => c ∈ set1) (elements set2)).
Proof.
  apply Permutation_length, NoDup_Permutation.
  - apply NoDup_filter, NoDup_elements.
  - apply NoDup_filter, NoDup_elements.
  - intros x. rewrite !list_elem_of_filter, !elem_of_elements. tauto.
Qed.

(** X1. The similarity of two strings does not depend on their order. *)
Theorem stringSimilarity_symmetric (s1 s2 : string) :
  stringSimilarity s1 s2 = stringSimilarity s2 s1.
Proof.
  unfold stringSimilarity. rewrite (String.eqb_sym s2 s1).
  destruct (String.eqb s1 s2); [reflexivity|]. cbv zeta.
  unfold GoInt.len. rewrite (common_runes_count (list_to_set (runes s1))).
  assert (Hadd : forall a b, GoInt.add a b = GoInt.add b a).
  { intros a b. unfold GoInt.add. now rewrite Z.add_comm. }
  rewrite (Hadd (Z.of_nat (size (list_to_set (runes s1) : gset Z)))).
  reflexivity.
Qed.

(** X2. [removeWindow] keeps the other windows in their order, removes
    every window with the title and the application of [toRemove], among
    them [toRemove] itself, and removing twice or in another order changes
    nothing. *)
Theorem removeWindow_algebra (windows : list Window.t) (a b : Window.t) :
  removeWindow windows a `sublist_of` windows
  /\ (forall w, w ∈ removeWindow windows a ->
        Window.WindowTitle w <> Window.WindowTitle a
        \/ Window.AppName w <> Window.AppName a)
  /\ (a ∈ windows -> (length (removeWindow windows a) < length windows)%nat)
  /\ removeWindow (removeWindow windows a) a = removeWindow windows a
  /\ removeWindow (removeWindow windows a) b
     = removeWindow (removeWindow windows b) a.
Proof.
  unfold removeWindow. split; [apply sublist_filter|].
  split; [intros w Hw; apply list_elem_of_filter in Hw; tauto|].
  split.
  { intros Hin. apply (length_filter_lt _ _ a Hin). tauto. }
  split.
  - rewrite list_filter_filter. apply list_filter_iff. tauto.
  - rewrite !list_filter_filter. apply list_filter_iff. tauto.
Qed.

Lemma MatchWindows_loop_no_candidates targets results :
  MatchWindows_loop m targets [] results = Ok results.
Proof. induction targets as [|t rest IH]; simpl; [reflexivity|exact IH]. Qed.

Lemma assignment_facts_step done candidates available results target r :
  assignment_facts m done candidates available results ->
  first_maximum m target available r ->
  assignment_facts m (done ++ [target]) candidates
    (removeWindow available (MatchResult.Window r))
    (<[Window.WindowTitle target := r]> results).
Proof.
  intros [Hscores Htargets Hpool] (i & Hi & Hscore & Hmin & _). split.
  - intros k r' Hk. apply lookup_insert_Some in Hk as [[<- <-]|[_ Hk]].
    + split; [exact Hmin|]. exists target. split; [|split; [reflexivity|exact Hscore]].
      apply elem_of_app. right. now left.
    + destruct (Hscores k r' Hk) as (Hm & t & Ht & Htitle & Hs).
      split; [exact Hm|]. exists t. split; [|split; assumption].
      apply elem_of_app. now left.
  - rewrite length_app. simpl. rewrite map_size_insert.
    destruct (results !! Window.WindowTitle target); simpl; unfold id; lia.
  - assert (Hlt : (length (removeWindow available (MatchResult.Window r))
                   < length available)%nat).
    { apply (length_filter_lt _ _ (MatchResult.Window r)).
      - eapply list_elem_of_lookup_2; exact Hi.
      - tauto. }
    rewrite map_size_insert.
    destruct (results !! Window.WindowTitle target); simpl; unfold id; lia.
Qed.

Lemma MatchWindows_loop_facts candidates rest done available results :
  assignment_facts m done candidates available results ->
  exists results' available',
    MatchWindows_loop m rest available results = Ok results'
    /\ assignment_facts m (done ++ rest) candidates available' results'.
Proof.
  revert done available results.
  induction rest as [|target rest IH]; intros done available results Hinv.
  - exists results, available. rewrite app_nil_r. split; [reflexivity|exact Hinv].
  - simpl.
    destruct (FindBestMatch_best_of m target available) as (r & Hr & Hbest).
    rewrite Hr. simpl. replace (done ++ target :: rest)
      with ((done ++ [target]) ++ rest) by now rewrite <- app_assoc.
    destruct r as [r|].
    + apply IH. now apply assignment_facts_step.
    + apply IH. destruct Hinv as [Hscores Htargets Hpool]. split.
      * intros k r Hk. destruct (Hscores k r Hk) as (Hm & t & Ht & Htitle & Hs).
        split; [exact Hm|]. exists t. split; [|split; assumption].
        apply elem_of_app. now left.
      * rewrite length_app. simpl. lia.
      * exact Hpool.
Qed.

(** X3. Every match that [MatchWindows] records is recorded under the
    title of a target, with the score of its candidate against that target,
    and this score reaches [MinimumScore]. There are at most as many
    matches as targets and as candidates, and none without candidates. *)
Theorem MatchWindows_records_acceptable_matches (targets candidates : list Window.t) :
  (exists results,
      MatchWindows m targets candidates = Ok results
      /\ (forall k r, results !! k = Some r ->
            MinimumScore m <= MatchResult.Score r
            /\ exists target, target ∈ targets /\ Window.WindowTitle target = k
                 /\ calculateScore m target (MatchResult.Window r)
                    = Ok (MatchResult.Score r))
      /\ (size results <= length targets)%nat
      /\ (size results <= length candidates)%nat)
  /\ MatchWindows m targets [] = Ok ∅.
Proof.
  split; [|apply MatchWindows_loop_no_candidates].
  destruct (MatchWindows_loop_facts candidates targets [] candidates ∅)
    as (results & available & Hres & [Hscores Htargets Hpool]).
  { split.
    - intros k r Hk. rewrite lookup_empty in Hk. discriminate.
    - rewrite map_size_empty. simpl. lia.
    - rewrite map_size_empty. simpl. lia. }
  exists results. split; [exact Hres|]. split; [exact Hscores|].
  simpl in Htargets. split; lia.
Qed.

Lemma FindBestMatch_at_least (target : Window.t) (candidates : list Window.t)
    (c : Window.t) (s : Z) :
  c ∈ candidates ->
  calculateScore m target c = Ok s ->
  MinimumScore m <= s ->
  exists best, FindBestMatch m target candidates = Ok (Some best)
               /\ s <= MatchResult.Score best.
Proof.
  intros Hin Hs Hmin.
  destruct (FindBestMatch_best_of m target candidates) as (r & Hr & Hbest).
  apply list_elem_of_lookup_1 in Hin as [j Hj].
  destruct r as [best|].
  - exists best. split; [exact Hr|].
    destruct Hbest as (i & _ & _ & _ & Hmax & _). exact (Hmax j c s Hj Hs).
  - specialize (Hbest j c s Hj Hs). lia.
Qed.

(** The size test fails for every candidate when the target has width or
    height zero. *)
Lemma leb_quotient_by_zero (z : Z) :
  Float64.leb (Float64.div (Float64.abs (Float64.of_int z)) (Float64.of_int 0))
              Float64.lit_0_1 = false.
Proof.
  destruct (Z.eq_dec z 0) as [->|Hz]; [reflexivity|].
  pose proof (of_int_not_zero z Hz) as Hf.
  destruct (Float64.of_int z) as [s|s| |s mm e]; try contradiction; reflexivity.
Qed.

(** X5. A target of width or height zero never passes the size test,
    whatever the candidate: its score is the title score, plus
    [SameAppScore] for a candidate of the same application, and never
    includes [SameSizeScore]. *)
Theorem zero_size_target_never_similar (w1 w2 : Window.t) :
  Window.Width w1 = 0 \/ Window.Height w1 = 0 ->
  isSimilarSize w1 w2 = false
  /\ calculateScore m w1 w2
     = (title ← scoreTitleMatch m (Window.WindowTitle w1) (Window.WindowTitle w2);
        Ok (if String.eqb (Window.AppName w1) (Window.AppName w2)
            then GoInt.add (GoInt.add 0 title) (SameAppScore m)
            else GoInt.add 0 title)).
Proof.
  intros Hzero.
  assert (Hsim : isSimilarSize w1 w2 = false).
  { unfold isSimilarSize. destruct Hzero as [Hw|Hh].
    - rewrite Hw, leb_quotient_by_zero. reflexivity.
    - rewrite Hh, leb_quotient_by_zero. apply andb_false_r. }
  split; [exact Hsim|]. unfold calculateScore. rewrite Hsim. reflexivity.
Qed.

End MatcherExtras.

Lemma self_score_default_cases {go : GoStrings} (W : core.Window.t) :
  platform.calculateScore platform.DefaultMatcher W W
  = Ok (if platform.isSimilarSize W W then 160 else 150).
Proof.
  unfold platform.calculateScore, platform.scoreTitleMatch.
  rewrite !String.eqb_refl. simpl. destruct (platform.isSimilarSize W W); reflexivity.
Qed.

(** X4. With the default configuration, a target that is itself among the
    candidates always gets a match, of score at least 150, and at least 160
    when its width and height are not zero. *)
Theorem FindBestMatch_finds_present_window {go : GoStrings}
    (target : core.Window.t) (candidates : list core.Window.t) :
  target ∈ candidates ->
  exists best,
    platform.FindBestMatch platform.DefaultMatcher target candidates = Ok (Some best)
    /\ 150 <= platform.MatchResult.Score best
    /\ (if (core.Window.Width target =? 0) || (core.Window.Height target =? 0)
        then True else 160 <= platform.MatchResult.Score best).
Proof.
  intros Hin.
  destruct (FindBestMatch_at_least platform.DefaultMatcher target candidates target
              (if platform.isSimilarSize target target then 160 else 150)
              Hin (self_score_default_cases target))
    as (best & Hbest & Hscore).
  { simpl. destruct (platform.isSimilarSize target target); lia. }
  exists best. split; [exact Hbest|]. split.
  - destruct (platform.isSimilarSize target target); lia.
  - destruct (core.Window.Width target =? 0) eqn:Hw; [exact I|].
    destruct (core.Window.Height target =? 0) eqn:Hh; [exact I|]. simpl.
    apply Z.eqb_neq in Hw, Hh.
    rewrite (isSimilarSize_self target Hw Hh) in Hscore. exact Hscore.
Qed.

Lemma zero_size_target_against_any :
  platform.isSimilarSize (inmemory.window "A" "app" 0 600)
                         (inmemory.window "A" "app" 800 600) = false.
Proof.
  apply (zero_size_target_never_similar (go := ascii_strings)
           platform.DefaultMatcher
           (inmemory.window "A" "app" 0 600) (inmemory.window "A" "app" 800 600)).
  left. reflexivity.
Defined.

Lemma present_window_is_found :
  exists best,
    platform.FindBestMatch (go := ascii_strings) platform.DefaultMatcher
      (inmemory.window "two" "term" 800 600) scenario.windows = Ok (Some best)
    /\ 150 <= platform.MatchResult.Score best.
Proof.
  destruct (FindBestMatch_finds_present_window (go := ascii_strings)
              (inmemory.window "two" "term" 800 600) scenario.windows)
    as (best & Hbest & Hscore & _).
  - right. left.
  - exists best. split; assumption.
Defined.

(** * Further properties of the restore orchestrator *)

Section RestoreExtras.
Import core snapshot.
Context {World : Type}.
Variable m : ManagerV2 World.

Lemma loop_report_total (ws : list Window.t) (answers : list (option error))
    (report : RestoreReport.t) :
  RestoreReport.TotalWindows (loop_report ws answers report)
  = RestoreReport.TotalWindows report.
Proof.
  revert answers report. induction ws as [|w rest IH]; intros [|[e|] answers] report;
    simpl; try reflexivity; now rewrite IH.
Qed.

Lemma Restore_apply_total (opts : RestoreOptionsV2.t) (s : Snapshot.t)
    (report : RestoreReport.t) (st : World * list call) :
  exists final,
    fst (fst (Restore_apply m opts s report st)) = Some final
    /\ RestoreReport.TotalWindows final = RestoreReport.TotalWindows report.
Proof.
  destruct st as [σ tr]. destruct (RestoreOptionsV2.DryRun opts) eqn:Hdry.
  - unfold Restore_apply. rewrite Hdry. eexists. split; reflexivity.
  - destruct (Restore_apply_run m opts s report σ tr Hdry)
      as (final & Hfinal & Hfields).
    exists final. rewrite Hfinal. split; [reflexivity|].
    cbv zeta in Hfields. destruct Hfields as (Htot & _).
    rewrite Htot. apply loop_report_total.
Qed.

(** X6. [Restore] returns a report exactly when the snapshot and its
    windows are loaded. A failing or empty answer of the repository gives
    the error named after the failed step and no report, and then neither
    the clock nor the platform has been called. *)
Theorem Restore_returns_report_iff_loaded (snapshotID : string)
    (opts : RestoreOptionsV2.t) (σ : World) (tr : list call) :
  match repo_GetSnapshotByID (repo m) snapshotID σ with
  | ((_, Some e), σ1) =>
      Restore m snapshotID opts (σ, tr)
      = ((None, Some ("failed to get snapshot: " +:+ e)),
         (σ1, tr ++ [CallGetSnapshotByID snapshotID]))
  | ((None, None), σ1) =>
      Restore m snapshotID opts (σ, tr)
      = ((None, Some "snapshot not found"),
         (σ1, tr ++ [CallGetSnapshotByID snapshotID]))
  | ((Some s, None), σ1) =>
      match repo_GetWindows (repo m) snapshotID σ1 with
      | ((_, Some e), σ2) =>
          Restore m snapshotID opts (σ, tr)
          = ((None, Some ("failed to get windows: " +:+ e)),
             (σ2, tr ++ [CallGetSnapshotByID snapshotID;
                         CallRepoGetWindows snapshotID]))
      | ((ws, None), σ2) =>
          exists report,
            fst (fst (Restore m snapshotID opts (σ, tr))) = Some report
            /\ RestoreReport.TotalWindows report = GoInt.len ws
      end
  end.
Proof.
  destruct (repo_GetSnapshotByID (repo m) snapshotID σ) as [[s err] σ1] eqn:H1.
  destruct err as [e|].
  - destruct s; unfold Restore, ret, mret, M_ret, mbind, M_bind, invoke;
      cbn [fst snd]; rewrite H1; reflexivity.
  - destruct s as [s|].
    + destruct (repo_GetWindows (repo m) snapshotID σ1) as [[ws err] σ2] eqn:H2.
      destruct err as [e|].
      * unfold Restore, ret, mret, M_ret, mbind, M_bind, invoke. cbn [fst snd].
        rewrite H1. cbn [fst snd]. rewrite H2. cbn [fst snd].
        destruct ws; now rewrite <- app_assoc.
      * destruct (time_Now m σ2) as [t0 σ3] eqn:H3.
        rewrite (Restore_loaded m _ opts _ _ _ _ tr _ _ _ H1 H2 H3). cbv zeta.
        destruct (RestoreOptionsV2.ValidateBeforeRestore opts);
          [|apply Restore_apply_total].
        destruct (plat_GetWindows (platform_ m) σ3) as [[cur err] σ4] eqn:Hcur.
        unfold mbind, M_bind. rewrite (validateApps_run m _ _ _ _ _ _ Hcur).
        match goal with
        | |- context [if ?c then _ else _] => destruct c
        end.
        -- eexists. split; reflexivity.
        -- apply (Restore_apply_total opts (Snapshot.set_Windows s ws)
                    (RestoreReport.set_MissingApps (missing_apps cur err ws)
                       (initial_report snapshotID ws t0))).
    + unfold Restore, ret, mret, M_ret, mbind, M_bind, invoke. cbn [fst snd].
      rewrite H1. reflexivity.
Qed.

(** The message and the times of a restore that is not a dry run. *)
Lemma Restore_apply_message (opts : RestoreOptionsV2.t) (s : Snapshot.t)
    (report : RestoreReport.t) (σ : World) (tr : list call) :
  RestoreOptionsV2.DryRun opts = false ->
  exists final rest,
    Restore_apply m opts s report (σ, tr) = ((Some final, None), rest)
    /\ (let looped :=
          loop_report (Snapshot.Windows s)
                      (fst (restore_answers m (Snapshot.Windows s) σ)) report in
        let now := fst (time_Now m (snd (restore_answers m (Snapshot.Windows s) σ))) in
        RestoreReport.Message final
        = (if RestoreReport.RestoredWindows looped =? RestoreReport.TotalWindows looped
           then "All windows restored successfully"
           else "Restored " +:+ pretty (RestoreReport.RestoredWindows looped)
                +:+ "/" +:+ pretty (RestoreReport.TotalWindows looped)
                +:+ " windows")
        /\ RestoreReport.Success final = (0 <? RestoreReport.RestoredWindows looped)
        /\ RestoreReport.StartTime final = RestoreReport.StartTime looped
        /\ RestoreReport.EndTime final = now
        /\ RestoreReport.Duration final
           = time.Sub now (RestoreReport.StartTime looped)).
Proof.
  intros Hdry. unfold Restore_apply. rewrite Hdry.
  unfold mbind, M_bind. rewrite Restore_loop_run.
  unfold invoke. cbn [fst snd].
  destruct (time_Now m (snd (restore_answers m (Snapshot.Windows s) σ)))
    as [now σ'].
  set (looped := loop_report _ _ _). cbn [fst snd].
  match goal with
  | |- context [if ?c then _ else _] => destruct c eqn:Hc
  end; (eexists; eexists; split; [reflexivity|]); cbv zeta; simpl;
    simpl in Hc; rewrite Hc; repeat split; reflexivity.
Qed.

(** X7. The message of a restore that is not a dry run says that all
    windows were restored when the restored count equals the total, and
    gives both numbers otherwise; the duration is the end time minus the
    start time. For a snapshot without windows the message says that all
    windows were restored while [Success] is false. *)
Theorem Restore_message_and_times
    (snapshotID : string) (opts : RestoreOptionsV2.t)
    (σ0 σ1 σ2 σ3 σ4 : World) (tr : list call) (s : Snapshot.t)
    (ws : list Window.t) (t0 : Time) :
  repo_GetSnapshotByID (repo m) snapshotID σ0 = ((Some s, None), σ1) ->
  repo_GetWindows (repo m) snapshotID σ1 = ((ws, None), σ2) ->
  time_Now m σ2 = (t0, σ3) ->
  validation_passes m opts ws σ3 σ4 ->
  RestoreOptionsV2.DryRun opts = false ->
  GoInt.len ws <= GoInt.max_int ->
  let restored := restored_count (fst (restore_answers m ws σ4)) in
  let now := fst (time_Now m (snd (restore_answers m ws σ4))) in
  exists report rest,
    Restore m snapshotID opts (σ0, tr) = ((Some report, None), rest)
    /\ RestoreReport.Message report
       = (if restored =? GoInt.len ws
          then "All windows restored successfully"
          else "Restored " +:+ pretty restored +:+ "/" +:+ pretty (GoInt.len ws)
               +:+ " windows")
    /\ RestoreReport.StartTime report = t0
    /\ RestoreReport.EndTime report = now
    /\ RestoreReport.Duration report = time.Sub now t0
    /\ match ws with
       | [] => RestoreReport.Success report = false
               /\ RestoreReport.Message report = "All windows restored successfully"
       | _ :: _ => True
       end.
Proof.
  intros H1 H2 H3 Hgate Hdry Hlen restored now.
  destruct (Restore_validated m _ opts _ _ _ _ _ tr _ _ _ H1 H2 H3 Hgate)
    as [missing Hrun].
  destruct (Restore_apply_message opts (Snapshot.set_Windows s ws)
              (RestoreReport.set_MissingApps missing
                 (initial_report snapshotID ws t0))
              σ4
              (tr ++ [CallGetSnapshotByID snapshotID;
                      CallRepoGetWindows snapshotID; CallNow]
                  ++ validation_calls opts) Hdry)
    as (final & rest & Hfinal & Hfields).
  simpl Snapshot.Windows in Hfinal, Hfields.
  rewrite loop_report_fields in Hfields; cycle 1.
  { apply restore_answers_length. }
  { simpl. unfold GoInt.in_range, GoInt.min_int, GoInt.max_int. lia. }
  { simpl. lia. }
  simpl in Hfields. fold restored now in Hfields.
  destruct Hfields as (Hmsg & Hsuccess & Hstart & Hend & Hdur).
  exists final, rest. rewrite Hrun.
  split; [exact Hfinal|]. split; [exact Hmsg|]. split; [exact Hstart|].
  split; [exact Hend|]. split; [exact Hdur|].
  destruct ws as [|w ws']; [|exact I].
  rewrite Hmsg, Hsuccess. subst restored. simpl. split; reflexivity.
Qed.

(** What remains in [missing] after the loop of [validateApps]. *)
Lemma validateApps_loop_shape (availableApps : gset string) (ws : list Window.t)
    (checked : gset string) (missing : list string) :
  exists new,
    validateApps_loop availableApps ws checked missing = missing ++ new
    /\ new `sublist_of` map Window.AppName ws
    /\ NoDup new
    /\ (forall a, a ∈ new -> a ∉ checked).
Proof.
  revert checked missing. induction ws as [|w rest IH]; intros checked missing; simpl.
  - exists []. rewrite app_nil_r. repeat split; [constructor|constructor|].
    intros a Ha. apply elem_of_nil in Ha. contradiction.
  - case_bool_decide as Hchecked; [|case_bool_decide as Havail].
    + destruct (IH checked missing) as (new & Heq & Hsub & Hnd & Hfresh).
      exists new. repeat split; try assumption. now apply sublist_cons.
    + destruct (IH ({[Window.AppName w]} ∪ checked) missing)
        as (new & Heq & Hsub & Hnd & Hfresh).
      exists new. repeat split; try assumption; [now apply sublist_cons|].
      intros a Ha Hin. apply (Hfresh a Ha). apply elem_of_union. now right.
    + destruct (IH ({[Window.AppName w]} ∪ checked)
                   (missing ++ [Window.AppName w]))
        as (new & Heq & Hsub & Hnd & Hfresh).
      exists (Window.AppName w :: new). rewrite Heq, <- app_assoc.
      repeat split.
      * now apply sublist_skip.
      * constructor; [|exact Hnd]. intros Hin. apply (Hfresh _ Hin).
        apply elem_of_union. left. now apply elem_of_singleton.
      * intros a Ha. apply elem_of_cons in Ha as [->|Ha]; [exact Hchecked|].
        intros Hin. apply (Hfresh a Ha). apply elem_of_union. now right.
Qed.

(** X8. [validateApps] asks the platform for the live windows once and
    does nothing else. When the enumeration succeeds it returns each
    application of the stored windows that has no live window once, in the
    order of the stored windows; when it fails it returns the empty
    list. *)
Theorem validateApps_lists_each_missing_application_once
    (ws currentWindows : list Window.t) (err : option error)
    (σ σ' : World) (tr : list call) :
  plat_GetWindows (platform_ m) σ = ((currentWindows, err), σ') ->
  let missing := fst (validateApps m ws (σ, tr)) in
  snd (validateApps m ws (σ, tr)) = (σ', tr ++ [CallPlatformGetWindows])
  /\ NoDup missing
  /\ missing `sublist_of` map Window.AppName ws
  /\ match err with
     | Some _ => missing = []
     | None =>
         forall a, a ∈ missing
                   <-> (exists w, w ∈ ws /\ Window.AppName w = a)
                       /\ (forall c, c ∈ currentWindows -> Window.AppName c <> a)
     end.
Proof.
  intros Hcur missing. subst missing.
  rewrite (validateApps_run m _ _ _ _ _ _ Hcur). cbn [fst snd].
  split; [reflexivity|]. destruct err as [e|]; simpl missing_apps.
  - repeat split; [constructor|apply sublist_nil_l].
  - destruct (validateApps_loop_shape
                (list_to_set (map Window.AppName currentWindows)) ws ∅ [])
      as (new & Heq & Hsub & Hnd & _).
    simpl in Heq. split; [now rewrite Heq|]. split; [now rewrite Heq|].
    intros a. exact (missing_apps_elem currentWindows ws a).
Qed.

(** X9. With validation on and [skipMissingApps], missing applications do
    not stop the restore: they are listed in the report, every stored
    window is still passed to [RestoreWindow], those of the missing
    applications included, and no error is returned. *)
Theorem Restore_skips_missing_applications
    (snapshotID : string) (opts : RestoreOptionsV2.t)
    (σ0 σ1 σ2 σ3 σ4 : World) (tr : list call) (s : Snapshot.t)
    (ws currentWindows : list Window.t) (t0 : Time) :
  repo_GetSnapshotByID (repo m) snapshotID σ0 = ((Some s, None), σ1) ->
  repo_GetWindows (repo m) snapshotID σ1 = ((ws, None), σ2) ->
  time_Now m σ2 = (t0, σ3) ->
  RestoreOptionsV2.ValidateBeforeRestore opts = true ->
  RestoreOptionsV2.SkipMissingApps opts = true ->
  RestoreOptionsV2.DryRun opts = false ->
  plat_GetWindows (platform_ m) σ3 = ((currentWindows, None), σ4) ->
  exists report,
    Restore m snapshotID opts (σ0, tr)
    = ((Some report, None),
       (snd (time_Now m (snd (restore_answers m ws σ4))),
        tr ++ [CallGetSnapshotByID snapshotID; CallRepoGetWindows snapshotID;
               CallNow; CallPlatformGetWindows]
           ++ map CallRestoreWindow ws ++ [CallNow]))
    /\ RestoreReport.MissingApps report = missing_apps currentWindows None ws
    /\ (forall a, a ∈ RestoreReport.MissingApps report
                  <-> (exists w, w ∈ ws /\ Window.AppName w = a)
                      /\ (forall c, c ∈ currentWindows -> Window.AppName c <> a))
    /\ RestoreReport.Error report = "".
Proof.
  intros H1 H2 H3 Hvalidate Hskip Hdry Hcur.
  rewrite (Restore_loaded m _ _ _ _ _ _ _ _ _ _ H1 H2 H3). cbv zeta.
  rewrite Hvalidate, Hskip. unfold mbind, M_bind.
  rewrite (validateApps_run m _ _ _ _ _ _ Hcur). rewrite andb_false_r.
  destruct (Restore_apply_run m opts (Snapshot.set_Windows s ws)
              (RestoreReport.set_MissingApps (missing_apps currentWindows None ws)
                 (initial_report snapshotID ws t0))
              σ4
              ((tr ++ [CallGetSnapshotByID snapshotID;
                       CallRepoGetWindows snapshotID; CallNow])
                 ++ [CallPlatformGetWindows]) Hdry)
    as (final & Hfinal & Hfields).
  simpl Snapshot.Windows in Hfinal, Hfields. cbv zeta in Hfields.
  destruct Hfields as (_ & _ & _ & _ & Hmissing & Herror & _).
  destruct (loop_report_frame ws (fst (restore_answers m ws σ4))
              (RestoreReport.set_MissingApps (missing_apps currentWindows None ws)
                 (initial_report snapshotID ws t0))) as [Hm He].
  exists final. rewrite Hfinal, Hmissing, Herror, Hm, He.
  split; [now rewrite <- !app_assoc|]. split; [reflexivity|].
  split; [|reflexivity].
  intros a. exact (missing_apps_elem currentWindows ws a).
Qed.

End RestoreExtras.

(** * Further properties of the diff *)

Section DiffExtras.
Import core snapshot.

(** X10. [Diff] stops at the first failing load: an error of
    [GetSnapshotByID] is returned as it is and nothing more is fetched;
    when one of the snapshots does not exist the error says so and the
    windows are not fetched. Once both snapshots are found a result is
    returned, whatever [GetWindows] answers. *)
Theorem Diff_load_failures {World : Type} (m : ManagerV2 World)
    (range2 range1 : map_range) (id1 id2 : string) (σ : World) (tr : list call) :
  match repo_GetSnapshotByID (repo m) id1 σ with
  | ((_, Some e), σ1) =>
      Diff m range2 range1 id1 id2 (σ, tr)
      = ((None, Some e), (σ1, tr ++ [CallGetSnapshotByID id1]))
  | ((s1, None), σ1) =>
      match repo_GetSnapshotByID (repo m) id2 σ1 with
      | ((_, Some e), σ2) =>
          Diff m range2 range1 id1 id2 (σ, tr)
          = ((None, Some e),
             (σ2, tr ++ [CallGetSnapshotByID id1; CallGetSnapshotByID id2]))
      | ((s2, None), σ2) =>
          match s1, s2 with
          | Some s1, Some s2 =>
              let '((w1, _), σ3) := repo_GetWindows (repo m) id1 σ2 in
              let '((w2, _), σ4) := repo_GetWindows (repo m) id2 σ3 in
              Diff m range2 range1 id1 id2 (σ, tr)
              = ((Some (Diff_windows range2 range1 id1 id2 s1 s2 w1 w2), None),
                 (σ4, tr ++ [CallGetSnapshotByID id1; CallGetSnapshotByID id2;
                             CallRepoGetWindows id1; CallRepoGetWindows id2]))
          | _, _ =>
              Diff m range2 range1 id1 id2 (σ, tr)
              = ((None, Some "one or both snapshots not found"),
                 (σ2, tr ++ [CallGetSnapshotByID id1; CallGetSnapshotByID id2]))
          end
      end
  end.
Proof.
  unfold Diff, ret, mret, M_ret, mbind, M_bind, invoke. cbn [fst snd].
  destruct (repo_GetSnapshotByID (repo m) id1 σ) as [[s1 [e|]] σ1]; cbn [fst snd].
  { destruct s1; reflexivity. }
  destruct (repo_GetSnapshotByID (repo m) id2 σ1) as [[s2 [e|]] σ2]; cbn [fst snd].
  { destruct s1, s2; now rewrite <- app_assoc. }
  destruct s1 as [s1|], s2 as [s2|]; try now rewrite <- app_assoc.
  cbn [fst snd].
  destruct (repo_GetWindows (repo m) id1 σ2) as [[w1 e1] σ3]; cbn [fst snd].
  destruct (repo_GetWindows (repo m) id2 σ3) as [[w2 e2] σ4]; cbn [fst snd].
  now rewrite <- !app_assoc.
Qed.

Lemma Diff_loop2_common (titles1 : gset string) (keys : list string)
    (diff : DiffResult.t) :
  0 <= DiffResult.CommonWindows diff ->
  DiffResult.CommonWindows diff + GoInt.len keys <= GoInt.max_int ->
  DiffResult.CommonWindows (Diff_loop2 titles1 keys diff)
  = DiffResult.CommonWindows diff + GoInt.len (filter (fun t => t ∈ titles1) keys).
Proof.
  unfold GoInt.len. revert diff.
  induction keys as [|t rest IH]; intros diff Hpos Hmax; simpl.
  - lia.
  - simpl length in Hmax. rewrite Nat2Z.inj_succ in Hmax.
    rewrite filter_cons. case_bool_decide as Hin.
    + rewrite decide_True by exact Hin.
      assert (Hadd : GoInt.add (DiffResult.CommonWindows diff) 1
                     = DiffResult.CommonWindows diff + 1).
      { unfold GoInt.add. apply wrap_in_range.
        unfold GoInt.in_range, GoInt.min_int, GoInt.max_int in *. lia. }
      rewrite IH; simpl; rewrite ?Hadd; simpl length;
        rewrite ?Nat2Z.inj_succ; lia.
    + rewrite decide_False by exact Hin. rewrite IH; simpl; lia.
Qed.

Lemma Diff_loop1_common (titles2 : gset string) (keys : list string)
    (diff : DiffResult.t) :
  DiffResult.CommonWindows (Diff_loop1 titles2 keys diff)
  = DiffResult.CommonWindows diff.
Proof.
  revert diff. induction keys as [|t rest IH]; intros diff; simpl; [reflexivity|].
  rewrite IH. now case_bool_decide.
Qed.

Lemma size_titles_le (ws : list Window.t) :
  (size (titles ws) <= length ws)%nat.
Proof.
  unfold titles, size, set_size. simpl.
  rewrite <- (length_map Window.WindowTitle ws).
  apply submseteq_length, NoDup_submseteq; [apply NoDup_elements|].
  intros x Hx. apply elem_of_elements, elem_of_list_to_set in Hx. exact Hx.
Qed.

Lemma length_common_titles (A B : gset string) (keys : list string) :
  keys ≡ₚ elements B ->
  length (filter (fun t => t ∈ A) keys) = size (A ∩ B).
Proof.
  intros Hkeys. rewrite Hkeys. unfold size, set_size. simpl.
  apply Permutation_length, NoDup_Permutation.
  - apply NoDup_filter, NoDup_elements.
  - apply NoDup_elements.
  - intros x. rewrite list_elem_of_filter, !elem_of_elements, elem_of_intersection.
    tauto.
Qed.

Lemma length_filter_split {X : Type} (P : X -> Prop) `{!forall x, Decision (P x)}
    (l : list X) :
  (length (filter P l) + length (filter (fun x => ~ P x) l) = length l)%nat.
Proof.
  induction l as [|x l IH]; [reflexivity|]. rewrite !filter_cons.
  destruct (decide (P x)) as [Hp|Hp].
  - rewrite decide_False by tauto. simpl. lia.
  - rewrite decide_True by exact Hp. simpl. lia.
Qed.

(** X11. A diff lists every added title once and every removed title
    once, and no title as both. The common counter is the number of
    distinct titles that the two lists share; added and common titles
    together are the distinct titles of the second list, removed and
    common ones those of the first. *)
Theorem Diff_counts_distinct_titles (range2 range1 : map_range) (id1 id2 : string)
    (s1 s2 : Snapshot.t) (A B : list Window.t) :
  range_ok range2 -> range_ok range1 ->
  GoInt.len B <= GoInt.max_int ->
  let diff := Diff_windows range2 range1 id1 id2 s1 s2 A B in
  NoDup (DiffResult.AddedWindows diff)
  /\ NoDup (DiffResult.RemovedWindows diff)
  /\ (forall t, t ∈ DiffResult.AddedWindows diff ->
                t ∉ DiffResult.RemovedWindows diff)
  /\ DiffResult.CommonWindows diff = Z.of_nat (size (titles A ∩ titles B))
  /\ GoInt.len (DiffResult.AddedWindows diff) + DiffResult.CommonWindows diff
     = Z.of_nat (size (titles B))
  /\ GoInt.len (DiffResult.RemovedWindows diff) + DiffResult.CommonWindows diff
     = Z.of_nat (size (titles A)).
Proof.
  intros H2 H1 Hmax diff.
  destruct (Diff_windows_fields range2 range1 id1 id2 s1 s2 A B) as [Ha Hr].
  fold diff in Ha, Hr.
  assert (Hlen2 : length (range2 (titles B)) = size (titles B)).
  { now rewrite (H2 (titles B)). }
  assert (Hlen1 : length (range1 (titles A)) = size (titles A)).
  { now rewrite (H1 (titles A)). }
  assert (Hcommon : DiffResult.CommonWindows diff
                    = Z.of_nat (size (titles A ∩ titles B))).
  { subst diff. unfold Diff_windows. cbv zeta. fold (titles A) (titles B).
    rewrite Diff_loop1_common, Diff_loop2_common; simpl.
    - unfold GoInt.len. now rewrite (length_common_titles _ _ _ (H2 (titles B))).
    - lia.
    - unfold GoInt.len in *. rewrite Hlen2. pose proof (size_titles_le B). lia. }
  split; [rewrite Ha, (H2 (titles B)); apply NoDup_filter, NoDup_elements|].
  split; [rewrite Hr, (H1 (titles A)); apply NoDup_filter, NoDup_elements|].
  split.
  { intros t. rewrite Ha, Hr, !list_elem_of_filter, (H2 (titles B)),
      (H1 (titles A)), !elem_of_elements. tauto. }
  split; [exact Hcommon|].
  rewrite Hcommon, Ha, Hr. unfold GoInt.len. split.
  - pose proof (length_filter_split (fun t => t ∈ titles A) (range2 (titles B))) as Hs.
    rewrite (length_common_titles _ _ _ (H2 (titles B))), Hlen2 in Hs.
    change (filter (fun x => ~ x ∈ titles A) (range2 (titles B)))
      with (filter (fun t => t ∉ titles A) (range2 (titles B))) in Hs. lia.
  - pose proof (length_filter_split (fun t => t ∈ titles B) (range1 (titles A))) as Hs.
    rewrite (length_common_titles _ _ _ (H1 (titles A))), Hlen1 in Hs.
    change (filter (fun x => ~ x ∈ titles B) (range1 (titles A)))
      with (filter (fun t => t ∉ titles B) (range1 (titles A))) in Hs.
    replace (titles A ∩ titles B) with (titles B ∩ titles A)
      by (apply set_eq; intros x; rewrite !elem_of_intersection; tauto).
    lia.
Qed.

(** X12. The git flag of a diff is false exactly when the two snapshots
    have the same branch and the same repository path, and it is the same
    in both directions. The diff of a window list against itself has no
    added and no removed title, and the diff of a snapshot against itself
    reports no change of the git context. *)
Theorem Diff_context_and_self (range2 range1 range2' range1' : map_range)
    (id1 id2 : string) (s1 s2 : Snapshot.t) (A B : list Window.t) :
  range_ok range2 -> range_ok range1 ->
  let diff := Diff_windows range2 range1 id1 id2 s1 s2 A B in
  DiffResult.SourceID diff = id1
  /\ DiffResult.TargetID diff = id2
  /\ (DiffResult.GitChanged diff = false
      <-> Snapshot.GitBranch s1 = Snapshot.GitBranch s2
          /\ Snapshot.GitRepo s1 = Snapshot.GitRepo s2)
  /\ DiffResult.GitChanged diff
     = DiffResult.GitChanged (Diff_windows range2' range1' id2 id1 s2 s1 B A)
  /\ DiffResult.GitChanged (Diff_windows range2 range1 id1 id1 s1 s1 A A) = false
  /\ DiffResult.AddedWindows (Diff_windows range2 range1 id1 id1 s1 s1 A A) = []
  /\ DiffResult.RemovedWindows (Diff_windows range2 range1 id1 id1 s1 s1 A A) = [].
Proof.
  intros H2 H1 diff.
  assert (Hframe2 : forall t1 keys d,
             DiffResult.SourceID (Diff_loop2 t1 keys d) = DiffResult.SourceID d
             /\ DiffResult.TargetID (Diff_loop2 t1 keys d) = DiffResult.TargetID d
             /\ DiffResult.GitChanged (Diff_loop2 t1 keys d)
                = DiffResult.GitChanged d).
  { intros t1 keys. induction keys as [|t rest IH]; intros d; simpl;
      [repeat split|].
    destruct (IH (if bool_decide (t ∈ t1)
                  then DiffResult.set_CommonWindows
                         (GoInt.add (DiffResult.CommonWindows d) 1) d
                  else DiffResult.set_AddedWindows
                         (DiffResult.AddedWindows d ++ [t]) d))
      as (Ha & Hb & Hc).
    rewrite Ha, Hb, Hc. case_bool_decide; repeat split. }
  assert (Hframe1 : forall t2 keys d,
             DiffResult.SourceID (Diff_loop1 t2 keys d) = DiffResult.SourceID d
             /\ DiffResult.TargetID (Diff_loop1 t2 keys d) = DiffResult.TargetID d
             /\ DiffResult.GitChanged (Diff_loop1 t2 keys d)
                = DiffResult.GitChanged d).
  { intros t2 keys. induction keys as [|t rest IH]; intros d; simpl;
      [repeat split|].
    destruct (IH (if bool_decide (t ∈ t2) then d
                  else DiffResult.set_RemovedWindows
                         (DiffResult.RemovedWindows d ++ [t]) d))
      as (Ha & Hb & Hc).
    rewrite Ha, Hb, Hc. case_bool_decide; repeat split. }
  assert (Hgit : forall r2 r1 i1 i2 a b X Y,
             DiffResult.SourceID (Diff_windows r2 r1 i1 i2 a b X Y) = i1
             /\ DiffResult.TargetID (Diff_windows r2 r1 i1 i2 a b X Y) = i2
             /\ DiffResult.GitChanged (Diff_windows r2 r1 i1 i2 a b X Y)
                = negb (String.eqb (Snapshot.GitBranch a) (Snapshot.GitBranch b))
                  || negb (String.eqb (Snapshot.GitRepo a) (Snapshot.GitRepo b))).
  { intros. unfold Diff_windows. cbv zeta.
    match goal with
    | |- context [Diff_loop1 ?t2 ?k1 (Diff_loop2 ?t1 ?k2 ?d)] =>
        destruct (Hframe1 t2 k1 (Diff_loop2 t1 k2 d)) as (Ha & Hb & Hc);
        destruct (Hframe2 t1 k2 d) as (Ha' & Hb' & Hc')
    end.
    rewrite Ha, Hb, Hc, Ha', Hb', Hc'. repeat split. }
  destruct (Hgit range2 range1 id1 id2 s1 s2 A B) as (Hs & Ht & Hg).
  fold diff in Hs, Ht, Hg.
  split; [exact Hs|]. split; [exact Ht|]. split.
  { rewrite Hg, orb_false_iff, !negb_false_iff, !String.eqb_eq. reflexivity. }
  split.
  { destruct (Hgit range2' range1' id2 id1 s2 s1 B A) as (_ & _ & Hg').
    rewrite Hg, Hg'.
    now rewrite (String.eqb_sym (Snapshot.GitBranch s2)),
      (String.eqb_sym (Snapshot.GitRepo s2)). }
  split.
  { destruct (Hgit range2 range1 id1 id1 s1 s1 A A) as (_ & _ & Hg').
    rewrite Hg', !String.eqb_refl. reflexivity. }
  destruct (Diff_windows_fields range2 range1 id1 id1 s1 s1 A A) as [Ha Hr].
  rewrite Ha, Hr. split.
  - apply elem_of_nil_inv. intros x Hx.
    apply list_elem_of_filter in Hx as [Hn Hin].
    rewrite (H2 (titles A)), elem_of_elements in Hin. contradiction.
  - apply elem_of_nil_inv. intros x Hx.
    apply list_elem_of_filter in Hx as [Hn Hin].
    rewrite (H1 (titles A)), elem_of_elements in Hin. contradiction.
Qed.

End DiffExtras.

(** ** Further scenarios on the in-memory world *)

(** The message of the restore of three windows of which the second
    fails. *)
Lemma Restore_message_two_of_three :
  exists report rest,
    snapshot.Restore inmemory.manager "s1"
      (snapshot.RestoreOptionsV2.mk false false false) (scenario.start, [])
    = ((Some report, None), rest)
    /\ snapshot.RestoreReport.Message report = "Restored 2/3 windows"
    /\ snapshot.RestoreReport.Duration report = 1.
Proof.
  destruct (Restore_message_and_times inmemory.manager "s1"
              (snapshot.RestoreOptionsV2.mk false false false)
              scenario.start scenario.start scenario.start
              (inmemory.tick scenario.start) (inmemory.tick scenario.start)
              [] (inmemory.snapshot_of "s1") scenario.windows 5
              eq_refl eq_refl eq_refl eq_refl eq_refl
              ltac:(vm_compute; discriminate))
    as (report & rest & Hrun & Hmsg & _ & _ & Hdur & _).
  exists report, rest. rewrite Hrun, Hmsg, Hdur. vm_compute. repeat split.
Defined.

(** Only the application "term" has no live window. *)
Lemma validateApps_finds_term_missing :
  fst (snapshot.validateApps inmemory.manager scenario.windows (scenario.start, []))
  = ["term"]
  /\ NoDup (fst (snapshot.validateApps inmemory.manager scenario.windows
                   (scenario.start, []))).
Proof.
  destruct (validateApps_lists_each_missing_application_once inmemory.manager
              scenario.windows (inmemory.live scenario.start) None
              scenario.start scenario.start [] eq_refl)
    as (_ & Hnodup & _).
  split; [vm_compute; reflexivity|exact Hnodup].
Defined.

(** With [skipMissingApps] the three windows are still passed to the
    platform. *)
Lemma Restore_skips_missing_term :
  exists report,
    fst (snapshot.Restore inmemory.manager "s1"
           (snapshot.RestoreOptionsV2.mk true true false) (scenario.start, []))
    = (Some report, None)
    /\ snapshot.RestoreReport.MissingApps report = ["term"].
Proof.
  destruct (Restore_skips_missing_applications inmemory.manager "s1"
              (snapshot.RestoreOptionsV2.mk true true false)
              scenario.start scenario.start scenario.start
              (inmemory.tick scenario.start) (inmemory.tick scenario.start)
              [] (inmemory.snapshot_of "s1") scenario.windows
              (inmemory.live scenario.start) 5
              eq_refl eq_refl eq_refl eq_refl eq_refl eq_refl eq_refl)
    as (report & Hrun & Hmissing & _).
  exists report. rewrite Hrun, Hmissing. vm_compute. repeat split.
Defined.

(** The counts of the diff of the titles "A", "B" against "B", "C". *)
Lemma Diff_counts_of_AB_and_BC :
  let A := [inmemory.window "A" "code" 800 600; inmemory.window "B" "code" 800 600] in
  let B := [inmemory.window "B" "code" 800 600; inmemory.window "C" "code" 800 600] in
  let s := inmemory.snapshot_of "s" in
  let diff := snapshot.Diff_windows elements elements "a" "b" s s A B in
  NoDup (snapshot.DiffResult.AddedWindows diff)
  /\ snapshot.DiffResult.CommonWindows diff = 1.
Proof.
  intros A B s diff.
  destruct (Diff_counts_distinct_titles elements elements "a" "b" s s A B
              range_ok_elements range_ok_elements
              ltac:(vm_compute; discriminate))
    as (Hnodup & _).
  split; [exact Hnodup|]. vm_compute. reflexivity.
Defined.

Lemma Diff_context_of_AB_and_BC :
  let A := [inmemory.window "A" "code" 800 600; inmemory.window "B" "code" 800 600] in
  let B := [inmemory.window "B" "code" 800 600; inmemory.window "C" "code" 800 600] in
  let s := inmemory.snapshot_of "s" in
  snapshot.DiffResult.GitChanged
    (snapshot.Diff_windows elements elements "a" "b" s s A B)
  = snapshot.DiffResult.GitChanged
      (snapshot.Diff_windows elements elements "b" "a" s s B A)
  /\ snapshot.DiffResult.AddedWindows
       (snapshot.Diff_windows elements elements "a" "a" s s A A) = [].
Proof.
  intros A B s.
  destruct (Diff_context_and_self elements elements elements elements
              "a" "b" s s A B range_ok_elements range_ok_elements)
    as (_ & _ & _ & Hsym & _ & Hadded & _).
  split; [exact Hsym|exact Hadded].
Defined.

(** * Properties of the sanitizer *)

Section SanitizerProperties.
Import core components sanitize.
Context {go : GoStrings} {text : GoText}.
Variable range : env_range.
Variable s : Sanitizer.

Lemma redact_key_lookup (sensitiveKey : string) (env : gmap string string)
    (key k : string) :
  is_Some (env !! key) ->
  redact_key sensitiveKey env key !! k
  = (fun v => if bool_decide (k = key)
                 && (EqualFold key sensitiveKey
                     || containsInsensitive key sensitiveKey)
              then redacted else v) <$> env !! k.
Proof.
  intros [v0 Hkey]. unfold redact_key.
  destruct (decide (k = key)) as [->|Hne].
  - rewrite bool_decide_eq_true_2 by reflexivity. rewrite Hkey. simpl.
    destruct (EqualFold key sensitiveKey), (containsInsensitive key sensitiveKey);
      simpl; rewrite ?lookup_insert_eq; try reflexivity; exact Hkey.
  - rewrite bool_decide_eq_false_2 by exact Hne. simpl.
    assert (Hid : (fun v : string => v) <$> env !! k = env !! k)
      by (destruct (env !! k); reflexivity).
    rewrite Hid.
    destruct (EqualFold key sensitiveKey), (containsInsensitive key sensitiveKey);
      rewrite ?lookup_insert_ne by congruence; reflexivity.
Qed.

Lemma redact_keys_lookup (sensitiveKey : string) (keys : list string)
    (env : gmap string string) (k : string) :
  (forall key, key ∈ keys -> is_Some (env !! key)) ->
  fold_left (redact_key sensitiveKey) keys env !! k
  = (fun v => if bool_decide (k ∈ keys)
                 && (EqualFold k sensitiveKey || containsInsensitive k sensitiveKey)
              then redacted else v) <$> env !! k.
Proof.
  revert env. induction keys as [|key rest IH]; intros env Hdom; cbn [fold_left].
  - rewrite bool_decide_eq_false_2 by apply not_elem_of_nil.
    destruct (env !! k); reflexivity.
  - rewrite IH.
    + rewrite redact_key_lookup by (apply Hdom; now left).
      destruct (env !! k) as [v|]; [|reflexivity]. simpl. f_equal.
      destruct (decide (k = key)) as [->|Hne].
      * rewrite (bool_decide_eq_true_2 (key = key)) by reflexivity.
        rewrite (bool_decide_eq_true_2 (key ∈ key :: rest)) by now left.
        simpl.
        destruct (EqualFold key sensitiveKey || containsInsensitive key sensitiveKey);
          [|now rewrite andb_false_r].
        simpl. now destruct (bool_decide (key ∈ rest)).
      * rewrite (bool_decide_eq_false_2 (k = key)) by exact Hne. simpl.
        destruct (decide (k ∈ rest)) as [Hin|Hnin].
        -- rewrite !bool_decide_eq_true_2; [reflexivity|now right|exact Hin].
        -- rewrite !bool_decide_eq_false_2; [reflexivity| |exact Hnin].
           intros Hin. apply elem_of_cons in Hin as [?|?]; contradiction.
    + intros key' Hin. rewrite redact_key_lookup by (apply Hdom; now left).
      destruct (Hdom key') as [v Hv]; [now right|]. rewrite Hv. simpl. eauto.
Qed.

Lemma sanitize_env_lookup (env : gmap string string) (k : string) :
  env_range_ok range ->
  sanitize_env range s env !! k
  = (fun v => if sensitive_key s k then redacted else v) <$> env !! k.
Proof.
  intros Hrange. unfold sanitize_env, sensitive_key.
  generalize (SanitizationOptions.FilterEnvVars (opts s)) as keys.
  intros keys. revert env. induction keys as [|sk rest IH]; intros env; simpl.
  - destruct (env !! k); reflexivity.
  - rewrite IH. rewrite redact_keys_lookup.
    + destruct (env !! k) as [v|] eqn:Hk; [|reflexivity]. simpl. f_equal.
      rewrite bool_decide_eq_true_2.
      * simpl.
        destruct (EqualFold k sk || containsInsensitive k sk); simpl;
          [now destruct (existsb _ rest)|reflexivity].
      * rewrite (Hrange env), elem_of_elements, elem_of_dom. eauto.
    + intros key Hin.
      rewrite (Hrange env), elem_of_elements, elem_of_dom in Hin. exact Hin.
Qed.

(** X13. [sanitizeTerminals] keeps the terminals, every field of a
    terminal other than its environment, and the keys of the environment;
    whatever the order in which the keys are visited, the value of a key
    that equals a sensitive key up to case, or contains one up to case,
    becomes "***REDACTED***", every other value stays, and a terminal
    without environment is left as it is. *)
Theorem sanitizeTerminals_redacts_matching_keys (terminals : list Terminal.t) :
  env_range_ok range ->
  length (sanitizeTerminals range s terminals) = length terminals
  /\ forall (i : nat) t, terminals !! i = Some t ->
       exists t',
         sanitizeTerminals range s terminals !! i = Some t'
         /\ Terminal.ID t' = Terminal.ID t
         /\ Terminal.SnapshotID t' = Terminal.SnapshotID t
         /\ Terminal.TerminalApp t' = Terminal.TerminalApp t
         /\ Terminal.WorkingDirectory t' = Terminal.WorkingDirectory t
         /\ Terminal.ActiveCommand t' = Terminal.ActiveCommand t
         /\ Terminal.ShellType t' = Terminal.ShellType t
         /\ match Terminal.EnvVars t with
            | None => Terminal.EnvVars t' = None
            | Some env =>
                exists env',
                  Terminal.EnvVars t' = Some env'
                  /\ dom env' = dom env
                  /\ forall key,
                       env' !! key
                       = (fun v => if sensitive_key s key then redacted else v)
                           <$> env !! key
            end.
Proof.
  intros Hrange. unfold sanitizeTerminals. split; [apply length_map|].
  intros i t Hi. rewrite list_lookup_fmap, Hi. simpl.
  destruct (Terminal.EnvVars t) as [env|] eqn:Henv.
  - eexists. split; [reflexivity|]. simpl. repeat split.
    exists (sanitize_env range s env). split; [reflexivity|]. split.
    + apply set_eq. intros k. rewrite !elem_of_dom, sanitize_env_lookup by exact Hrange.
      destruct (env !! k); simpl; split; intros [? ?]; eauto; discriminate.
    + intros key. now apply sanitize_env_lookup.
  - exists t. rewrite Henv. repeat split.
Qed.

Lemma calculateScore_reads_four_fields (m : platform.WindowMatcher.t)
    (w w' other : Window.t) :
  Window.WindowTitle w' = Window.WindowTitle w ->
  Window.AppName w' = Window.AppName w ->
  Window.Width w' = Window.Width w ->
  Window.Height w' = Window.Height w ->
  platform.calculateScore m w' other = platform.calculateScore m w other
  /\ platform.calculateScore m other w' = platform.calculateScore m other w.
Proof.
  intros Ht Ha Hw Hh. unfold platform.calculateScore, platform.isSimilarSize.
  rewrite Ht, Ha, Hw, Hh. split; reflexivity.
Qed.

Lemma SanitizeSnapshot_windows (snap : FullSnapshot.t) :
  FullSnapshot.Windows (SanitizeSnapshot range s snap)
  = map (sanitized_window s) (FullSnapshot.Windows snap).
Proof.
  unfold SanitizeSnapshot, sanitized_window, sanitizePaths, sanitizeWindows.
  destruct snap as [b ts tabs ps fs]. destruct b.
  destruct (SanitizationOptions.MaskURLTokens (opts s)),
    (0 <? GoInt.len (SanitizationOptions.FilterEnvVars (opts s))),
    (SanitizationOptions.RedactWindowTitles (opts s)),
    (SanitizationOptions.MaskPaths (opts s)); cbn;
    rewrite ?map_map, ?map_id; reflexivity.
Qed.

Lemma SanitizeSnapshot_fields (snap : FullSnapshot.t) :
  FullSnapshot.ID (SanitizeSnapshot range s snap) = FullSnapshot.ID snap
  /\ Snapshot.Name (FullSnapshot.base (SanitizeSnapshot range s snap))
     = Snapshot.Name (FullSnapshot.base snap)
  /\ Snapshot.Description (FullSnapshot.base (SanitizeSnapshot range s snap))
     = Snapshot.Description (FullSnapshot.base snap)
  /\ Snapshot.Tags (FullSnapshot.base (SanitizeSnapshot range s snap))
     = Snapshot.Tags (FullSnapshot.base snap)
  /\ Snapshot.CreatedAt (FullSnapshot.base (SanitizeSnapshot range s snap))
     = Snapshot.CreatedAt (FullSnapshot.base snap)
  /\ Snapshot.GitBranch (FullSnapshot.base (SanitizeSnapshot range s snap))
     = Snapshot.GitBranch (FullSnapshot.base snap)
  /\ length (FullSnapshot.Terminals (SanitizeSnapshot range s snap))
     = length (FullSnapshot.Terminals snap)
  /\ length (FullSnapshot.BrowserTabs (SanitizeSnapshot range s snap))
     = length (FullSnapshot.BrowserTabs snap)
  /\ length (FullSnapshot.IDEFiles (SanitizeSnapshot range s snap))
     = length (FullSnapshot.IDEFiles snap).
Proof.
  unfold SanitizeSnapshot, sanitizePaths, sanitizeWindows, sanitizeTerminals,
    sanitizeBrowserTabs.
  destruct snap as [b ts tabs ps fs]. destruct b.
  destruct (SanitizationOptions.MaskURLTokens (opts s)),
    (0 <? GoInt.len (SanitizationOptions.FilterEnvVars (opts s))),
    (SanitizationOptions.RedactWindowTitles (opts s)),
    (SanitizationOptions.MaskPaths (opts s)); cbn;
    rewrite ?length_map; repeat split.
Qed.

(** X14. [SanitizeSnapshot] keeps the identifier, the name, the branch and
    the number of windows, terminals, tabs and files of a snapshot. Of a
    window it changes at most the title and the application path: every
    other field is that of the window before; with
    [RedactWindowTitles] off, as in the default options, the title stays
    too, and every score of the matcher for or against the window is the
    same before and after. *)
Theorem SanitizeSnapshot_keeps_matching_data (snap : FullSnapshot.t) :
  let snap' := SanitizeSnapshot range s snap in
  FullSnapshot.ID snap' = FullSnapshot.ID snap
  /\ Snapshot.Name (FullSnapshot.base snap') = Snapshot.Name (FullSnapshot.base snap)
  /\ Snapshot.GitBranch (FullSnapshot.base snap')
     = Snapshot.GitBranch (FullSnapshot.base snap)
  /\ length (FullSnapshot.Windows snap') = length (FullSnapshot.Windows snap)
  /\ length (FullSnapshot.Terminals snap') = length (FullSnapshot.Terminals snap)
  /\ length (FullSnapshot.BrowserTabs snap') = length (FullSnapshot.BrowserTabs snap)
  /\ length (FullSnapshot.IDEFiles snap') = length (FullSnapshot.IDEFiles snap)
  /\ forall (i : nat) w, FullSnapshot.Windows snap !! i = Some w ->
       exists w',
         FullSnapshot.Windows snap' !! i = Some w'
         /\ Window.ID w' = Window.ID w
         /\ Window.SnapshotID w' = Window.SnapshotID w
         /\ Window.AppName w' = Window.AppName w
         /\ Window.X w' = Window.X w /\ Window.Y w' = Window.Y w
         /\ Window.Width w' = Window.Width w
         /\ Window.Height w' = Window.Height w
         /\ Window.State w' = Window.State w
         /\ Window.Workspace w' = Window.Workspace w
         /\ Window.ZIndex w' = Window.ZIndex w
         /\ Window.LaunchArgs w' = Window.LaunchArgs w
         /\ (exists title path,
               w' = Window_set_AppPath path (Window_set_WindowTitle title w))
         /\ (if SanitizationOptions.RedactWindowTitles (opts s) then True
             else Window.WindowTitle w' = Window.WindowTitle w
                  /\ forall (m : platform.WindowMatcher.t) (other : Window.t),
                       platform.calculateScore m w' other
                       = platform.calculateScore m w other
                       /\ platform.calculateScore m other w'
                          = platform.calculateScore m other w).
Proof.
  intros snap'.
  assert (Hw : FullSnapshot.Windows snap'
               = map (sanitized_window s) (FullSnapshot.Windows snap))
    by apply SanitizeSnapshot_windows.
  destruct (SanitizeSnapshot_fields snap)
    as (Hid & Hname & _ & _ & _ & Hbranch & Hts & Htabs & Hfs).
  fold snap' in Hid, Hname, Hbranch, Hts, Htabs, Hfs.
  split; [exact Hid|]. split; [exact Hname|]. split; [exact Hbranch|].
  split; [rewrite Hw; apply length_map|].
  split; [exact Hts|]. split; [exact Htabs|]. split; [exact Hfs|].
  intros i w Hi. exists (sanitized_window s w).
  split; [rewrite Hw, list_lookup_fmap, Hi; reflexivity|].
  unfold sanitized_window. destruct w.
  destruct (SanitizationOptions.RedactWindowTitles (opts s)),
    (SanitizationOptions.MaskPaths (opts s)); simpl;
    repeat match goal with
           | |- _ /\ _ => split
           | |- True => exact I
           | |- exists _ _, ?w' = _ =>
               exists (Window.WindowTitle w'), (Window.AppPath w'); reflexivity
           | |- _ = _ => reflexivity
           | |- forall _, _ =>
               intros m other; apply calculateScore_reads_four_fields;
               reflexivity
           end.
Qed.

End SanitizerProperties.

Lemma sanitizeTerminals_redacts_GITHUB_TOKEN :
  exists t',
    sanitize.sanitizeTerminals (go := ascii_strings) (text := plain_text)
      keys_in_order (sanitize.NewSanitizer sanitize.DefaultOptions)
      shells.terminals !! 0%nat = Some t'
    /\ exists env',
         components.Terminal.EnvVars t' = Some env'
         /\ env' !! "GITHUB_TOKEN" = Some "***REDACTED***"
         /\ env' !! "my_secret_path" = Some "***REDACTED***"
         /\ env' !! "EDITOR" = Some "vi".
Proof.
  destruct (sanitizeTerminals_redacts_matching_keys (go := ascii_strings)
              (text := plain_text) keys_in_order
              (sanitize.NewSanitizer sanitize.DefaultOptions) shells.terminals)
    as (_ & Hat).
  - intros env. reflexivity.
  - destruct (Hat 0%nat _ eq_refl)
      as (t' & Ht' & _ & _ & _ & _ & _ & _ & Henv).
    exists t'. split; [exact Ht'|].
    cbn [components.Terminal.EnvVars] in Henv.
    destruct Henv as (env' & Henv' & _ & Hkeys).
    exists env'. split; [exact Henv'|].
    rewrite !Hkeys. repeat split.
Defined.
(** * Properties of the capture *)

(** One step of a computation: the first answer that the goal inspects is
    taken apart. *)
Ltac answer :=
  match goal with
  | |- context [match ?x with _ => _ end] =>
      lazymatch x with
      | context [match _ with _ => _ end] => fail
      | _ => destruct x eqn:?
      end
  end.

(** The same, leaving alone the result of a computation as a whole. *)
Ltac answer_inside :=
  match goal with
  | |- context [match ?x with _ => _ end] =>
      lazymatch x with
      | context [match _ with _ => _ end] => fail
      | fst _ => fail
      | snd _ => fail
      | _ => destruct x eqn:?
      end
  end.

(** The tests of [len(...) > 0] that a run has made are used in the goal. *)
Ltac use_lengths :=
  repeat match goal with
         | H : (0 <? GoInt.len ?l) = _ |- context [0 <? GoInt.len ?l] =>
             rewrite H
         end.

Ltac project :=
  cbn [components.FullSnapshot.BrowserTabs components.FullSnapshot.IDEFiles
       components.FullSnapshot.ID components.FullSnapshot.base
       components.FullSnapshot.Terminals components.FullSnapshot.Processes
       components.FullSnapshot.Windows
       components.FullSnapshot.set_BrowserTabs
       components.FullSnapshot.set_IDEFiles without_tabs_and_files
       app List.filter capture.is_write fst snd head tail] in *.

Ltac run_traced :=
  unfold capture.call, capture.pure, capture.print, traced.call, traced.pure,
    traced.tell, mbind, mret, traced.T_bind, traced.T_ret;
  cbn [fst snd].

Section CaptureProperties.
Import core components capture.
Context {go : GoStrings} {text : GoText}.
Context {World : Type}.

Lemma perform_shape (r : Repository.t World) (plan : list event)
    (σ : World) (tr : list event) :
  exists done,
    snd (snd (perform r plan (σ, tr))) = tr ++ done
    /\ done `prefix_of` plan
    /\ match fst (perform r plan (σ, tr)) with
       | None => done = plan
       | Some msg =>
           exists e cause σ0,
             last done = Some e /\ fst (write r e σ0) = Some cause
             /\ msg = write_error e cause
       end.
Proof.
  revert σ tr. induction plan as [|e rest IH]; intros σ tr.
  - exists []. cbn. rewrite app_nil_r. repeat split. reflexivity.
  - cbn [perform]. run_traced.
    destruct (write r e σ) as [[cause|] σ1] eqn:Hw.
    + exists [e]. cbn. split; [reflexivity|]. split.
      * exists rest. reflexivity.
      * exists e, cause, σ. rewrite Hw. repeat split.
    + destruct (IH σ1 (tr ++ [e])) as (done & Htr & Hpre & Hres).
      exists (e :: done). split; [|split].
      * rewrite Htr, <- app_assoc. reflexivity.
      * destruct Hpre as [k ->]. exists k. reflexivity.
      * destruct (fst (perform r rest (σ1, tr ++ [e]))) as [msg|].
        -- destruct Hres as (e' & cause & σ0 & Hlast & Hcause & Hmsg).
           exists e', cause, σ0. split; [|split; assumption].
           destruct done as [|d done']; [discriminate|]. exact Hlast.
        -- now rewrite Hres.
Qed.

Lemma Capture_persist_perform (r : Repository.t World) (s : FullSnapshot.t)
    (st : World * list event) :
  Capture_persist r s st = perform r (persist_plan s) st.
Proof.
  destruct st as [σ tr].
  unfold Capture_persist, persist_plan, planned, save_step.
  destruct (0 <? GoInt.len (FullSnapshot.Windows s)),
    (0 <? GoInt.len (FullSnapshot.Terminals s)),
    (0 <? GoInt.len (FullSnapshot.BrowserTabs s)),
    (0 <? GoInt.len (FullSnapshot.IDEFiles s));
    cbn [app perform write write_error]; run_traced;
    repeat (answer; try reflexivity).
Qed.

Lemma persist_plan_keeps (s : FullSnapshot.t) (id : string) :
  EvDeleteSnapshot id ∉ persist_plan s.
Proof.
  intros Hplan. unfold persist_plan, planned in Hplan.
  repeat (apply elem_of_cons in Hplan as [Hplan|Hplan]; [discriminate|]).
  repeat (apply elem_of_app in Hplan as [Hplan|Hplan]);
    (destruct (0 <? _) in Hplan;
     [apply list_elem_of_singleton in Hplan; discriminate
     |apply elem_of_nil in Hplan; contradiction]).
Qed.

Lemma perform_cases (r : Repository.t World) (plan : list event) (σ : World) :
  accepted r plan σ
  \/ exists before e after cause,
       plan = before ++ e :: after
       /\ accepted r before σ
       /\ fst (write r e (world_after r before σ)) = Some cause.
Proof.
  revert σ. induction plan as [|e rest IH]; intros σ; [left; exact I|].
  destruct (fst (write r e σ)) as [cause|] eqn:He.
  - right. exists [], e, rest, cause. repeat split. exact He.
  - destruct (IH (snd (write r e σ)))
      as [Hacc|(before & e' & after & cause & -> & Hacc & Hrefused)].
    + left. split; assumption.
    + right. exists (e :: before), e', after, cause.
      split; [reflexivity|]. split; [split; assumption|exact Hrefused].
Qed.

Lemma perform_accepted (r : Repository.t World) (plan : list event)
    (σ : World) (tr : list event) :
  accepted r plan σ ->
  perform r plan (σ, tr) = (None, (world_after r plan σ, tr ++ plan)).
Proof.
  revert σ tr. induction plan as [|e rest IH]; intros σ tr Hacc.
  - cbn. now rewrite app_nil_r.
  - destruct Hacc as [He Hrest]. cbn [perform world_after]. run_traced.
    destruct (write r e σ) as [answer σ1]. cbn [fst snd] in He, Hrest |- *.
    subst answer. rewrite (IH σ1 (tr ++ [e]) Hrest), <- app_assoc. reflexivity.
Qed.

Lemma perform_refused (r : Repository.t World) (before after : list event)
    (e : event) (cause : error) (σ : World) (tr : list event) :
  accepted r before σ ->
  fst (write r e (world_after r before σ)) = Some cause ->
  perform r (before ++ e :: after) (σ, tr)
  = (Some (write_error e cause),
     (snd (write r e (world_after r before σ)), tr ++ before ++ [e])).
Proof.
  revert σ tr. induction before as [|b before IH]; intros σ tr Hacc Hrefused.
  - cbn [app perform world_after] in *. run_traced.
    destruct (write r e σ) as [answer σ1]. cbn [fst snd] in Hrefused |- *.
    subst answer. reflexivity.
  - destruct Hacc as [Hb Hrest]. cbn [app perform world_after] in *. run_traced.
    destruct (write r b σ) as [answer σ1]. cbn [fst snd] in Hb, Hrest, Hrefused |- *.
    subst answer. rewrite (IH σ1 (tr ++ [b]) Hrest Hrefused), <- app_assoc.
    reflexivity.
Qed.

(** X15. The writes of [ManagerV2.Capture] follow the plan of the snapshot:
    the metadata first, then the windows, terminals, tabs and files that
    are not empty. They stop at the first write that the repository
    refuses: when the repository accepts the writes before a write of the
    plan and refuses that one, no later write is made and the error
    returned is the refusal under the name of that write; nothing written
    before is deleted. When the repository accepts every write, the whole
    plan is carried out and no error is returned. *)
Theorem Capture_persist_follows_plan (r : Repository.t World)
    (s : FullSnapshot.t) (σ : World) (tr : list event) :
  (exists done,
     snd (snd (Capture_persist r s (σ, tr))) = tr ++ done
     /\ done `prefix_of` persist_plan s
     /\ head done = Some (EvCreateSnapshot s)
     /\ (forall id, EvDeleteSnapshot id ∉ done)
     /\ match fst (Capture_persist r s (σ, tr)) with
        | None => done = persist_plan s /\ accepted r (persist_plan s) σ
        | Some msg =>
            exists before e after cause,
              persist_plan s = before ++ e :: after
              /\ done = before ++ [e]
              /\ accepted r before σ
              /\ fst (write r e (world_after r before σ)) = Some cause
              /\ msg = write_error e cause
        end)
  /\ (accepted r (persist_plan s) σ ->
      Capture_persist r s (σ, tr)
      = (None, (world_after r (persist_plan s) σ, tr ++ persist_plan s)))
  /\ (forall before e after cause,
        persist_plan s = before ++ e :: after ->
        accepted r before σ ->
        fst (write r e (world_after r before σ)) = Some cause ->
        Capture_persist r s (σ, tr)
        = (Some (write_error e cause),
           (snd (write r e (world_after r before σ)), tr ++ before ++ [e]))).
Proof.
  split; [|split].
  2: { intros Hacc. rewrite Capture_persist_perform.
       now apply perform_accepted. }
  2: { intros before e after cause Hplan Hacc Hrefused.
       rewrite Capture_persist_perform, Hplan. now apply perform_refused. }
  rewrite Capture_persist_perform.
  destruct (perform_cases r (persist_plan s) σ)
    as [Hacc|(before & e & after & cause & Hplan & Hacc & Hrefused)].
  - rewrite (perform_accepted r _ σ tr Hacc). cbn [fst snd].
    exists (persist_plan s). split; [reflexivity|]. split; [reflexivity|].
    split; [reflexivity|]. split; [apply persist_plan_keeps|].
    split; [reflexivity|exact Hacc].
  - pose proof (perform_refused r before after e cause σ tr Hacc Hrefused)
      as Hrun.
    rewrite <- Hplan in Hrun. rewrite Hrun. cbn [fst snd].
    exists (before ++ [e]). split; [reflexivity|]. split.
    { rewrite Hplan. exists after. rewrite <- app_assoc. reflexivity. }
    split.
    { unfold persist_plan in Hplan.
      destruct before as [|b before']; cbn in Hplan |- *;
        injection Hplan as <- _; reflexivity. }
    split.
    { intros id Hin. apply (persist_plan_keeps s id). rewrite Hplan.
      apply elem_of_app in Hin as [Hin|Hin].
      - apply elem_of_app. now left.
      - apply list_elem_of_singleton in Hin. subst e. apply elem_of_app.
        right. now left. }
    exists before, e, after, cause. repeat split; assumption.
Qed.

Lemma perform_succeeds (r : Repository.t World) (plan : list event)
    (st : World * list event) :
  (forall e σ', fst (write r e σ') = None) ->
  fst (perform r plan st) = None.
Proof.
  intros Hnever. revert st. induction plan as [|e rest IH]; intros [σ tr].
  - reflexivity.
  - cbn [perform]. run_traced. pose proof (Hnever e σ) as He.
    destruct (write r e σ) as [[cause|] σ1]; [discriminate|]. apply IH.
Qed.

Lemma Capture_gather_shape (m : ManagerV2 World) (opts : CaptureOptionsV2.t)
    (σ : World) (tr : list event) :
  exists reads,
    snd (snd (Capture_gather m opts (σ, tr))) = tr ++ reads
    /\ Forall (fun e => is_read e = true) reads
    /\ match fst (Capture_gather m opts (σ, tr)) with
       | inl s =>
           FullSnapshot.ID s = fst (Host.uuid_New (host (v2 m)) σ)
           /\ Snapshot.Name (FullSnapshot.base s) = CaptureOptionsV2.Name opts
           /\ Snapshot.Description (FullSnapshot.base s)
              = CaptureOptionsV2.Description opts
           /\ Snapshot.Tags (FullSnapshot.base s) = CaptureOptionsV2.Tags opts
       | inr msg =>
           (exists cause, msg = "failed to capture windows: " +:+ cause)
           \/ (CaptureOptionsV2.IncludeTerminals opts = true
               /\ exists cause, msg = "failed to capture terminals: " +:+ cause)
       end.
Proof.
  unfold Capture_gather. run_traced.
  repeat (cbn [fst snd]; answer); cbn [fst snd];
    (eexists; split; [rewrite <- ?app_assoc; reflexivity|];
     split; [repeat constructor|]);
    cbn; try (repeat split; reflexivity); eauto.
Qed.

Lemma Capture_run (m : ManagerV2 World) (opts : CaptureOptionsV2.t)
    (st : World * list event) :
  Capture m opts st
  = match Capture_gather m opts st with
    | (inr e, st1) => ((None, Some e), st1)
    | (inl s, st1) =>
        let s' := if CaptureOptionsV2.Sanitize opts
                  then sanitize.SanitizeSnapshot (env_order m) (sanitizer m) s
                  else s in
        match perform (repo (v2 m)) (persist_plan s') st1 with
        | (Some e, st2) => ((None, Some e), st2)
        | (None, st2) => ((Some s', None), st2)
        end
    end.
Proof.
  unfold Capture. unfold mbind, traced.T_bind.
  destruct (Capture_gather m opts st) as [[s|e] st1]; [|reflexivity].
  cbn zeta. rewrite Capture_persist_perform.
  destruct (perform _ _ st1) as [[e|] st2]; reflexivity.
Qed.

(** X16. Every run of [ManagerV2.Capture] first reads (identifier, clock,
    windows, terminals, git context, tabs, files) and only then writes to
    the repository. It returns either a snapshot or an error, never both
    and never neither. With a snapshot, the writes are the whole plan of
    that snapshot, which carries the identifier drawn at the start and the
    name, description and tags of the options. With an error, either
    nothing was written and the error is that of the enumeration of the
    windows or (when terminals are included) of the terminals, or the
    writes are the beginning of a plan and the error is that of the last
    write. *)
Theorem Capture_reads_then_writes (m : ManagerV2 World)
    (opts : CaptureOptionsV2.t) (σ : World) (tr : list event) :
  exists reads writes,
    snd (snd (Capture m opts (σ, tr))) = tr ++ reads ++ writes
    /\ Forall (fun e => is_read e = true) reads
    /\ match fst (Capture m opts (σ, tr)) with
       | (Some s, None) =>
           writes = persist_plan s
           /\ FullSnapshot.ID s = fst (Host.uuid_New (host (v2 m)) σ)
           /\ Snapshot.Name (FullSnapshot.base s) = CaptureOptionsV2.Name opts
           /\ Snapshot.Description (FullSnapshot.base s)
              = CaptureOptionsV2.Description opts
           /\ Snapshot.Tags (FullSnapshot.base s) = CaptureOptionsV2.Tags opts
       | (None, Some msg) =>
           (writes = []
            /\ ((exists cause, msg = "failed to capture windows: " +:+ cause)
                \/ (CaptureOptionsV2.IncludeTerminals opts = true
                    /\ exists cause,
                         msg = "failed to capture terminals: " +:+ cause)))
           \/ (exists s e cause,
                 writes `prefix_of` persist_plan s
                 /\ last writes = Some e /\ msg = write_error e cause)
       | _ => False
       end.
Proof.
  destruct (Capture_gather_shape m opts σ tr) as (reads & Htr & Hreads & Hres).
  rewrite Capture_run.
  destruct (Capture_gather m opts (σ, tr)) as [[s|msg] [σ1 tr1]] eqn:Hg;
    cbn [fst snd] in Htr, Hres; subst tr1; cbn zeta.
  - set (s' := if CaptureOptionsV2.Sanitize opts
               then sanitize.SanitizeSnapshot (env_order m) (sanitizer m) s
               else s).
    assert (Hs' : FullSnapshot.ID s' = FullSnapshot.ID s
                  /\ Snapshot.Name (FullSnapshot.base s')
                     = Snapshot.Name (FullSnapshot.base s)
                  /\ Snapshot.Description (FullSnapshot.base s')
                     = Snapshot.Description (FullSnapshot.base s)
                  /\ Snapshot.Tags (FullSnapshot.base s')
                     = Snapshot.Tags (FullSnapshot.base s)).
    { subst s'. destruct (CaptureOptionsV2.Sanitize opts); [|repeat split].
      destruct (SanitizeSnapshot_fields (env_order m) (sanitizer m) s)
        as (? & ? & ? & ? & _). repeat split; assumption. }
    destruct Hs' as (Hid & Hname & Hdesc & Htags).
    destruct Hres as (Rid & Rname & Rdesc & Rtags).
    destruct (perform_shape (repo (v2 m)) (persist_plan s') σ1 (tr ++ reads))
      as (writes & Hw & Hpre & Hout).
    destruct (perform (repo (v2 m)) (persist_plan s') (σ1, tr ++ reads))
      as [[err|] [σ2 tr2]]; cbn [fst snd] in Hw, Hout |- *; subst tr2;
      exists reads, writes; (split; [now rewrite <- app_assoc|]);
      (split; [exact Hreads|]).
    + right. destruct Hout as (e & cause & _ & Hlast & _ & ->).
      exists s', e, cause. repeat split; assumption.
    + split; [exact Hout|]. rewrite Hid, Hname, Hdesc, Htags. repeat split;
        assumption.
  - exists reads, []. cbn [fst snd]. rewrite app_nil_r.
    split; [reflexivity|]. split; [exact Hreads|]. left. split; [reflexivity|].
    exact Hres.
Qed.

Lemma Capture_gather_windows (m : ManagerV2 World) (opts : CaptureOptionsV2.t)
    (σ σ1 : World) (tr : list event) (windows : list Window.t) :
  PlatformAdapter.GetWindows (platform_ (v2 m)) (capture_start (host (v2 m)) σ)
  = ((windows, None), σ1) ->
  (forall σ', snd (fst (PlatformAdapter.GetTerminals (platform_ (v2 m)) σ')) = None) ->
  exists s,
    fst (Capture_gather m opts (σ, tr)) = inl s
    /\ FullSnapshot.Windows s = windows.
Proof.
  unfold capture_start. intros Hwindows Hterminals.
  unfold Capture_gather. run_traced.
  destruct (Host.uuid_New (host (v2 m)) σ) as [id σa]. cbn [fst snd] in *.
  destruct (Host.time_Now (host (v2 m)) σa) as [created σb]. cbn [fst snd] in *.
  destruct (Host.time_Now (host (v2 m)) σb) as [updated σc]. cbn [fst snd] in *.
  rewrite Hwindows. cbn [fst snd].
  repeat (cbn [fst snd]; answer); cbn [fst snd];
    try (match goal with
         | H : PlatformAdapter.GetTerminals _ ?x = _ |- _ =>
             pose proof (Hterminals x) as Hc; rewrite H in Hc; discriminate
         end);
    eexists; (split; [reflexivity|]); reflexivity.
Qed.

(** X17. A capture does not depend on the git detector, on the enumeration
    of the tabs or on the enumeration of the files: when the windows are
    enumerated, the enumeration of the terminals never fails and the
    repository refuses no write, [ManagerV2.Capture] returns a snapshot
    whatever the three answer. Its windows are those enumerated, as the
    sanitizer leaves them when sanitization is asked for. *)
Theorem Capture_tolerates_optional_failures (m : ManagerV2 World)
    (opts : CaptureOptionsV2.t) (σ σ1 : World) (tr : list event)
    (windows : list Window.t) :
  PlatformAdapter.GetWindows (platform_ (v2 m)) (capture_start (host (v2 m)) σ)
  = ((windows, None), σ1) ->
  (forall σ', snd (fst (PlatformAdapter.GetTerminals (platform_ (v2 m)) σ')) = None) ->
  (forall e σ', fst (write (repo (v2 m)) e σ') = None) ->
  exists s,
    fst (Capture m opts (σ, tr)) = (Some s, None)
    /\ FullSnapshot.Windows s
       = (if CaptureOptionsV2.Sanitize opts
          then map (sanitized_window (sanitizer m)) windows
          else windows).
Proof.
  intros Hwindows Hterminals Hwrites.
  destruct (Capture_gather_windows m opts σ σ1 tr windows Hwindows Hterminals)
    as (s & Hs & Hws).
  rewrite Capture_run.
  destruct (Capture_gather m opts (σ, tr)) as [gathered st1].
  cbn [fst] in Hs. subst gathered. cbn zeta.
  match goal with
  | |- context [perform ?r ?plan ?st] =>
      pose proof (perform_succeeds r plan st Hwrites) as Hok;
      destruct (perform r plan st) as [err st2]
  end.
  cbn [fst] in Hok. subst err. eexists. split; [reflexivity|].
  destruct (CaptureOptionsV2.Sanitize opts); [|exact Hws].
  rewrite SanitizeSnapshot_windows, Hws. reflexivity.
Qed.

Lemma SanitizeSnapshot_terminals_eq (range : sanitize.env_range)
    (s : sanitize.Sanitizer) (snap : FullSnapshot.t) :
  FullSnapshot.Terminals (sanitize.SanitizeSnapshot range s snap)
  = (if sanitize.SanitizationOptions.MaskPaths (sanitize.opts s)
     then map (fun t => Terminal.set_WorkingDirectory
                          (sanitize.maskUser (Terminal.WorkingDirectory t)) t)
     else fun ts => ts)
      ((if 0 <? GoInt.len (sanitize.SanitizationOptions.FilterEnvVars
                             (sanitize.opts s))
        then sanitize.sanitizeTerminals range s
        else fun ts => ts) (FullSnapshot.Terminals snap)).
Proof.
  unfold sanitize.SanitizeSnapshot, sanitize.sanitizePaths.
  destruct snap as [b ts tabs ps fs]. destruct b.
  destruct (sanitize.SanitizationOptions.MaskURLTokens (sanitize.opts s)),
    (0 <? GoInt.len (sanitize.SanitizationOptions.FilterEnvVars (sanitize.opts s))),
    (sanitize.SanitizationOptions.RedactWindowTitles (sanitize.opts s)),
    (sanitize.SanitizationOptions.MaskPaths (sanitize.opts s)); reflexivity.
Qed.

Lemma SanitizeSnapshot_terminals (range : sanitize.env_range)
    (s : sanitize.Sanitizer) (snap : FullSnapshot.t) (t' : Terminal.t) :
  t' ∈ FullSnapshot.Terminals (sanitize.SanitizeSnapshot range s snap) ->
  exists t,
    t ∈ FullSnapshot.Terminals snap
    /\ Terminal.EnvVars t'
       = if 0 <? GoInt.len (sanitize.SanitizationOptions.FilterEnvVars
                              (sanitize.opts s))
         then option_map (sanitize.sanitize_env range s) (Terminal.EnvVars t)
         else Terminal.EnvVars t.
Proof.
  rewrite SanitizeSnapshot_terminals_eq. intros Hin.
  assert (Hpaths :
    exists t1,
      t1 ∈ (if 0 <? GoInt.len (sanitize.SanitizationOptions.FilterEnvVars
                                 (sanitize.opts s))
            then sanitize.sanitizeTerminals range s
            else fun ts => ts) (FullSnapshot.Terminals snap)
      /\ Terminal.EnvVars t' = Terminal.EnvVars t1).
  { destruct (sanitize.SanitizationOptions.MaskPaths (sanitize.opts s)).
    - apply list_elem_of_In, in_map_iff in Hin as (t1 & <- & Hin).
      apply list_elem_of_In in Hin. exists t1. split; [exact Hin|reflexivity].
    - exists t'. split; [exact Hin|reflexivity]. }
  destruct Hpaths as (t1 & Hin1 & ->).
  destruct (0 <? GoInt.len _).
  - unfold sanitize.sanitizeTerminals in Hin1.
    apply list_elem_of_In, in_map_iff in Hin1 as (t & <- & Hin1).
    apply list_elem_of_In in Hin1. exists t. split; [exact Hin1|].
    destruct (Terminal.EnvVars t) eqn:He; cbn; [reflexivity|exact He].
  - exists t1. split; [exact Hin1|reflexivity].
Qed.

Lemma SanitizeSnapshot_redacts (range : sanitize.env_range)
    (s : sanitize.Sanitizer) (snap : FullSnapshot.t) (t' : Terminal.t) :
  sanitize.env_range_ok range ->
  t' ∈ FullSnapshot.Terminals (sanitize.SanitizeSnapshot range s snap) ->
  redacted_terminal s t'.
Proof.
  intros Hrange Hin env key v Henv Hkey Hsens.
  apply SanitizeSnapshot_terminals in Hin as (t & _ & Ht').
  rewrite Henv in Ht'.
  destruct (0 <? GoInt.len _) eqn:Hlen in Ht'.
  - destruct (Terminal.EnvVars t) as [env0|]; [|discriminate].
    injection Ht' as ->.
    rewrite (sanitize_env_lookup range s env0 key Hrange), Hsens in Hkey.
    destruct (env0 !! key); [|discriminate]. now injection Hkey as <-.
  - apply len_pos_iff in Hlen. unfold sensitive_key in Hsens.
    rewrite Hlen in Hsens. discriminate.
Qed.

(** X18. With sanitization asked for, no value of a sensitive environment
    variable reaches the repository: in every call that [ManagerV2.Capture]
    makes, and in the snapshot it returns, the value of each variable of a
    terminal whose key matches a sensitive key is "***REDACTED***". The
    sanitizer runs after the last enumeration and before the first
    write. *)
Theorem Capture_persists_only_redacted_variables (m : ManagerV2 World)
    (opts : CaptureOptionsV2.t) (σ : World) (tr : list event) :
  sanitize.env_range_ok (env_order m) ->
  CaptureOptionsV2.Sanitize opts = true ->
  exists calls,
    snd (snd (Capture m opts (σ, tr))) = tr ++ calls
    /\ (forall e t, e ∈ calls -> t ∈ terminals_written e ->
          redacted_terminal (sanitizer m) t)
    /\ (forall s t, fst (fst (Capture m opts (σ, tr))) = Some s ->
          t ∈ FullSnapshot.Terminals s -> redacted_terminal (sanitizer m) t).
Proof.
  intros Hrange Hsanitize.
  destruct (Capture_gather_shape m opts σ tr) as (reads & Htr & Hreads & _).
  rewrite Capture_run.
  destruct (Capture_gather m opts (σ, tr)) as [[s|msg] [σ1 tr1]];
    cbn [fst snd] in Htr; subst tr1.
  - rewrite Hsanitize. cbn zeta.
    set (s' := sanitize.SanitizeSnapshot (env_order m) (sanitizer m) s).
    destruct (perform_shape (repo (v2 m)) (persist_plan s') σ1 (tr ++ reads))
      as (writes & Hw & Hpre & _).
    destruct (perform (repo (v2 m)) (persist_plan s') (σ1, tr ++ reads))
      as [[err|] [σ2 tr2]]; cbn [fst snd] in Hw |- *; subst tr2;
      exists (reads ++ writes); (split; [now rewrite <- app_assoc|]);
      (split; [|intros s0 t Hs0 Ht; try discriminate; injection Hs0 as <-;
                now apply (SanitizeSnapshot_redacts (env_order m) _ s)]);
      intros e t He Ht; apply elem_of_app in He as [He|He];
      try (rewrite Forall_forall in Hreads; apply Hreads in He;
           destruct e; try discriminate; apply elem_of_nil in Ht; contradiction);
      (assert (Hplan : e ∈ persist_plan s')
         by (destruct Hpre as [k ->]; apply elem_of_app; now left));
      unfold persist_plan, planned in Hplan;
      apply elem_of_cons in Hplan as [->|Hplan];
      try (now apply (SanitizeSnapshot_redacts (env_order m) _ s));
      repeat (apply elem_of_app in Hplan as [Hplan|Hplan]);
      (destruct (0 <? _) in Hplan;
       [apply list_elem_of_singleton in Hplan; subst e
       |apply elem_of_nil in Hplan; contradiction]);
      cbn in Ht; try (apply elem_of_nil in Ht; contradiction);
      now apply (SanitizeSnapshot_redacts (env_order m) _ s).
  - exists reads. cbn [fst snd]. split; [reflexivity|]. split.
    + intros e t He Ht. rewrite Forall_forall in Hreads. apply Hreads in He.
      destruct e; try discriminate; apply elem_of_nil in Ht; contradiction.
    + intros s t Hs. discriminate.
Qed.

Lemma Restore_v1_loop_shape (m : Manager World) (ws : list Window.t)
    (σ : World) (tr : list event) :
  exists calls,
    snd (snd (Restore_v1_loop m ws (σ, tr))) = tr ++ calls
    /\ windows_restored calls = ws
    /\ forall e, e ∈ calls ->
         is_restore e = true
         \/ exists w cause, w ∈ ws /\ e = EvPrintf (restore_error_line w cause).
Proof.
  revert σ tr. induction ws as [|w rest IH]; intros σ tr.
  - exists []. cbn. rewrite app_nil_r. repeat split.
    intros e He. apply elem_of_nil in He. contradiction.
  - cbn [Restore_v1_loop]. run_traced.
    destruct (PlatformAdapter.RestoreWindow (platform_ m) w σ) as [[cause|] σ1];
      cbn [fst snd].
    + destruct (IH (Host.Printf (host m) (restore_error_line w cause) σ1)
                  ((tr ++ [EvRestoreWindow w])
                   ++ [EvPrintf (restore_error_line w cause)]))
        as (calls & Htr & Hfilter & Hcalls).
      exists (EvRestoreWindow w :: EvPrintf (restore_error_line w cause) :: calls).
      split; [|split].
      * unfold restore_error_line in Htr |- *. rewrite Htr, <- !app_assoc.
        reflexivity.
      * unfold windows_restored in Hfilter |- *. cbn [flat_map app].
        now rewrite Hfilter.
      * intros e He. apply elem_of_cons in He as [->|He]; [now left|].
        apply elem_of_cons in He as [->|He].
        -- right. exists w, cause. split; [now left|reflexivity].
        -- destruct (Hcalls e He) as [Hr|(w' & c' & Hw' & ->)]; [now left|].
           right. exists w', c'. split; [now right|reflexivity].
    + destruct (IH σ1 (tr ++ [EvRestoreWindow w]))
        as (calls & Htr & Hfilter & Hcalls).
      exists (EvRestoreWindow w :: calls). split; [|split].
      * rewrite Htr, <- !app_assoc. reflexivity.
      * unfold windows_restored in Hfilter |- *. cbn [flat_map app].
        now rewrite Hfilter.
      * intros e He. apply elem_of_cons in He as [->|He]; [now left|].
        destruct (Hcalls e He) as [Hr|(w' & c' & Hw' & ->)]; [now left|].
        right. exists w', c'. split; [now right|reflexivity].
Qed.

Lemma Restore_v1_loop_run (m : Manager World) (ws : list Window.t)
    (σ : World) (tr : list event) :
  Restore_v1_loop m ws (σ, tr)
  = (tt, (snd (restore_v1_answers m ws σ),
          tr ++ restore_v1_calls ws (fst (restore_v1_answers m ws σ)))).
Proof.
  revert σ tr. induction ws as [|w rest IH]; intros σ tr.
  - cbn. now rewrite app_nil_r.
  - cbn [Restore_v1_loop restore_v1_answers]. run_traced.
    destruct (PlatformAdapter.RestoreWindow (platform_ m) w σ) as [[cause|] σ1];
      cbn [fst snd].
    + fold (restore_error_line w cause). rewrite IH.
      destruct (restore_v1_answers m rest _) as [answers σ3].
      cbn [fst snd restore_v1_calls app]. rewrite <- !app_assoc. reflexivity.
    + rewrite IH. destruct (restore_v1_answers m rest σ1) as [answers σ3].
      cbn [fst snd restore_v1_calls app]. rewrite <- !app_assoc. reflexivity.
Qed.

Lemma restore_v1_answers_length (m : Manager World) (ws : list Window.t)
    (σ : World) :
  length (fst (restore_v1_answers m ws σ)) = length ws.
Proof.
  revert σ. induction ws as [|w rest IH]; intros σ; [reflexivity|].
  cbn [restore_v1_answers].
  destruct (PlatformAdapter.RestoreWindow (platform_ m) w σ) as [answer σ1].
  match goal with
  | |- context [restore_v1_answers m rest ?x] =>
      specialize (IH x); destruct (restore_v1_answers m rest x) as [answers σ3]
  end.
  cbn [fst length] in *. now rewrite IH.
Qed.

Lemma restore_v1_calls_failure (ws : list Window.t)
    (answers : list (option error)) (i : nat) (w : Window.t) (cause : error) :
  ws !! i = Some w -> answers !! i = Some (Some cause) ->
  exists before after,
    restore_v1_calls ws answers
    = before ++ EvRestoreWindow w :: EvPrintf (restore_error_line w cause)
             :: after.
Proof.
  revert answers i. induction ws as [|w0 rest IH]; intros answers i Hw Ha;
    [rewrite lookup_nil in Hw; discriminate|].
  destruct answers as [|a0 answers]; [rewrite lookup_nil in Ha; discriminate|].
  destruct i as [|i]; cbn in Hw, Ha.
  - injection Hw as ->. injection Ha as ->. exists [], (restore_v1_calls rest answers).
    reflexivity.
  - destruct (IH answers i Hw Ha) as (before & after & Hcalls).
    cbn [restore_v1_calls]. rewrite Hcalls.
    exists (EvRestoreWindow w0
            :: match a0 with
               | Some c0 => [EvPrintf (restore_error_line w0 c0)]
               | None => []
               end ++ before), after.
    cbn [app]. rewrite <- app_assoc. reflexivity.
Qed.

(** X19. Once the snapshot is loaded, [Manager.Restore] returns no error,
    whatever happens to the windows: it asks the platform to restore each
    window once, in order, and after each request that the platform
    answers with an error it prints the line of that window with that
    error and goes on; after a request that succeeds it prints nothing.
    When the windows cannot be read from the repository it does not fail
    either, and restores the windows that the loaded snapshot carries. It
    writes nothing to the repository. *)
Theorem Restore_v1_reports_no_failure (m : Manager World) (snapshotID : string)
    (σ σ1 σ2 : World) (tr : list event) (s : FullSnapshot.t)
    (ws : list Window.t) (err : option error) :
  Repository.GetSnapshotByID (repo m) snapshotID σ = ((Some s, None), σ1) ->
  Repository.GetWindows (repo m) snapshotID σ1 = ((ws, err), σ2) ->
  exists calls,
    fst (Restore_v1 m snapshotID (σ, tr)) = None
    /\ snd (snd (Restore_v1 m snapshotID (σ, tr)))
       = tr ++ [EvGetSnapshotByID snapshotID; EvRepoGetWindows snapshotID]
            ++ calls
    /\ windows_restored calls
       = (match err with None => ws | Some _ => FullSnapshot.Windows s end)
    /\ (forall e, e ∈ calls ->
          is_write e = false
          /\ (is_restore e = true
              \/ exists w cause,
                   w ∈ (match err with
                        | None => ws
                        | Some _ => FullSnapshot.Windows s
                        end)
                   /\ e = EvPrintf (restore_error_line w cause)))
    /\ (let targets :=
          match err with None => ws | Some _ => FullSnapshot.Windows s end in
        let answers := fst (restore_v1_answers m targets σ2) in
        calls = restore_v1_calls targets answers
        /\ fst (snd (Restore_v1 m snapshotID (σ, tr)))
           = snd (restore_v1_answers m targets σ2)
        /\ length answers = length targets
        /\ forall (i : nat) w cause,
             targets !! i = Some w -> answers !! i = Some (Some cause) ->
             exists before after,
               calls = before ++ EvRestoreWindow w
                              :: EvPrintf (restore_error_line w cause) :: after).
Proof.
  intros Hload Hwindows. unfold Restore_v1. run_traced.
  rewrite Hload. cbn [fst snd]. rewrite Hwindows. cbn [fst snd].
  set (targets := match err with None => ws | Some _ => FullSnapshot.Windows s end).
  assert (Htargets :
    FullSnapshot.Windows
      (match err with
       | None => FullSnapshot.set_Windows ws s
       | Some _ => s
       end) = targets)
    by (subst targets; destruct err, s as [[]]; reflexivity).
  rewrite Htargets.
  destruct (Restore_v1_loop_shape m targets σ2
              ((tr ++ [EvGetSnapshotByID snapshotID])
               ++ [EvRepoGetWindows snapshotID]))
    as (calls & Htr & Hfilter & Hcalls).
  rewrite Restore_v1_loop_run in Htr |- *.
  cbn [fst snd] in Htr |- *. apply app_inv_head in Htr. subst calls.
  exists (restore_v1_calls targets (fst (restore_v1_answers m targets σ2))).
  split; [reflexivity|]. split; [now rewrite <- !app_assoc|].
  split; [exact Hfilter|]. split.
  { intros e He. destruct (Hcalls e He) as [Hr|(w & cause & Hw & ->)].
    - split; [now destruct e|now left].
    - split; [reflexivity|]. right. exists w, cause.
      split; [exact Hw|reflexivity]. }
  cbn zeta. split; [reflexivity|]. split; [reflexivity|].
  split; [apply restore_v1_answers_length|].
  intros i w cause Hw Ha. now apply restore_v1_calls_failure with (i := i).
Qed.

Lemma Capture_v1_files_shape (m : Manager World) (s : FullSnapshot.t)
    (σ : World) (tr : list event) :
  FullSnapshot.IDEFiles s = [] ->
  exists calls,
    snd (snd (Capture_v1_files m s (σ, tr))) = tr ++ calls
    /\ match fst (Capture_v1_files m s (σ, tr)) with
       | (Some s', None) =>
           List.filter is_write calls
           = planned (FullSnapshot.IDEFiles s')
               (EvSaveIDEFiles (FullSnapshot.ID s') (FullSnapshot.IDEFiles s'))
           /\ FullSnapshot.set_IDEFiles [] s' = s
       | (None, Some _) => True
       | _ => False
       end.
Proof.
  intros Hfiles. unfold Capture_v1_files. run_traced.
  destruct s as [b ts tabs ps fs]. cbn in Hfiles. subst fs.
  repeat (cbn [fst snd]; answer); cbn [fst snd];
    (eexists; split; [rewrite <- ?app_assoc; reflexivity|]);
    try exact I; unfold planned; project; use_lengths; project;
    split; reflexivity.
Qed.

Lemma Capture_v1_tabs_shape (m : Manager World) (opts : CaptureOptions.t)
    (s : FullSnapshot.t) (σ : World) (tr : list event) :
  FullSnapshot.BrowserTabs s = [] ->
  FullSnapshot.IDEFiles s = [] ->
  exists calls,
    snd (snd (Capture_v1_tabs m opts s (σ, tr))) = tr ++ calls
    /\ match fst (Capture_v1_tabs m opts s (σ, tr)) with
       | (Some s', None) =>
           List.filter is_write calls
           = planned (FullSnapshot.BrowserTabs s')
               (EvSaveBrowserTabs (FullSnapshot.ID s')
                  (FullSnapshot.BrowserTabs s'))
             ++ planned (FullSnapshot.IDEFiles s')
                  (EvSaveIDEFiles (FullSnapshot.ID s')
                     (FullSnapshot.IDEFiles s'))
           /\ without_tabs_and_files s' = s
       | (None, Some _) => True
       | _ => False
       end.
Proof.
  intros Htabs Hfiles. unfold Capture_v1_tabs. run_traced.
  destruct s as [b ts tabs ps fs]. cbn in Htabs, Hfiles. subst tabs fs.
  repeat (cbn [fst snd]; answer_inside); cbn [fst snd];
    try (eexists; split; [rewrite <- ?app_assoc; reflexivity|exact I]);
    match goal with
    | |- context [Capture_v1_files m ?s0 (?σ0, ?tr0)] =>
        destruct (Capture_v1_files_shape m s0 σ0 tr0 eq_refl)
          as (calls & Htr & Hres);
        destruct (Capture_v1_files m s0 (σ0, tr0)) as [[[s'|] [msg|]] [σ' tr']]
    end;
    cbn [fst snd] in Htr, Hres |- *; try contradiction; subst tr';
    (eexists; split; [rewrite <- ?app_assoc; reflexivity|]); try exact I;
    destruct Hres as (Hwrites & Hs'); destruct s' as [b' ts' tabs' ps' fs'];
    injection Hs' as -> -> -> ->;
    unfold planned in Hwrites |- *; project; use_lengths; project;
    rewrite ?Hwrites; split; reflexivity.
Qed.

Lemma Capture_v1_save_shape (m : Manager World) (opts : CaptureOptions.t)
    (s : FullSnapshot.t) (σ : World) (tr : list event) :
  FullSnapshot.BrowserTabs s = [] ->
  FullSnapshot.IDEFiles s = [] ->
  exists calls,
    snd (snd (Capture_v1_save m opts s (σ, tr)))
    = tr ++ EvCreateSnapshot s :: calls
    /\ match fst (Capture_v1_save m opts s (σ, tr)) with
       | (Some s', None) =>
           List.filter is_write calls = tail (persist_plan s')
           /\ without_tabs_and_files s' = s
       | (None, Some _) => True
       | _ => False
       end.
Proof.
  intros Htabs Hfiles. unfold Capture_v1_save. run_traced.
  repeat (cbn [fst snd]; answer_inside); cbn [fst snd];
    try (eexists; split; [rewrite <- ?app_assoc; reflexivity|exact I]);
    match goal with
    | |- context [Capture_v1_tabs m opts s (?σ0, ?tr0)] =>
        destruct (Capture_v1_tabs_shape m opts s σ0 tr0 Htabs Hfiles)
          as (calls & Htr & Hres);
        destruct (Capture_v1_tabs m opts s (σ0, tr0))
          as [[[s'|] [msg|]] [σ' tr']]
    end;
    cbn [fst snd] in Htr, Hres |- *; try contradiction; subst tr';
    (eexists; split; [rewrite <- ?app_assoc; reflexivity|]); try exact I;
    destruct Hres as (Hwrites & Hs'); (split; [|exact Hs']);
    unfold persist_plan, planned; cbn [tail];
    (assert (Hw : FullSnapshot.Windows s' = FullSnapshot.Windows s
                  /\ FullSnapshot.Terminals s' = FullSnapshot.Terminals s
                  /\ FullSnapshot.ID s' = FullSnapshot.ID s)
       by (rewrite <- Hs'; destruct s'; repeat split));
    destruct Hw as (-> & -> & Hid); rewrite ?Hid in *;
    use_lengths; cbn [app List.filter is_write];
    rewrite Hwrites; reflexivity.
Qed.

(** X20. [Manager.Capture] saves the metadata before it knows the tabs and
    the files: it first draws the identifier, reads the clock and
    enumerates windows, terminals and git context, then hands to
    [CreateSnapshot] a snapshot without tabs and files, and only then
    enumerates and saves them. When it returns a snapshot, the component
    lists it saved are those that the plan of [ManagerV2.Capture] saves
    for that snapshot, and the snapshot it created is the returned one
    without its tabs and files. It returns either a snapshot or an
    error. *)
Theorem Capture_v1_saves_metadata_first (m : Manager World)
    (opts : CaptureOptions.t) (σ : World) (tr : list event) :
  exists reads rest,
    snd (snd (Capture_v1 m opts (σ, tr))) = tr ++ reads ++ rest
    /\ Forall (fun e => is_early_read e = true) reads
    /\ match fst (Capture_v1 m opts (σ, tr)) with
       | (Some s, None) =>
           head rest = Some (EvCreateSnapshot (without_tabs_and_files s))
           /\ List.filter is_write rest
              = EvCreateSnapshot (without_tabs_and_files s)
                :: tail (persist_plan s)
       | (None, Some _) =>
           rest = []
           \/ exists s0,
                head rest = Some (EvCreateSnapshot s0)
                /\ FullSnapshot.BrowserTabs s0 = []
                /\ FullSnapshot.IDEFiles s0 = []
       | _ => False
       end.
Proof.
  unfold Capture_v1. run_traced.
  repeat (cbn [fst snd]; answer_inside); cbn [fst snd];
    lazymatch goal with
    | |- context [Capture_v1_save m opts ?s0 (?σ0, ?tr0)] =>
        assert (Hreads : exists reads,
                   tr0 = tr ++ reads
                   /\ Forall (fun e => is_early_read e = true) reads)
          by (eexists; split;
              [rewrite <- ?app_assoc; reflexivity|repeat constructor]);
        destruct Hreads as (reads & -> & Hreads);
        destruct (Capture_v1_save_shape m opts s0 σ0 (tr ++ reads)
                    eq_refl eq_refl) as (calls & Htr & Hres);
        destruct (Capture_v1_save m opts s0 (σ0, tr ++ reads))
          as [[[s'|] [msg|]] [σ' tr']];
        cbn [fst snd] in Htr, Hres |- *; try contradiction; subst tr';
        exists reads, (EvCreateSnapshot s0 :: calls);
        (split; [now rewrite <- app_assoc|]); (split; [exact Hreads|]);
        [destruct Hres as (Hwrites & ->); cbn [head List.filter is_write];
         rewrite Hwrites; split; reflexivity
        |right; exists s0; repeat split; reflexivity]
    | |- _ =>
        eexists; exists []; rewrite app_nil_r;
        split; [rewrite <- ?app_assoc; reflexivity|];
        split; [repeat constructor|now left]
    end.
Qed.

End CaptureProperties.

(** ** The capture on the desk *)

Lemma Capture_of_desk_without_git :
  exists s,
    fst (capture.Capture (go := ascii_strings) (text := plain_text)
           (workstation.managerV2 workstation.desk)
           (capture.CaptureOptionsV2.mk "desk" "" [] true true false)
           (workstation.start, []))
    = (Some s, None)
    /\ length (components.FullSnapshot.Windows s) = 2%nat.
Proof.
  destruct (Capture_tolerates_optional_failures (go := ascii_strings)
              (text := plain_text) (workstation.managerV2 workstation.desk)
              (capture.CaptureOptionsV2.mk "desk" "" [] true true false)
              workstation.start
              (workstation.tick (workstation.tick workstation.start)) []
              (fst (workstation.windows workstation.desk)))
    as (s & Hs & Hws).
  - reflexivity.
  - intros σ'. reflexivity.
  - intros e σ'. destruct e; reflexivity.
  - exists s. split; [exact Hs|]. rewrite Hws. reflexivity.
Defined.

Lemma Capture_of_desk_redacts_GITHUB_TOKEN :
  exists s,
    fst (fst (capture.Capture (go := ascii_strings) (text := plain_text)
                (workstation.managerV2 workstation.desk)
                (capture.CaptureOptionsV2.mk "desk" "" [] true true true)
                (workstation.start, [])))
    = Some s
    /\ length (components.FullSnapshot.Terminals s) = 2%nat
    /\ forall t, t ∈ components.FullSnapshot.Terminals s ->
         redacted_terminal (go := ascii_strings) (text := plain_text)
           (sanitize.NewSanitizer sanitize.DefaultOptions) t.
Proof.
  destruct (Capture_persists_only_redacted_variables (go := ascii_strings)
              (text := plain_text) (workstation.managerV2 workstation.desk)
              (capture.CaptureOptionsV2.mk "desk" "" [] true true true)
              workstation.start [])
    as (calls & _ & _ & Hreturned).
  - intros env. reflexivity.
  - reflexivity.
  - destruct (fst (fst (capture.Capture _ _ _))) as [s|] eqn:Hs in Hreturned |- *.
    + exists s. split; [reflexivity|]. split.
      * apply (f_equal (fun o => option_map
                 (fun s => length (components.FullSnapshot.Terminals s)) o)) in Hs.
        vm_compute in Hs. injection Hs as Hs. symmetry. exact Hs.
      * intros t Ht. exact (Hreturned s t eq_refl Ht).
    + vm_compute in Hs. discriminate.
Defined.

Lemma Restore_v1_of_desk_with_locked_database :
  fst (capture.Restore_v1 (workstation.manager workstation.desk) "7f3c"
         (workstation.start, [])) = None
  /\ snd (snd (capture.Restore_v1 (workstation.manager workstation.desk)
                 "7f3c" (workstation.start, [])))
     = [capture.EvGetSnapshotByID "7f3c"; capture.EvRepoGetWindows "7f3c";
        capture.EvRestoreWindow (inmemory.window "one" "code" 800 600);
        capture.EvRestoreWindow (inmemory.window "two" "term" 800 600);
        capture.EvPrintf
          (restore_error_line (inmemory.window "two" "term" 800 600)
             "no suitable window found")].
Proof.
  destruct (Restore_v1_reports_no_failure
              (workstation.manager workstation.desk) "7f3c"
              workstation.start workstation.start workstation.start []
              _ _ _ eq_refl eq_refl)
    as (calls & Hnone & Htr & _ & _ & Hcalls & _).
  split; [exact Hnone|]. rewrite Htr, Hcalls. reflexivity.
Defined.

Lemma Capture_persist_stops_at_refused_terminals :
  capture.Capture_persist
    (workstation.repository workstation.desk_refusing_terminals)
    workstation.captured (workstation.start, [])
  = (Some "failed to save terminals: disk full",
     (workstation.start,
      [capture.EvCreateSnapshot workstation.captured;
       capture.EvSaveWindows "7f3c"
         (components.FullSnapshot.Windows workstation.captured);
       capture.EvSaveTerminals "7f3c" shells.terminals])).
Proof.
  destruct (Capture_persist_follows_plan
              (workstation.repository workstation.desk_refusing_terminals)
              workstation.captured workstation.start [])
    as (_ & _ & Hrefused).
  exact (Hrefused
           [capture.EvCreateSnapshot workstation.captured;
            capture.EvSaveWindows "7f3c"
              (components.FullSnapshot.Windows workstation.captured)]
           (capture.EvSaveTerminals "7f3c" shells.terminals) []
           "disk full" eq_refl (conj eq_refl (conj eq_refl I)) eq_refl).
Defined.
(** * Properties of the adapters for Windows *)

Ltac run_adapter :=
  unfold adapters.enumerate, adapters.derived, traced.call, traced.pure,
    traced.tell, mbind, mret, traced.T_bind, traced.T_ret;
  cbn [fst snd].

Section AdapterProperties.
Import core components platform adapters.
Context {go : GoStrings} {text : GoText}.
Context {World : Type}.
Variable user32 : User32.t World.

Lemma isTerminal_cases (app : string) :
  isTerminal app = true ->
  app = "WindowsTerminal.exe" \/ app = "cmd.exe" \/ app = "powershell.exe"
  \/ app = "pwsh.exe" \/ app = "mintty.exe".
Proof.
  unfold isTerminal. cbn [existsb]. rewrite !orb_true_iff, !String.eqb_eq.
  intuition congruence.
Qed.

Lemma isBrowser_cases (app : string) :
  isBrowser app = true ->
  app = "chrome.exe" \/ app = "msedge.exe" \/ app = "firefox.exe"
  \/ app = "brave.exe" \/ app = "opera.exe".
Proof.
  unfold isBrowser. cbn [existsb]. rewrite !orb_true_iff, !String.eqb_eq.
  intuition congruence.
Qed.

Lemma classification_exclusive (app : string) :
  isTerminal app && isBrowser app = false
  /\ isTerminal app && isIDE app = false
  /\ isBrowser app && isIDE app = false.
Proof.
  split; [|split].
  - destruct (isTerminal app) eqn:Ht; [|reflexivity].
    apply isTerminal_cases in Ht. intuition (subst; reflexivity).
  - destruct (isTerminal app) eqn:Ht; [|reflexivity].
    apply isTerminal_cases in Ht. intuition (subst; reflexivity).
  - destruct (isBrowser app) eqn:Hb; [|reflexivity].
    apply isBrowser_cases in Hb. intuition (subst; reflexivity).
Qed.

(** X21. The three classes of applications are disjoint, and a shell is
    guessed only for a terminal. So each window yields at most one
    terminal, tab or file: the three lists that the adapters derive from
    the windows have together at most as many elements as there are
    windows. *)
Theorem each_window_yields_at_most_one_component (windowsList : list Window.t)
    (app : string) :
  isTerminal app && isBrowser app = false
  /\ isTerminal app && isIDE app = false
  /\ isBrowser app && isIDE app = false
  /\ (guessShell app = "unknown" \/ isTerminal app = true)
  /\ (length (terminals_of windowsList) + length (tabs_of windowsList)
      + length (files_of windowsList) <= length windowsList)%nat.
Proof.
  destruct (classification_exclusive app) as (H1 & H2 & H3).
  split; [exact H1|]. split; [exact H2|]. split; [exact H3|]. split.
  - unfold guessShell.
    destruct (String.eqb_spec app "cmd.exe") as [->|_]; [now right|].
    destruct (String.eqb_spec app "powershell.exe") as [->|_]; [now right|].
    destruct (String.eqb_spec app "pwsh.exe") as [->|_]; [now right|].
    now left.
  - induction windowsList as [|win rest IH]; [reflexivity|].
    unfold terminals_of, tabs_of, files_of in *. cbn [flat_map].
    rewrite !length_app.
    destruct (classification_exclusive (Window.AppName win)) as (E1 & E2 & E3).
    destruct (isTerminal (Window.AppName win)),
      (isBrowser (Window.AppName win)), (isIDE (Window.AppName win));
      try discriminate; cbn [length]; lia.
Qed.

Lemma GetWindows_v2_run (σ : World) (tr : list os_call) :
  WindowsAdapterV2.GetWindows user32 (σ, tr)
  = ((flat_map WindowsAdapterV2.window_of (fst (User32.EnumWindows user32 σ)),
      None),
     (snd (User32.EnumWindows user32 σ), tr ++ [OsEnumWindows])).
Proof.
  unfold WindowsAdapterV2.GetWindows. run_adapter.
  destruct (User32.EnumWindows user32 σ) as [views σ1]. reflexivity.
Qed.

Lemma derived_v2_run {A : Type} (select : list Window.t -> list A)
    (σ : World) (tr : list os_call) :
  derived (WindowsAdapterV2.GetWindows user32) select (σ, tr)
  = ((select (flat_map WindowsAdapterV2.window_of
                (fst (User32.EnumWindows user32 σ))), None),
     (snd (User32.EnumWindows user32 σ), tr ++ [OsEnumWindows])).
Proof.
  unfold derived. unfold mbind, traced.T_bind. rewrite GetWindows_v2_run.
  reflexivity.
Qed.

Lemma appName_of_not_empty (v : view.t) : appName_of v <> "".
Proof.
  unfold appName_of.
  destruct (String.eqb_spec
              (getProcessName v (view.GetWindowThreadProcessId v)) "")
    as [_|Hne]; [discriminate|exact Hne].
Qed.

Lemma elem_of_window_of_v2 (w : Window.t) (views : list view.t) :
  w ∈ flat_map WindowsAdapterV2.window_of views ->
  exists v, v ∈ views /\ WindowsAdapterV2.window_of v = [w] /\ reported v.
Proof.
  intros Hin. apply list_elem_of_In, in_flat_map in Hin as (v & Hv & Hw).
  exists v. split; [now apply list_elem_of_In|].
  unfold WindowsAdapterV2.window_of, reported in *.
  destruct (Z.eqb_spec (view.IsWindowVisible v) 0) as [|Hvis]; [destruct Hw|].
  destruct (Z.eqb_spec (view.GetWindowTextLengthW v) 0) as [|Hlen];
    [destruct Hw|].
  destruct Hw as [<-|[]]. repeat split; assumption.
Qed.

Lemma length_flat_map_le {A B : Type} (f : A -> list B) (l : list A) :
  (forall a, length (f a) <= 1)%nat ->
  (length (flat_map f l) <= length l)%nat.
Proof.
  intros Hf. induction l as [|a l IH]; [reflexivity|].
  cbn [flat_map]. rewrite length_app. cbn [length]. pose proof (Hf a). lia.
Qed.

(** X26. [GetWindows] of [WindowsAdapterV2] never fails and enumerates
    once. It reports the visible windows with a title, in the order of the
    enumeration, each with a non-empty application name (the name of the
    process or "PID_" and its number) and an empty path. The state it
    records is that which [setWindowPosition] turns back into the command
    for [ShowWindow]: 6 for an iconic window, else 3 for a zoomed one, else
    1; "fullscreen" is never recorded. *)
Theorem GetWindows_v2_reports_visible_titled_windows (σ : World)
    (tr : list os_call) :
  exists ws,
    WindowsAdapterV2.GetWindows user32 (σ, tr)
    = ((ws, None), (snd (User32.EnumWindows user32 σ), tr ++ [OsEnumWindows]))
    /\ (length ws <= length (fst (User32.EnumWindows user32 σ)))%nat
    /\ forall w, w ∈ ws ->
         exists v,
           v ∈ fst (User32.EnumWindows user32 σ) /\ reported v
           /\ Window.WindowTitle w = view.GetWindowTextW v
           /\ Window.AppName w = appName_of v /\ Window.AppName w <> ""
           /\ Window.AppPath w = ""
           /\ Window.State w <> "fullscreen"
           /\ WindowsAdapterV2.show_command (Window.State w)
              = if negb (view.IsIconic v =? 0) then 6
                else if negb (view.IsZoomed v =? 0) then 3 else 1.
Proof.
  eexists. split; [apply GetWindows_v2_run|]. split.
  - apply length_flat_map_le. intros v. unfold WindowsAdapterV2.window_of.
    destruct (_ =? 0); [cbn; lia|]. destruct (_ =? 0); cbn; lia.
  - intros w Hw. apply elem_of_window_of_v2 in Hw as (v & Hv & Hw & Hrep).
    exists v. split; [exact Hv|]. split; [exact Hrep|].
    unfold WindowsAdapterV2.window_of in Hw. destruct Hrep as [Hvis Hlen].
    apply Z.eqb_neq in Hvis, Hlen. rewrite Hvis, Hlen in Hw.
    injection Hw as <-. cbn [Window.WindowTitle Window.AppName Window.AppPath
                             Window.State].
    split; [reflexivity|]. split; [reflexivity|].
    split; [apply appName_of_not_empty|]. split; [reflexivity|].
    unfold WindowsAdapterV2.getWindowState.
    destruct (negb (view.IsIconic v =? 0)); [split; [discriminate|reflexivity]|].
    destruct (negb (view.IsZoomed v =? 0)); split; try discriminate; reflexivity.
Qed.

Lemma sanitizeTerminals_terminals_of (range : sanitize.env_range)
    (s : sanitize.Sanitizer) (ws : list Window.t) :
  sanitize.sanitizeTerminals range s (terminals_of ws) = terminals_of ws
  /\ Forall (fun t => Terminal.EnvVars t = None) (terminals_of ws).
Proof.
  unfold terminals_of, sanitize.sanitizeTerminals.
  induction ws as [|win rest [IH1 IH2]]; [split; [reflexivity|constructor]|].
  cbn [flat_map]. rewrite map_app, IH1.
  destruct (isTerminal (Window.AppName win)); cbn.
  - split; [reflexivity|]. constructor; [reflexivity|exact IH2].
  - split; [reflexivity|exact IH2].
Qed.

Lemma sanitizeBrowserTabs_tabs_of (s : sanitize.Sanitizer) (ws : list Window.t) :
  sanitize.sanitizeBrowserTabs (tabs_of ws) = tabs_of ws
  /\ Forall (fun tab => BrowserTab.URL tab = "") (tabs_of ws).
Proof.
  unfold tabs_of, sanitize.sanitizeBrowserTabs.
  induction ws as [|win rest [IH1 IH2]]; [split; [reflexivity|constructor]|].
  cbn [flat_map]. rewrite map_app, IH1.
  destruct (isBrowser (Window.AppName win)); cbn.
  - split; [reflexivity|]. constructor; [reflexivity|exact IH2].
  - split; [reflexivity|exact IH2].
Qed.

(** X22. The terminals and tabs that [WindowsAdapterV2] enumerates have
    nothing for the sanitizer to hide: the enumerations never fail, no
    terminal has an environment and no tab a URL, so that
    [sanitizeTerminals] and [sanitizeBrowserTabs] give them back
    unchanged, whatever the options. *)
Theorem enumerated_components_need_no_masking (range : sanitize.env_range)
    (s : sanitize.Sanitizer) (σ : World) (tr : list os_call) :
  exists ts tabs st1 st2,
    WindowsAdapterV2.GetTerminals user32 (σ, tr) = ((ts, None), st1)
    /\ WindowsAdapterV2.GetBrowserTabs user32 (σ, tr) = ((tabs, None), st2)
    /\ Forall (fun t => Terminal.EnvVars t = None) ts
    /\ Forall (fun tab => BrowserTab.URL tab = "") tabs
    /\ sanitize.sanitizeTerminals range s ts = ts
    /\ sanitize.sanitizeBrowserTabs tabs = tabs.
Proof.
  unfold WindowsAdapterV2.GetTerminals, WindowsAdapterV2.GetBrowserTabs.
  rewrite !derived_v2_run.
  set (ws := flat_map WindowsAdapterV2.window_of _).
  destruct (sanitizeTerminals_terminals_of range s ws) as [Ht1 Ht2].
  destruct (sanitizeBrowserTabs_tabs_of s ws) as [Hb1 Hb2].
  do 4 eexists. split; [reflexivity|]. split; [reflexivity|].
  repeat split; assumption.
Qed.

Lemma setWindowPosition_run (hwnd : Z) (window : Window.t) (σ : World)
    (tr : list os_call) :
  exists calls,
    snd (snd (WindowsAdapterV2.setWindowPosition user32 hwnd window (σ, tr)))
    = tr ++ move_call hwnd window :: calls
    /\ match fst (WindowsAdapterV2.setWindowPosition user32 hwnd window (σ, tr))
       with
       | None =>
           calls = [OsShowWindow (uintptr hwnd)
                      (WindowsAdapterV2.show_command (Window.State window))]
       | Some _ => calls = []
       end.
Proof.
  unfold WindowsAdapterV2.setWindowPosition, move_call. run_adapter.
  destruct (User32.SetWindowPos user32 _ _ _ _ _ _ _ σ) as [[ret err] σ1].
  cbn [fst snd]. destruct (ret =? 0); cbn [fst snd].
  - exists []. split; reflexivity.
  - eexists. split; [rewrite <- app_assoc; reflexivity|reflexivity].
Qed.

Lemma RestoreWindow_v2_run (w : WindowsAdapterV2.t) (window : Window.t)
    (σ : World) (tr : list os_call) :
  WindowsAdapterV2.RestoreWindow user32 w window (σ, tr)
  = let '(views1, σ1) := User32.EnumWindows user32 σ in
    match FindBestMatch (WindowsAdapterV2.matcher w) window
            (flat_map WindowsAdapterV2.window_of views1) with
    | Panic p => (Panic p, (σ1, tr ++ [OsEnumWindows]))
    | Ok None =>
        (Ok (Some ("no suitable window found for: "
                   +:+ Window.WindowTitle window +:+ " (app: "
                   +:+ Window.AppName window +:+ ")")),
         (σ1, tr ++ [OsEnumWindows]))
    | Ok (Some best) =>
        let line := WindowsAdapterV2.matched_line window best in
        let '(views2, σ2) :=
          User32.EnumWindows user32 (User32.log_Printf user32 line σ1) in
        let h := WindowsAdapterV2.first_titled
                   (Window.WindowTitle (MatchResult.Window best)) views2 in
        let tr2 := tr ++ [OsEnumWindows; OsLog line; OsEnumWindows] in
        if h =? 0 then
          (Ok (Some ("window handle not found for: "
                     +:+ Window.WindowTitle (MatchResult.Window best))),
           (σ2, tr2))
        else
          let '(err, st) :=
            WindowsAdapterV2.setWindowPosition user32 h window (σ2, tr2) in
          (Ok err, st)
    end.
Proof.
  unfold WindowsAdapterV2.RestoreWindow, WindowsAdapterV2.GetWindows,
    WindowsAdapterV2.findWindowHandle.
  run_adapter.
  destruct (User32.EnumWindows user32 σ) as [views1 σ1]. cbn [fst snd].
  destruct (FindBestMatch _ _ _) as [[best|]|p]; try reflexivity.
  cbn [fst snd].
  destruct (User32.EnumWindows user32 _) as [views2 σ2]. cbn [fst snd]. cbn zeta.
  rewrite <- !app_assoc. cbn [app].
  destruct (_ =? 0); [reflexivity|].
  destruct (WindowsAdapterV2.setWindowPosition _ _ _ _) as [err st].
  reflexivity.
Qed.

(** X23. [RestoreWindow] of [WindowsAdapterV2] never panics. When it
    returns no error it has enumerated the windows twice, logged the
    match, moved one window with [SetWindowPos] to the saved position and
    size (flags [SWP_NOZORDER|SWP_NOACTIVATE]) and then shown it with the
    command of the saved state: 3 for "maximized", 6 for "minimized", 1
    for every other state. When it returns an error it has called
    [ShowWindow] not at all, and [SetWindowPos] at most once, as its last
    call. *)
Theorem RestoreWindow_v2_outcomes (w : WindowsAdapterV2.t) (window : Window.t)
    (σ : World) (tr : list os_call) :
  exists r calls,
    fst (WindowsAdapterV2.RestoreWindow user32 w window (σ, tr)) = Ok r
    /\ snd (snd (WindowsAdapterV2.RestoreWindow user32 w window (σ, tr)))
       = tr ++ calls
    /\ match r with
       | None =>
           exists line h,
             h <> 0
             /\ calls = [OsEnumWindows; OsLog line; OsEnumWindows;
                         move_call h window;
                         OsShowWindow (uintptr h)
                           (WindowsAdapterV2.show_command (Window.State window))]
       | Some _ =>
           calls = [OsEnumWindows]
           \/ (exists line, calls = [OsEnumWindows; OsLog line; OsEnumWindows])
           \/ (exists line h,
                 calls = [OsEnumWindows; OsLog line; OsEnumWindows;
                          move_call h window])
       end.
Proof.
  rewrite RestoreWindow_v2_run.
  destruct (User32.EnumWindows user32 σ) as [views1 σ1].
  destruct (FindBestMatch_best_of (WindowsAdapterV2.matcher w) window
              (flat_map WindowsAdapterV2.window_of views1)) as (r & -> & _).
  destruct r as [best|].
  - cbn zeta. destruct (User32.EnumWindows user32 _) as [views2 σ2].
    destruct (Z.eqb_spec (WindowsAdapterV2.first_titled
                            (Window.WindowTitle (MatchResult.Window best))
                            views2) 0) as [Hzero|Hfound].
    + eexists _, _. split; [reflexivity|]. cbn [fst snd].
      split; [reflexivity|]. right. left. eexists. reflexivity.
    + match goal with
      | |- context [WindowsAdapterV2.setWindowPosition user32 ?h window
                      (?σ3, ?tr3)] =>
          destruct (setWindowPosition_run h window σ3 tr3)
            as (calls & Htr & Hres);
          destruct (WindowsAdapterV2.setWindowPosition user32 h window (σ3, tr3))
            as [[e|] [σ4 tr4]]
      end;
        cbn [fst snd] in Htr, Hres |- *; subst calls tr4;
        eexists _, _; (split; [reflexivity|]);
        (split; [rewrite <- ?app_assoc; reflexivity|]).
      * right. right. eexists _, _. reflexivity.
      * eexists _, _. split; [exact Hfound|reflexivity].
  - eexists _, _. split; [reflexivity|]. cbn [fst snd].
    split; [reflexivity|]. now left.
Qed.

Lemma first_titled_first (title : string) (before after : list view.t)
    (h : view.t) :
  Forall (fun v => ~ titled title v) before ->
  titled title h ->
  WindowsAdapterV2.first_titled title (before ++ h :: after) = view.hwnd h.
Proof.
  intros Hbefore [Hlen Htitle].
  induction Hbefore as [|v before Hv _ IH]; cbn [app WindowsAdapterV2.first_titled].
  - apply Z.eqb_neq in Hlen. rewrite Hlen, Htitle, String.eqb_refl. reflexivity.
  - destruct (Z.eqb_spec (view.GetWindowTextLengthW v) 0) as [|Hl]; [exact IH|].
    destruct (String.eqb_spec (view.GetWindowTextW v) title) as [Ht|]; [|exact IH].
    exfalso. apply Hv. split; assumption.
Qed.

(** X24. [RestoreWindow] of [WindowsAdapterV2] finds the window to move by
    its title alone, in a second enumeration: the window it moves is the
    first one whose title is that of the best match, whether or not that
    window is visible and whatever its application and size are. It need
    not be the window that was matched, nor one that [GetWindows]
    reports. *)
Theorem RestoreWindow_v2_moves_first_window_with_title
    (w : WindowsAdapterV2.t) (window : Window.t) (σ σ1 σ2 : World)
    (tr : list os_call) (views1 before after : list view.t)
    (best : MatchResult.t) (h : view.t) :
  User32.EnumWindows user32 σ = (views1, σ1) ->
  FindBestMatch (WindowsAdapterV2.matcher w) window
    (flat_map WindowsAdapterV2.window_of views1) = Ok (Some best) ->
  User32.EnumWindows user32
    (User32.log_Printf user32 (WindowsAdapterV2.matched_line window best) σ1)
  = (before ++ h :: after, σ2) ->
  Forall (fun v => ~ titled (Window.WindowTitle (MatchResult.Window best)) v)
         before ->
  titled (Window.WindowTitle (MatchResult.Window best)) h ->
  view.hwnd h <> 0 ->
  exists calls,
    snd (snd (WindowsAdapterV2.RestoreWindow user32 w window (σ, tr)))
    = tr ++ [OsEnumWindows; OsLog (WindowsAdapterV2.matched_line window best);
             OsEnumWindows; move_call (view.hwnd h) window] ++ calls
    /\ match fst (WindowsAdapterV2.RestoreWindow user32 w window (σ, tr)) with
       | Ok None =>
           calls = [OsShowWindow (uintptr (view.hwnd h))
                      (WindowsAdapterV2.show_command (Window.State window))]
       | Ok (Some _) => calls = []
       | Panic _ => False
       end.
Proof.
  intros Henum1 Hmatch Henum2 Hbefore Hh Hhwnd.
  rewrite RestoreWindow_v2_run, Henum1, Hmatch. cbn zeta. rewrite Henum2.
  rewrite (first_titled_first _ before after h Hbefore Hh).
  apply Z.eqb_neq in Hhwnd. rewrite Hhwnd.
  match goal with
  | |- context [WindowsAdapterV2.setWindowPosition user32 ?h0 window (?σ3, ?tr3)] =>
      destruct (setWindowPosition_run h0 window σ3 tr3) as (calls & Htr & Hres);
      destruct (WindowsAdapterV2.setWindowPosition user32 h0 window (σ3, tr3))
        as [[e|] [σ4 tr4]]
  end;
    cbn [fst snd] in Htr, Hres |- *; subst tr4; exists calls;
    (split; [rewrite <- ?app_assoc; reflexivity|exact Hres]).
Qed.

Lemma resolve_found (matched : Window.t) (candidates : list (Window.t * Z)) :
  WindowsAdapter.resolve matched candidates <> 0 ->
  exists c,
    (c, WindowsAdapter.resolve matched candidates) ∈ candidates
    /\ Window.WindowTitle c = Window.WindowTitle matched
    /\ Window.AppName c = Window.AppName matched
    /\ Window.Width c = Window.Width matched.
Proof.
  induction candidates as [|[c h] rest IH]; cbn [WindowsAdapter.resolve];
    [intros []; reflexivity|].
  destruct (String.eqb_spec (Window.WindowTitle c) (Window.WindowTitle matched))
    as [Ht|]; cbn [andb].
  - destruct (String.eqb_spec (Window.AppName c) (Window.AppName matched))
      as [Ha|]; cbn [andb].
    + destruct (Z.eqb_spec (Window.Width c) (Window.Width matched)) as [Hw|].
      * intros _. exists c. split; [now left|]. repeat split; assumption.
      * intros Hne. destruct (IH Hne) as (c' & Hin & Hc').
        exists c'. split; [now right|exact Hc'].
    + intros Hne. destruct (IH Hne) as (c' & Hin & Hc').
      exists c'. split; [now right|exact Hc'].
  - intros Hne. destruct (IH Hne) as (c' & Hin & Hc').
    exists c'. split; [now right|exact Hc'].
Qed.

Lemma elem_of_candidate_of (c : Window.t) (h : Z) (views : list view.t) :
  (c, h) ∈ flat_map WindowsAdapter.candidate_of views ->
  exists v,
    v ∈ views /\ reported v /\ view.hwnd v = h
    /\ Window.WindowTitle c = view.GetWindowTextW v
    /\ Window.AppName c = appName_of v.
Proof.
  intros Hin. apply list_elem_of_In, in_flat_map in Hin as (v & Hv & Hc).
  exists v. split; [now apply list_elem_of_In|].
  unfold WindowsAdapter.candidate_of, reported in *.
  destruct (Z.eqb_spec (view.IsWindowVisible v) 0) as [|Hvis]; [destruct Hc|].
  destruct (Z.eqb_spec (view.GetWindowTextLengthW v) 0) as [|Hlen];
    [destruct Hc|].
  destruct Hc as [Hc|[]]. injection Hc as <- <-. repeat split; assumption.
Qed.

(** X25. [RestoreWindow] of [WindowsAdapter] does not look at the result of
    [SetWindowPos]: once a match is found and its handle is not zero, it
    returns no error whether or not the window was moved, after one
    enumeration, one [SetWindowPos] (flag [SWP_NOZORDER]) and one
    [ShowWindow] with [SW_SHOW], whatever the saved state is. The handle is
    that of a visible window with a title that has the title and the
    application of the best match. *)
Theorem RestoreWindow_v1_ignores_the_result_of_SetWindowPos
    (window : Window.t) (σ σ1 : World) (tr : list os_call)
    (views : list view.t) (best : MatchResult.t) :
  User32.EnumWindows user32 σ = (views, σ1) ->
  FindBestMatch DefaultMatcher window
    (map fst (flat_map WindowsAdapter.candidate_of views)) = Ok (Some best) ->
  WindowsAdapter.resolve (MatchResult.Window best)
    (flat_map WindowsAdapter.candidate_of views) <> 0 ->
  let h := WindowsAdapter.resolve (MatchResult.Window best)
             (flat_map WindowsAdapter.candidate_of views) in
  fst (WindowsAdapter.RestoreWindow user32 window (σ, tr)) = Ok None
  /\ snd (snd (WindowsAdapter.RestoreWindow user32 window (σ, tr)))
     = tr ++ [OsEnumWindows;
              OsSetWindowPos (uintptr h) 0 (uintptr (Window.X window))
                (uintptr (Window.Y window)) (uintptr (Window.Width window))
                (uintptr (Window.Height window)) 4;
              OsShowWindow (uintptr h) 5]
  /\ exists v,
       v ∈ views /\ reported v /\ view.hwnd v = h
       /\ view.GetWindowTextW v = Window.WindowTitle (MatchResult.Window best)
       /\ appName_of v = Window.AppName (MatchResult.Window best).
Proof.
  intros Henum Hmatch Hfound h.
  unfold WindowsAdapter.RestoreWindow. run_adapter. rewrite Henum.
  cbn [fst snd]. rewrite Hmatch. fold h.
  apply Z.eqb_neq in Hfound as Hneq. fold h in Hneq. rewrite Hneq.
  cbn [negb fst snd].
  match goal with
  | |- context [User32.SetWindowPos user32 ?a ?b ?c ?d ?e ?f ?g σ1] =>
      destruct (User32.SetWindowPos user32 a b c d e f g σ1) as [[ret err] σ2]
  end.
  cbn [fst snd]. split; [reflexivity|]. split; [now rewrite <- ?app_assoc|].
  destruct (resolve_found _ _ Hfound) as (c & Hin & Ht & Ha & _).
  apply elem_of_candidate_of in Hin as (v & Hv & Hrep & Hh & Hvt & Hva).
  exists v. split; [exact Hv|]. split; [exact Hrep|]. split; [exact Hh|].
  split; congruence.
Qed.

Lemma persist_plan_writes (s : FullSnapshot.t) (e : capture.event) :
  e ∈ persist_plan s -> capture.is_write e = true.
Proof.
  unfold persist_plan, planned. intros Hin.
  apply elem_of_cons in Hin as [->|Hin]; [reflexivity|].
  repeat (apply elem_of_app in Hin as [Hin|Hin]);
    (destruct (0 <? _) in Hin;
     [apply list_elem_of_singleton in Hin; subst e; reflexivity
     |apply elem_of_nil in Hin; contradiction]).
Qed.

Lemma Capture_gather_terminals {W0 : Type} (m : capture.ManagerV2 W0)
    (opts : capture.CaptureOptionsV2.t) (st : W0 * list capture.event)
    (s : FullSnapshot.t) :
  fst (capture.Capture_gather m opts st) = inl s ->
  FullSnapshot.Terminals s = []
  \/ exists σ',
       FullSnapshot.Terminals s
       = fst (fst (capture.PlatformAdapter.GetTerminals
                     (capture.platform_ (capture.v2 m)) σ')).
Proof.
  destruct st as [σ tr]. unfold capture.Capture_gather. run_traced.
  repeat (cbn [fst snd]; answer); cbn [fst snd]; intros Hs;
    try discriminate; injection Hs as <-;
    try (left; reflexivity);
    right;
    match goal with
    | H : capture.PlatformAdapter.GetTerminals _ ?x = _ |- _ =>
        exists x; rewrite H; reflexivity
    end.
Qed.

Lemma write_error_prefix (s : FullSnapshot.t) (e : capture.event) :
  e ∈ persist_plan s ->
  exists prefix,
    prefix ∈ ["failed to save snapshot metadata: "; "failed to save windows: ";
              "failed to save terminals: "; "failed to save browser tabs: ";
              "failed to save ide files: "]
    /\ forall cause, write_error e cause = prefix +:+ cause.
Proof.
  unfold persist_plan, planned. intros Hin.
  apply elem_of_cons in Hin as [->|Hin].
  { eexists. split; [|intros cause; reflexivity]. now left. }
  repeat (apply elem_of_app in Hin as [Hin|Hin]);
    (destruct (0 <? _) in Hin;
     [apply list_elem_of_singleton in Hin; subst e
     |apply elem_of_nil in Hin; contradiction]);
    (eexists; split; [|intros cause; reflexivity]).
  - right. now left.
  - do 2 right. now left.
  - do 3 right. now left.
  - do 4 right. now left.
Qed.

(** X27. A capture through [WindowsAdapterV2] can fail only at the
    repository: the enumerations of the adapter never fail, so that every
    error of [ManagerV2.Capture] is the refusal that the repository
    answered to a write of the plan, after it had accepted the writes
    before, under the name of that write. A snapshot that it returns
    carries no environment variable, sanitized or not. *)
Theorem Capture_on_Windows_fails_only_at_the_repository
    (m : capture.ManagerV2 (World * list os_call)) (w : WindowsAdapterV2.t)
    (opts : capture.CaptureOptionsV2.t)
    (st : (World * list os_call) * list capture.event) :
  capture.platform_ (capture.v2 m) = platform_of user32 w ->
  match fst (capture.Capture m opts st) with
  | (Some s, None) =>
      Forall (fun t => Terminal.EnvVars t = None) (FullSnapshot.Terminals s)
  | (None, Some msg) =>
      exists s before e after cause σ1 prefix,
        persist_plan s = before ++ e :: after
        /\ accepted (capture.repo (capture.v2 m)) before σ1
        /\ fst (write (capture.repo (capture.v2 m)) e
                  (world_after (capture.repo (capture.v2 m)) before σ1))
           = Some cause
        /\ msg = write_error e cause
        /\ msg = prefix +:+ cause
        /\ prefix ∈ ["failed to save snapshot metadata: ";
                     "failed to save windows: "; "failed to save terminals: ";
                     "failed to save browser tabs: ";
                     "failed to save ide files: "]
  | _ => False
  end.
Proof.
  intros Hplatform. destruct st as [[σ os] tr]. rewrite Capture_run.
  destruct (Capture_gather_windows m opts (σ, os)
              (snd (User32.EnumWindows user32
                      (fst (capture_start (capture.host (capture.v2 m)) (σ, os)))),
               snd (capture_start (capture.host (capture.v2 m)) (σ, os))
               ++ [OsEnumWindows]) tr
              (flat_map WindowsAdapterV2.window_of
                 (fst (User32.EnumWindows user32
                         (fst (capture_start (capture.host (capture.v2 m))
                                 (σ, os)))))))
    as (s & Hs & _).
  { rewrite Hplatform. cbn [platform_of capture.PlatformAdapter.GetWindows].
    destruct (capture_start _ _) as [σ0 os0]. apply GetWindows_v2_run. }
  { intros [σ' os']. rewrite Hplatform.
    cbn [platform_of capture.PlatformAdapter.GetTerminals].
    unfold WindowsAdapterV2.GetTerminals. rewrite derived_v2_run. reflexivity. }
  assert (Hnone : Forall (fun t => Terminal.EnvVars t = None)
                         (FullSnapshot.Terminals s)).
  { destruct (Capture_gather_terminals m opts (σ, os, tr) s Hs) as [->|[σ' ->]];
      [constructor|].
    rewrite Hplatform. cbn [platform_of capture.PlatformAdapter.GetTerminals].
    destruct σ' as [σ' os']. unfold WindowsAdapterV2.GetTerminals.
    rewrite derived_v2_run. cbn [fst].
    apply (sanitizeTerminals_terminals_of keys_in_order
             (sanitize.NewSanitizer sanitize.DefaultOptions)). }
  destruct (capture.Capture_gather m opts (σ, os, tr)) as [gathered st1].
  cbn [fst] in Hs. subst gathered. cbn zeta.
  set (s' := if capture.CaptureOptionsV2.Sanitize opts then _ else s).
  assert (Hnone' : Forall (fun t => Terminal.EnvVars t = None)
                          (FullSnapshot.Terminals s')).
  { subst s'. destruct (capture.CaptureOptionsV2.Sanitize opts); [|exact Hnone].
    apply Forall_forall. intros t' Ht'.
    apply SanitizeSnapshot_terminals in Ht' as (t & Ht & ->).
    rewrite Forall_forall in Hnone. rewrite (Hnone t Ht).
    now destruct (0 <? _). }
  destruct st1 as [σ1 tr1].
  destruct (perform_cases (capture.repo (capture.v2 m)) (persist_plan s') σ1)
    as [Hacc|(before & e & after & cause & Hplan & Hacc & Hrefused)].
  - rewrite (perform_accepted _ _ σ1 tr1 Hacc). exact Hnone'.
  - pose proof (perform_refused _ before after e cause σ1 tr1 Hacc Hrefused)
      as Hrun.
    rewrite <- Hplan in Hrun. rewrite Hrun. cbn [fst].
    destruct (write_error_prefix s' e) as (prefix & Hprefix & Hmsg).
    { rewrite Hplan. apply elem_of_app. right. now left. }
    exists s', before, e, after, cause, σ1, prefix.
    split; [exact Hplan|]. split; [exact Hacc|]. split; [exact Hrefused|].
    split; [reflexivity|]. split; [apply Hmsg|exact Hprefix].
Qed.

End AdapterProperties.

(** ** The adapters on the desktop *)

Lemma RestoreWindow_v2_moves_the_hidden_editor :
  exists calls,
    snd (snd (adapters.WindowsAdapterV2.RestoreWindow (go := ascii_strings)
                (desktop.user32 true)
                adapters.WindowsAdapterV2.NewWindowsAdapterV2
                desktop.saved_editor (desktop.start, [])))
    = [adapters.OsEnumWindows;
       adapters.OsLog "[WindowRestore] Matched 'Editor' with 'Editor' (score: 160)";
       adapters.OsEnumWindows;
       move_call (adapters.view.hwnd desktop.hidden_editor) desktop.saved_editor]
      ++ calls.
Proof.
  destruct (RestoreWindow_v2_moves_first_window_with_title (go := ascii_strings)
              (desktop.user32 true)
              adapters.WindowsAdapterV2.NewWindowsAdapterV2
              desktop.saved_editor desktop.start desktop.start desktop.start []
              desktop.start [] [desktop.editor; desktop.shell]
              (platform.MatchResult.mk
                 (core.Window.mk 0 "" "Code.exe" "" "Editor" 10 20 800 600
                    "maximized" 0 0 "") 160)
              desktop.hidden_editor)
    as (calls & Htr & _).
  - reflexivity.
  - vm_compute. reflexivity.
  - reflexivity.
  - constructor.
  - split; [discriminate|reflexivity].
  - discriminate.
  - exists calls. exact Htr.
Defined.

Lemma RestoreWindow_v1_succeeds_when_access_is_denied :
  fst (adapters.WindowsAdapter.RestoreWindow (go := ascii_strings)
         (desktop.user32 false) desktop.saved_editor (desktop.start, []))
  = Ok None.
Proof.
  destruct (RestoreWindow_v1_ignores_the_result_of_SetWindowPos
              (go := ascii_strings) (desktop.user32 false)
              desktop.saved_editor desktop.start desktop.start []
              desktop.start
              (platform.MatchResult.mk
                 (core.Window.mk 0 "" "Code.exe" "" "Editor" 0 0 800 600
                    "" 0 0 "") 160))
    as (Hnil & _).
  - reflexivity.
  - vm_compute. reflexivity.
  - vm_compute. discriminate.
  - exact Hnil.
Defined.

Lemma Capture_of_desktop_with_full_disk :
  fst (capture.Capture (go := ascii_strings) (text := plain_text)
         (desktop.manager (Some "disk full"))
         (capture.CaptureOptionsV2.mk "desktop" "" [] true true true)
         ((desktop.start, []), []))
  = (None, Some "failed to save snapshot metadata: disk full").
Proof.
  pose proof (Capture_on_Windows_fails_only_at_the_repository
                (go := ascii_strings) (text := plain_text) (desktop.user32 true)
                (desktop.manager (Some "disk full"))
                adapters.WindowsAdapterV2.NewWindowsAdapterV2
                (capture.CaptureOptionsV2.mk "desktop" "" [] true true true)
                ((desktop.start, []), []) eq_refl) as Hfails.
  destruct (fst (capture.Capture _ _ _)) as [[s|] [msg|]] eqn:Hrun;
    try contradiction.
  - vm_compute in Hrun. discriminate.
  - clear Hfails. vm_compute in Hrun. symmetry. exact Hrun.
Defined.
(** * Properties of the SQLite repository *)

Ltac run_sql :=
  unfold traced.call, traced.pure, traced.tell, mbind, mret, traced.T_bind,
    traced.T_ret;
  cbn [fst snd].

Section RepositoryProperties.
Import core components db.
Context {World : Type}.
Variable driver : Driver.t World.
Variable json : Json.t.

Lemma exec_all_shape (rows : list (list arg)) (σ : World) (tr : list sql_call) :
  exists attempted rest,
    rows = attempted ++ rest
    /\ snd (snd (exec_all driver rows (σ, tr))) = tr ++ map SqlStmtExec attempted
    /\ match fst (exec_all driver rows (σ, tr)) with
       | None => rest = []
       | Some _ => attempted <> []
       end.
Proof.
  revert σ tr. induction rows as [|args rows IH]; intros σ tr.
  - exists [], []. cbn. rewrite app_nil_r. repeat split.
  - cbn [exec_all]. run_sql.
    destruct (Driver.StmtExec driver args σ) as [[e|] σ1]; cbn [fst snd].
    + exists [args], rows. repeat split. discriminate.
    + destruct (IH σ1 (tr ++ [SqlStmtExec args]))
        as (attempted & rest & -> & Htr & Hres).
      exists (args :: attempted), rest. split; [reflexivity|]. split.
      * rewrite Htr, <- app_assoc. reflexivity.
      * destruct (fst (exec_all driver _ _)); [discriminate|exact Hres].
Qed.

Lemma save_rows_shape (query : string) (rows : list (list arg)) (σ : World)
    (tr : list sql_call) :
  exists calls,
    snd (snd (save_rows driver query rows (σ, tr))) = tr ++ calls
    /\ match fst (save_rows driver query rows (σ, tr)) with
       | None => calls = save_calls query rows [SqlCommit; SqlRollback]
       | Some _ =>
           calls = [SqlBeginTx]
           \/ calls = [SqlBeginTx; SqlPrepare query; SqlRollback]
           \/ (exists attempted rest,
                 rows = attempted ++ rest /\ attempted <> []
                 /\ calls = save_calls query attempted [SqlRollback])
           \/ calls = save_calls query rows [SqlCommit; SqlRollback]
       end.
Proof.
  unfold save_rows, WithTx, save_calls. run_sql.
  destruct (Driver.BeginTx driver σ) as [[e|] σ1]; cbn [fst snd].
  { exists [SqlBeginTx]. split; [reflexivity|]. now left. }
  destruct (Driver.Prepare driver query σ1) as [[e|] σ2]; cbn [fst snd].
  { eexists. split; [rewrite <- ?app_assoc; reflexivity|]. right. now left. }
  destruct (exec_all_shape rows σ2 ((tr ++ [SqlBeginTx]) ++ [SqlPrepare query]))
    as (attempted & rest & Hrows & Htr & Hres).
  destruct (exec_all driver rows _) as [[e|] [σ3 tr3]];
    cbn [fst snd] in Htr, Hres |- *; subst tr3.
  - eexists. split; [rewrite <- ?app_assoc; reflexivity|].
    right. right. left. exists attempted, rest. repeat split; assumption.
  - subst rest. rewrite app_nil_r in Hrows. subst attempted.
    destruct (Driver.Commit driver _) as [[e|] σ4]; cbn [fst snd];
      (eexists; split; [rewrite <- ?app_assoc; reflexivity|]).
    + right. right. right. reflexivity.
    + reflexivity.
Qed.

Lemma exec_all_accepted (rows : list (list arg)) (σ : World)
    (tr : list sql_call) :
  inserts_accepted driver rows σ ->
  exec_all driver rows (σ, tr)
  = (None, (after_inserts driver rows σ, tr ++ map SqlStmtExec rows)).
Proof.
  revert σ tr. induction rows as [|args rest IH]; intros σ tr Hacc.
  - cbn. now rewrite app_nil_r.
  - destruct Hacc as [Ha Hrest]. cbn [exec_all after_inserts map]. run_sql.
    destruct (Driver.StmtExec driver args σ) as [answer σ1].
    cbn [fst snd] in Ha, Hrest |- *. subst answer.
    rewrite (IH σ1 (tr ++ [SqlStmtExec args]) Hrest), <- app_assoc. reflexivity.
Qed.

Lemma exec_all_refused (before after : list (list arg)) (args : list arg)
    (e : error) (σ : World) (tr : list sql_call) :
  inserts_accepted driver before σ ->
  fst (Driver.StmtExec driver args (after_inserts driver before σ)) = Some e ->
  exec_all driver (before ++ args :: after) (σ, tr)
  = (Some e,
     (snd (Driver.StmtExec driver args (after_inserts driver before σ)),
      tr ++ map SqlStmtExec (before ++ [args]))).
Proof.
  revert σ tr. induction before as [|b before IH]; intros σ tr Hacc Hrefused.
  - cbn [app exec_all after_inserts map] in *. run_sql.
    destruct (Driver.StmtExec driver args σ) as [answer σ1].
    cbn [fst snd] in Hrefused |- *. subst answer. reflexivity.
  - destruct Hacc as [Hb Hrest]. cbn [app exec_all after_inserts map] in *.
    run_sql. destruct (Driver.StmtExec driver b σ) as [answer σ1].
    cbn [fst snd] in Hb, Hrest, Hrefused |- *. subst answer.
    rewrite (IH σ1 (tr ++ [SqlStmtExec b]) Hrest Hrefused), <- app_assoc.
    reflexivity.
Qed.

(** X28. [SaveWindows] is one transaction. When it returns no error it has
    begun a transaction, prepared the insertion, executed it once for each
    window in order, closed the statement, committed and then called the
    deferred [Rollback]. When the driver refuses to begin, nothing else is
    called and the refusal is returned. When it refuses to prepare, the
    transaction is rolled back and the refusal returned. When it accepts
    the insertions before one window and refuses that one, no later window
    is inserted, the statement is closed, the transaction is rolled back
    without [Commit] and the refusal is returned. When it accepts every
    insertion, [Commit] is called and its answer is what [SaveWindows]
    returns. Each insertion has as many arguments as the statement has
    placeholders and carries the identifier given to [SaveWindows], not the
    [SnapshotID] of the window. *)
Theorem SaveWindows_is_one_transaction (snapshotID : string)
    (windows : list Window.t) (σ : World) (tr : list sql_call) :
  (exists calls,
     snd (snd (SaveWindows driver json snapshotID windows (σ, tr))) = tr ++ calls
     /\ match fst (SaveWindows driver json snapshotID windows (σ, tr)) with
        | None =>
            calls = save_calls insert_window
                      (map (window_args json snapshotID) windows)
                      [SqlCommit; SqlRollback]
        | Some _ =>
            calls = [SqlBeginTx]
            \/ calls = [SqlBeginTx; SqlPrepare insert_window; SqlRollback]
            \/ (exists attempted rest,
                  windows = attempted ++ rest /\ attempted <> []
                  /\ calls = save_calls insert_window
                               (map (window_args json snapshotID) attempted)
                               [SqlRollback])
            \/ calls = save_calls insert_window
                         (map (window_args json snapshotID) windows)
                         [SqlCommit; SqlRollback]
        end)
  /\ (forall w,
        length (window_args json snapshotID w)
        = count_placeholders insert_window
        /\ head (window_args json snapshotID w) = Some (AString snapshotID))
  /\ (forall e σ1,
        Driver.BeginTx driver σ = (Some e, σ1) ->
        SaveWindows driver json snapshotID windows (σ, tr)
        = (Some e, (σ1, tr ++ [SqlBeginTx])))
  /\ (forall e σ1 σ2,
        Driver.BeginTx driver σ = (None, σ1) ->
        Driver.Prepare driver insert_window σ1 = (Some e, σ2) ->
        SaveWindows driver json snapshotID windows (σ, tr)
        = (Some e,
           (Driver.Rollback driver σ2,
            tr ++ [SqlBeginTx; SqlPrepare insert_window; SqlRollback])))
  /\ (forall σ1 σ2 before w after e,
        Driver.BeginTx driver σ = (None, σ1) ->
        Driver.Prepare driver insert_window σ1 = (None, σ2) ->
        windows = before ++ w :: after ->
        inserts_accepted driver (map (window_args json snapshotID) before) σ2 ->
        fst (Driver.StmtExec driver (window_args json snapshotID w)
               (after_inserts driver
                  (map (window_args json snapshotID) before) σ2)) = Some e ->
        SaveWindows driver json snapshotID windows (σ, tr)
        = (Some e,
           (Driver.Rollback driver
              (Driver.StmtClose driver
                 (snd (Driver.StmtExec driver (window_args json snapshotID w)
                         (after_inserts driver
                            (map (window_args json snapshotID) before) σ2)))),
            tr ++ save_calls insert_window
                    (map (window_args json snapshotID) (before ++ [w]))
                    [SqlRollback])))
  /\ (forall σ1 σ2,
        Driver.BeginTx driver σ = (None, σ1) ->
        Driver.Prepare driver insert_window σ1 = (None, σ2) ->
        inserts_accepted driver (map (window_args json snapshotID) windows) σ2 ->
        let σ3 := Driver.StmtClose driver
                    (after_inserts driver
                       (map (window_args json snapshotID) windows) σ2) in
        SaveWindows driver json snapshotID windows (σ, tr)
        = (fst (Driver.Commit driver σ3),
           (Driver.Rollback driver (snd (Driver.Commit driver σ3)),
            tr ++ save_calls insert_window
                    (map (window_args json snapshotID) windows)
                    [SqlCommit; SqlRollback]))).
Proof.
  split; [|split; [|split; [|split; [|split]]]].
  6: { intros σ1 σ2 Hbegin Hprepare Hacc σ3.
       unfold SaveWindows, save_rows, WithTx, save_calls. run_sql.
       rewrite Hbegin. cbn [fst snd]. rewrite Hprepare. cbn [fst snd].
       rewrite (exec_all_accepted _ σ2 _ Hacc). cbn [fst snd]. fold σ3.
       destruct (Driver.Commit driver σ3) as [answer σ4]. cbn [fst snd].
       rewrite <- !app_assoc. reflexivity. }
  5: { intros σ1 σ2 before w after e Hbegin Hprepare -> Hacc Hrefused.
       unfold SaveWindows, save_rows, WithTx, save_calls. run_sql.
       rewrite Hbegin. cbn [fst snd]. rewrite Hprepare. cbn [fst snd].
       rewrite map_app. cbn [map].
       rewrite (exec_all_refused _ _ _ e σ2 _ Hacc Hrefused). cbn [fst snd].
       rewrite !map_app. cbn [map app]. rewrite <- ?app_assoc. cbn [app].
       reflexivity. }
  4: { intros e σ1 σ2 Hbegin Hprepare.
       unfold SaveWindows, save_rows, WithTx. run_sql.
       rewrite Hbegin. cbn [fst snd]. rewrite Hprepare. cbn [fst snd].
       rewrite <- !app_assoc. reflexivity. }
  3: { intros e σ1 Hbegin. unfold SaveWindows, save_rows, WithTx. run_sql.
       rewrite Hbegin. reflexivity. }
  - unfold SaveWindows.
    destruct (save_rows_shape insert_window
                (map (window_args json snapshotID) windows) σ tr)
      as (calls & Htr & Hres).
    exists calls. split; [exact Htr|].
    destruct (fst (save_rows driver _ _ _)); [|exact Hres].
    destruct Hres as [H|[H|[H|H]]]; [now left|right; now left| |now do 3 right].
    right. right. left. destruct H as (attempted & rest & Hrows & Hne & ->).
    apply map_eq_app in Hrows as (ws1 & ws2 & -> & <- & <-).
    exists ws1, ws2. repeat split. intros ->. now apply Hne.
  - intros w. split; reflexivity.
Qed.

Lemma scan_snapshots_shape (rows : list (snapshot_row.t + error))
    (snapshots : list FullSnapshot.t) (P : FullSnapshot.t -> Prop) :
  Forall P snapshots ->
  (forall r tags, P (snapshot_of_row r tags)) ->
  match scan_snapshots json rows snapshots with
  | (result, None) => Forall P result
  | (result, Some _) => result = []
  end.
Proof.
  intros Hacc Hrow. revert snapshots Hacc.
  induction rows as [|[r|e] rows IH]; intros snapshots Hacc;
    cbn [scan_snapshots]; [exact Hacc| |reflexivity].
  apply IH. apply Forall_app. split; [exact Hacc|].
  constructor; [apply Hrow|constructor].
Qed.

(** X30. The statement that [ListSnapshots] builds has as many
    placeholders as it is given arguments, whatever the filter; the tags
    and the offset of the filter are not used. Through [List] of the
    managers the query is the selection of the fifty latest snapshots.
    The snapshots listed carry no windows and no head hash, and with an
    error no snapshot is returned. *)
Theorem ListSnapshots_query_matches_its_arguments
    (filter : capture.SnapshotFilter.t)
    (p : capture.PlatformAdapter.t (World * list sql_call))
    (h : capture.Host.t (World * list sql_call))
    (σ : World) (sql : list sql_call) (tr : list capture.event) :
  count_placeholders (fst (list_query filter)) = length (snd (list_query filter))
  /\ list_query filter
     = list_query (capture.SnapshotFilter.mk
                     (capture.SnapshotFilter.Project filter)
                     (capture.SnapshotFilter.Branch filter) []
                     (capture.SnapshotFilter.Limit filter) 0)
  /\ (exists calls,
        snd (fst (snd (capture.List
                         {| capture.repo := SQLiteRepository driver json;
                            capture.platform_ := p; capture.host := h |}
                         ((σ, sql), tr))))
        = sql ++ SqlQuery (select_snapshots
                           +:+ " ORDER BY created_at DESC LIMIT ?") [AInt 50]
                 :: calls)
  /\ match fst (ListSnapshots driver json filter (σ, sql)) with
     | (snapshots, None) =>
         Forall (fun s => FullSnapshot.Windows s = []
                          /\ Snapshot.GitHeadHash (FullSnapshot.base s) = "")
                snapshots
     | (snapshots, Some _) => snapshots = []
     end.
Proof.
  split; [|split; [|split]].
  - unfold list_query.
    destruct (negb (String.eqb (capture.SnapshotFilter.Project filter) "")),
      (negb (String.eqb (capture.SnapshotFilter.Branch filter) "")),
      (0 <? capture.SnapshotFilter.Limit filter); reflexivity.
  - reflexivity.
  - unfold capture.List, capture.call, traced.call.
    cbn [capture.repo capture.Repository.ListSnapshots SQLiteRepository fst snd].
    unfold ListSnapshots.
    change (list_query (capture.SnapshotFilter.mk "" "" [] 50 0))
      with (select_snapshots +:+ " ORDER BY created_at DESC LIMIT ?",
            [AInt 50]).
    run_sql.
    match goal with
    | |- context [Driver.QuerySnapshots driver ?q ?a σ] =>
        destruct (Driver.QuerySnapshots driver q a σ) as [[rows [e|]] σ1]
    end; cbn [fst snd]; eexists; rewrite <- ?app_assoc; reflexivity.
  - unfold ListSnapshots. destruct (list_query filter) as [query args].
    run_sql.
    destruct (Driver.QuerySnapshots driver query args σ) as [[rows [e|]] σ1];
      cbn [fst snd]; [reflexivity|].
    apply (scan_snapshots_shape rows []
             (fun s => FullSnapshot.Windows s = []
                       /\ Snapshot.GitHeadHash (FullSnapshot.base s) = ""));
      [constructor|]. intros r tags. split; reflexivity.
Qed.

(** X29. A snapshot comes back from the repository without its head hash
    and without windows: [CreateSnapshot] writes eight columns, the head
    hash among them (it does the same for the snapshot reduced to these
    columns), but [GetSnapshotByID] selects neither the head hash nor any
    component. So when the windows of a stored snapshot cannot be read,
    [Manager.Restore] over this repository returns no error and restores
    nothing: it makes no call to the platform. *)
Theorem SQLite_snapshot_comes_back_without_hash_and_windows
    (p : capture.PlatformAdapter.t (World * list sql_call))
    (h : capture.Host.t (World * list sql_call))
    (id : string) (σ σ1 σ2 : World) (sql : list sql_call)
    (tr : list capture.event) (r : snapshot_row.t)
    (rows : list (window_row.t + error)) (e : error) (s0 : FullSnapshot.t) :
  Driver.QueryRow driver select_snapshot [AString id] σ = (Row r, σ1) ->
  snd (unmarshalJSON (Json.Unmarshal_tags json) (snapshot_row.tags r) []) = None ->
  Driver.QueryWindows driver select_windows [AString id] σ1
  = ((rows, Some e), σ2) ->
  (exists s,
     GetSnapshotByID driver json id (σ, sql)
     = ((Some s, None), (σ1, sql ++ [SqlQueryRow select_snapshot [AString id]]))
     /\ Snapshot.GitHeadHash (FullSnapshot.base s) = ""
     /\ FullSnapshot.Windows s = [] /\ FullSnapshot.Terminals s = []
     /\ FullSnapshot.BrowserTabs s = [] /\ FullSnapshot.IDEFiles s = [])
  /\ CreateSnapshot driver json s0 (σ, sql)
     = CreateSnapshot driver json (written_columns s0) (σ, sql)
  /\ capture.Restore_v1
       {| capture.repo := SQLiteRepository driver json;
          capture.platform_ := p; capture.host := h |}
       id ((σ, sql), tr)
     = (None,
        ((σ2, sql ++ [SqlQueryRow select_snapshot [AString id];
                      SqlQuery select_windows [AString id]]),
         tr ++ [capture.EvGetSnapshotByID id; capture.EvRepoGetWindows id])).
Proof.
  intros Hrow Htags Hwindows.
  assert (Hget : exists s,
             GetSnapshotByID driver json id (σ, sql)
             = ((Some s, None),
                (σ1, sql ++ [SqlQueryRow select_snapshot [AString id]]))
             /\ Snapshot.GitHeadHash (FullSnapshot.base s) = ""
             /\ FullSnapshot.Windows s = [] /\ FullSnapshot.Terminals s = []
             /\ FullSnapshot.BrowserTabs s = [] /\ FullSnapshot.IDEFiles s = []).
  { unfold GetSnapshotByID. run_sql. rewrite Hrow. cbn [fst snd].
    destruct (unmarshalJSON _ _ _) as [tags [e'|]]; [discriminate|].
    eexists. split; [reflexivity|]. repeat split. }
  split; [exact Hget|]. split; [reflexivity|].
  destruct Hget as (s & Hs & _ & Hws & _).
  unfold capture.Restore_v1, capture.call, capture.pure. run_sql.
  cbn [capture.repo capture.Repository.GetSnapshotByID
       capture.Repository.GetWindows SQLiteRepository].
  rewrite Hs. cbn [fst snd].
  unfold GetWindows. run_sql. rewrite Hwindows. cbn [fst snd].
  rewrite Hws. cbn [capture.Restore_v1_loop]. run_sql.
  rewrite <- ?app_assoc. reflexivity.
Qed.

End RepositoryProperties.

(** ** The repository on the bench *)

Lemma Restore_v1_of_locked_database_restores_nothing :
  capture.Restore_v1 (bench.manager bench.locked) "7f3c" ((tt, []), [])
  = (None,
     ((tt, [db.SqlQueryRow db.select_snapshot [db.AString "7f3c"];
            db.SqlQuery db.select_windows [db.AString "7f3c"]]),
      [capture.EvGetSnapshotByID "7f3c"; capture.EvRepoGetWindows "7f3c"])).
Proof.
  destruct (SQLite_snapshot_comes_back_without_hash_and_windows
              (bench.driver bench.locked) bench.json
              (capture.platform_ (bench.manager bench.locked))
              (capture.host (bench.manager bench.locked))
              "7f3c" tt tt tt [] []
              (db.snapshot_row.mk "7f3c" "desk" "" 5 5 "main" "/srv/app" false "")
              [] "database is locked"
              (capture.new_snapshot "7f3c" "desk" "" [] 0 0)
              eq_refl eq_refl eq_refl)
    as (_ & _ & Hrestore).
  exact Hrestore.
Defined.

Lemma SaveWindows_stops_at_the_refused_window :
  db.SaveWindows (bench.driver bench.second_refused) bench.json "7f3c"
    bench.three_windows (tt, [])
  = (Some "constraint failed",
     (tt,
      save_calls db.insert_window
        (map (db.window_args bench.json "7f3c")
           [inmemory.window "one" "code" 800 600;
            inmemory.window "two" "term" 800 600])
        [db.SqlRollback])).
Proof.
  destruct (SaveWindows_is_one_transaction
              (bench.driver bench.second_refused) bench.json "7f3c"
              bench.three_windows tt [])
    as (_ & _ & _ & _ & Hrefused & _).
  exact (Hrefused tt tt [inmemory.window "one" "code" 800 600]
           (inmemory.window "two" "term" 800 600)
           [inmemory.window "three" "code" 800 600] "constraint failed"
           eq_refl eq_refl eq_refl (conj eq_refl I) eq_refl).
Defined.
